(** * esl_dsqdata: packed digital sequence databases

    A shallow embedding of the packing, unpacking, loading and reading
    code of [esl_dsqdata.c], and the properties of it that its
    specification states.

    Conventions of the embedding:
    - a byte buffer ([ESL_DSQ *], [char *]) is a [list Z] of bytes, read
      with the total lookup [!!!] and written with stdpp's list insert;
    - a [uint32_t] is a [Z] in [0, 2^32), with the wrap-around of shifts
      written out ([u32]);
    - a pointer into a buffer is the offset from the start of the buffer;
    - array positions and loop counters that the code keeps nonnegative
      ([r], [pos], [i], [n], [N], [pn]) are [nat]. *)

From stdpp Require Import list list_numbers numbers gmap.
From Stdlib Require Import ZArith Lia ZifyNat.

Local Open Scope Z_scope.

(** ** Memory: bytes and 32-bit words *)

Module Mem.

(** [(uint32_t) x] *)
Definition u32 (x : Z) : Z := x `mod` 2 ^ 32.

(** [buf[a]] for a byte buffer *)
Definition load_u8 (mem : list Z) (a : nat) : Z := mem !!! a.

(** [*(uint32_t * )(buf + a)], little-endian as the format is. *)
Definition load_u32 (mem : list Z) (a : nat) : Z :=
  little_endian_to_Z 8 [mem !!! a; mem !!! (a + 1)%nat; mem !!! (a + 2)%nat; mem !!! (a + 3)%nat].

(** [*(uint32_t * )(buf + a) = v]. A store outside the buffer is
    undefined in C; here it leaves the buffer as it is, and the
    theorems that need the store state that it is inside. *)
Definition store_u32 (mem : list Z) (a : nat) (v : Z) : list Z :=
  list_inserts a (Z_to_little_endian 4 8 v) mem.

(** The first [plen] words of a buffer. *)
Definition words (mem : list Z) (a : nat) (plen : nat) : list Z :=
  (fun pos => load_u32 mem (a + 4 * pos)%nat) <$> seq 0 plen.

(** [fread(buf + a, 4, length ws, fp)]: the words of a file stored in
    order from offset [a]. *)
Fixpoint store_words (mem : list Z) (a : nat) (ws : list Z) : list Z :=
  match ws with
  | [] => mem
  | w :: ws' => store_words (store_u32 mem a w) (a + 4)%nat ws'
  end.

End Mem.
Import Mem.

(** ** Results of fallible code *)

Inductive status := eslOK | eslEOF | eslEOD | eslEFORMAT.

(** What a call can come to: a normal return with a value; an error code
    thrown with [ESL_EXCEPTION]; a failed [assert] of a debugging build;
    or an access outside an allocation, which C leaves undefined.
    [OutOfFuel] is not an outcome of the code: it marks a loop of the
    embedding cut short by its bound, and the theorems show that the
    bounds used are never reached. *)
Inductive res (A : Type) : Type :=
  | Ok (a : A)
  | Throw (code : status)
  | Abort
  | Undefined
  | OutOfFuel.
Arguments Ok {A} a.
Arguments Throw {A} code.
Arguments Abort {A}.
Arguments Undefined {A}.
Arguments OutOfFuel {A}.

#[global] Instance res_ret : MRet res := fun A a => Ok a.
#[global] Instance res_bind : MBind res := fun A B f m =>
  match m with
  | Ok a => f a
  | Throw c => Throw c
  | Abort => Abort
  | Undefined => Undefined
  | OutOfFuel => OutOfFuel
  end.

(** [a[i] = x] for an array of [length a] cells. *)
Definition poke (a : list Z) (i : nat) (x : Z) : res (list Z) :=
  if decide (i < length a)%nat then Ok (<[i := x]> a) else Undefined.

(** ** Packets *)

Definition bit31 : Z := 1 ≪ 31.
Definition bit30 : Z := 1 ≪ 30.

(** The values the bitshift [b] takes in the 5-bit and 2-bit loops. *)
Definition shifts5 : list Z := [25; 20; 15; 10; 5; 0].
Definition shifts2 : list Z := [28; 26; 24; 22; 20; 18; 16; 14; 12; 10; 8; 6; 4; 2; 0].

(** ** Section 5 of the source: packing *)

(** [for (; b >= 0; b -= 5) v |= (uint32_t) 31 << b;] *)
Fixpoint pad5 (bs : list Z) (v : Z) : Z :=
  match bs with
  | [] => v
  | b :: bs' => pad5 bs' (Z.lor v (u32 (31 ≪ b)))
  end.

(** [for (b = 25; b >= 0 && r <= n; b -= 5) v |= (uint32_t) dsq[r++] << b;]
    followed by the padding loop. Returns the packet and the new [r]. *)
Fixpoint fill5 (bs : list Z) (dsq : list Z) (n r : nat) (v : Z) : Z * nat :=
  match bs with
  | [] => (v, r)
  | b :: bs' =>
      if (r <=? n)%nat
      then fill5 bs' dsq n (S r) (Z.lor v (u32 (load_u8 dsq r ≪ b)))
      else (pad5 bs v, r)
  end.

(** [for (b = 28; b >= 0; b -= 2) v |= (uint32_t) dsq[r++] << b;] *)
Fixpoint fill2 (bs : list Z) (dsq : list Z) (r : nat) (v : Z) : Z * nat :=
  match bs with
  | [] => (v, r)
  | b :: bs' => fill2 bs' dsq (S r) (Z.lor v (u32 (load_u8 dsq r ≪ b)))
  end.

(** [if (r > n) v |= (1 << 31);] *)
Definition mark_eod (n r : nat) (v : Z) : Z :=
  if (n <? r)%nat then Z.lor v bit31 else v.

(** The loop of [dsqdata_pack5]. The packets are stored over the buffer
    that holds the residues ([psq] is [dsq] cast), so the state is the
    one buffer [mem], the read position [r] and the packet position
    [pos]. Every turn reads at least one residue, so [n] turns are
    enough. *)
Fixpoint pack5_loop (fuel : nat) (mem : list Z) (n r pos : nat) : res (list Z * nat) :=
  if (n <? r)%nat then Ok (mem, pos)
  else match fuel with
       | O => OutOfFuel
       | S fuel' =>
           let '(v, r') := fill5 shifts5 mem n r bit30 in
           pack5_loop fuel' (store_u32 mem (4 * pos) (mark_eod n r' v)) n r' (S pos)
       end.

(** [dsqdata_pack5(dsq, n, &psq, &plen)]: the buffer after packing (the
    packets are its first [plen] words) and [plen]. *)
Definition dsqdata_pack5 (dsq : list Z) (n : nat) : res (list Z * nat) :=
  pack5_loop n dsq n 1 0.

(** [for (d = r; d <= n; d++) if (dsq[d] > 3) break;] *)
Fixpoint next_degen (fuel : nat) (dsq : list Z) (n d : nat) : nat :=
  match fuel with
  | O => d
  | S fuel' =>
      if (d <=? n)%nat
      then if 3 <? load_u8 dsq d then d else next_degen fuel' dsq n (S d)
      else d
  end.

(** The loop of [dsqdata_pack2]; [d] is the position of the next
    degenerate residue, recomputed when it falls behind [r]. *)
Fixpoint pack2_loop (fuel : nat) (mem : list Z) (n d r pos : nat) : res (list Z * nat) :=
  if (n <? r)%nat then Ok (mem, pos)
  else match fuel with
       | O => OutOfFuel
       | S fuel' =>
           let d' := if (d <? r)%nat then next_degen (S n - r) mem n r else d in
           let '(v, r') :=
             if (15 <=? n + 1 - r)%nat && (r + 14 <? d')%nat
             then fill2 shifts2 mem r 0
             else fill5 shifts5 mem n r bit30 in
           pack2_loop fuel' (store_u32 mem (4 * pos) (mark_eod n r' v)) n d' r' (S pos)
       end.

Definition dsqdata_pack2 (dsq : list Z) (n : nat) : res (list Z * nat) :=
  pack2_loop n dsq n 0 1 0.


(** A sequence [s] held the way [ESL_SQ] holds it: a sentinel byte, the
    residues at positions [1..n], and the rest of the allocation. *)
Definition holds (mem : list Z) (s : list Z) : Prop :=
  ∃ x0 rest, mem = x0 :: s ++ rest.

(** ** Chunks *)

(** Modelled from the spec: the digital sentinel code of the alphabet
    module, whose header is not among the sources. The value is Easel's;
    no theorem depends on it. *)
Definition eslDSQ_SENTINEL : Z := 255.

(** The reader's fields that the chunk code uses. *)
Record ESL_DSQDATA := {
  chunk_maxseq : nat;
  chunk_maxpacket : nat;
  pack5 : bool;
  nconsumers : nat;
}.

Record ESL_DSQDATA_CHUNK := {
  i0 : Z;
  N : Z;
  pn : Z;
  dsq : list Z;        (* offsets into [smem] *)
  name : list Z;       (* offsets into [metadata] *)
  acc : list Z;
  desc : list Z;
  taxid : list Z;
  L : list Z;
  metadata : list Z;
  mdalloc : nat;
  smem : list Z;
  psq : nat;           (* offset of the packets in [smem] *)
}.

(** [U] of [dsqdata_chunk_Create]. *)
Definition smem_size (dd : ESL_DSQDATA) : nat :=
  ((if pack5 dd then 6 * chunk_maxpacket dd else 15 * chunk_maxpacket dd)
   + (chunk_maxseq dd + 1))%nat.

(** [dsqdata_chunk_Create]. The allocations are not initialised: their
    first contents are the argument [junk], any bytes. *)
Definition dsqdata_chunk_Create (dd : ESL_DSQDATA) (junk : nat -> Z) : ESL_DSQDATA_CHUNK :=
  let U := smem_size dd in
  let fresh (len : nat) : list Z := junk <$> seq 0 len in
  {| i0 := 0; N := 0; pn := 0;
     dsq := fresh (chunk_maxseq dd);
     name := fresh (chunk_maxseq dd);
     acc := fresh (chunk_maxseq dd);
     desc := fresh (chunk_maxseq dd);
     taxid := fresh (chunk_maxseq dd);
     L := fresh (chunk_maxseq dd);
     metadata := fresh (20 * chunk_maxseq dd)%nat;
     mdalloc := (20 * chunk_maxseq dd)%nat;
     smem := fresh U;
     psq := (U - 4 * chunk_maxpacket dd)%nat |}.

(** ** Unpacking a chunk *)

(** The part of the chunk the residue decoder works on, with its
    cursor [r] and sequence index [i]. *)
Record decoder := {
  d_smem : list Z;
  d_dsq : list Z;
  d_L : list Z;
  d_r : nat;
  d_i : nat;
}.

(** [dsq[r++] = x] *)
Definition put (x : Z) (s : decoder) : res decoder :=
  if decide (d_r s < length (d_smem s))%nat
  then Ok {| d_smem := <[d_r s := x]> (d_smem s); d_dsq := d_dsq s; d_L := d_L s;
             d_r := S (d_r s); d_i := d_i s |}
  else Undefined.

(** [dsq[r++] = (v >> b) & mask;] for each shift [b] in turn. *)
Fixpoint put_all (mask : Z) (bs : list Z) (v : Z) (s : decoder) : res decoder :=
  match bs with
  | [] => Ok s
  | b :: bs' => s' ← put (Z.land (v ≫ b) mask) s; put_all mask bs' v s'
  end.

(** [for (bitshift = 25; bitshift >= 0 && ((v >> bitshift) & 31) != 31; bitshift -= 5)
       dsq[r++] = (v >> bitshift) & 31;] *)
Fixpoint put_until31 (bs : list Z) (v : Z) (s : decoder) : res decoder :=
  match bs with
  | [] => Ok s
  | b :: bs' =>
      if decide (Z.land (v ≫ b) 31 = 31) then Ok s
      else s' ← put (Z.land (v ≫ b) 31) s; put_until31 bs' v s'
  end.

(** The end of a sequence:
    [chu->L[i] = &(dsq[r]) - chu->dsq[i] - 1; i++;
     if (i < chu->N) chu->dsq[i] = &(dsq[r]);
     dsq[r++] = eslDSQ_SENTINEL;] *)
Definition finalize (n : Z) (s : decoder) : res decoder :=
  L' ← poke (d_L s) (d_i s) (Z.of_nat (d_r s) - d_dsq s !!! d_i s - 1);
  let i' := S (d_i s) in
  dsq' ← (if decide (Z.of_nat i' < n) then poke (d_dsq s) i' (Z.of_nat (d_r s)) else Ok (d_dsq s));
  put eslDSQ_SENTINEL
    {| d_smem := d_smem s; d_dsq := dsq'; d_L := L'; d_r := d_r s; d_i := i' |}.

(** The body of the packet loop, once [v] has been picked up: the
    [switch (v >> 30)]. *)
Definition unpack_packet (n : Z) (v : Z) (s : decoder) : res decoder :=
  match v ≫ 30 with
  | 0 => put_all 3 shifts2 v s
  | 1 => put_all 31 shifts5 v s
  | 2 => s' ← put_all 3 shifts2 v s; finalize n s'
  | 3 => s' ← put_until31 shifts5 v s; finalize n s'
  | _ => Ok s
  end.

(** [for (pos = 0; pos < chu->pn; pos++) { v = chu->psq[pos]; ... }]:
    [k] packets are left, the next is at [pos]. The packet is read from
    the arena as the decoder has left it. *)
Fixpoint unpack_loop (k : nat) (pos : nat) (psq0 : nat) (n : Z) (s : decoder) : res decoder :=
  match k with
  | O => Ok s
  | S k' =>
      let v := load_u32 (d_smem s) (psq0 + 4 * pos) in
      s' ← unpack_packet n v s;
      unpack_loop k' (S pos) psq0 n s'
  end.

(** The metadata arrays and the walking pointer. *)
Record walker := {
  m_name : list Z;
  m_acc : list Z;
  m_desc : list Z;
  m_taxid : list Z;
  m_ptr : nat;
}.

(** [strchr(buf + p, 0) - buf]: the first zero byte at or after [p].
    With no zero byte left in the allocation the scan leaves it. *)
Definition strchr0 (buf : list Z) (p : nat) : res nat :=
  match list_find (fun b => b = 0) (drop p buf) with
  | Some (k, _) => Ok (p + k)%nat
  | None => Undefined
  end.

(** [*((int32_t * ) (buf + p))] *)
Definition load_i32 (buf : list Z) (p : nat) : res Z :=
  if decide (p + 4 <= length buf)%nat
  then let w := load_u32 buf p in Ok (if decide (w < 2 ^ 31) then w else w - 2 ^ 32)
  else Undefined.

(** [if (ptr >= chu->metadata + chu->mdalloc) ESL_EXCEPTION(eslEFORMAT, ...)] *)
Definition check_ptr (alloc : nat) (ptr : nat) : res unit :=
  if decide (alloc <= ptr)%nat then Throw eslEFORMAT else Ok ().

(** One turn of the metadata loop, for sequence [i]. *)
Definition unpack_metadata_one (buf : list Z) (alloc : nat) (i : nat) (m : walker) : res walker :=
  let ptr := m_ptr m in
  _ ← check_ptr alloc ptr;
  name' ← poke (m_name m) i (Z.of_nat ptr);
  z ← strchr0 buf ptr; let ptr := S z in
  _ ← check_ptr alloc ptr;
  acc' ← poke (m_acc m) i (Z.of_nat ptr);
  z ← strchr0 buf ptr; let ptr := S z in
  _ ← check_ptr alloc ptr;
  desc' ← poke (m_desc m) i (Z.of_nat ptr);
  z ← strchr0 buf ptr; let ptr := S z in
  _ ← check_ptr alloc ptr;
  t ← load_i32 buf ptr;
  taxid' ← poke (m_taxid m) i t;
  Ok {| m_name := name'; m_acc := acc'; m_desc := desc'; m_taxid := taxid';
        m_ptr := (ptr + 4)%nat |}.

(** [for (i = 0; i < chu->N; i++)]: [k] sequences are left. *)
Fixpoint unpack_metadata (k : nat) (buf : list Z) (alloc : nat) (i : nat) (m : walker) : res walker :=
  match k with
  | O => Ok m
  | S k' => m' ← unpack_metadata_one buf alloc i m; unpack_metadata k' buf alloc (S i) m'
  end.

(** [ESL_DASSERT1(( cond ))]: an [assert] when the library is built
    with [eslDEBUGLEVEL >= 1], nothing otherwise. *)
Definition ESL_DASSERT1 (debug : bool) (cond : bool) : res unit :=
  if debug && negb cond then Abort else Ok ().

(** [i = 0; chu->dsq[0] = (ESL_DSQ * ) chu->smem; dsq[r++] = eslDSQ_SENTINEL;] *)
Definition decoder_start (chu : ESL_DSQDATA_CHUNK) : res decoder :=
  dsq0 ← poke (dsq chu) 0 0;
  put eslDSQ_SENTINEL
    {| d_smem := smem chu; d_dsq := dsq0; d_L := L chu; d_r := 0; d_i := 0 |}.

(** [dsqdata_unpack_chunk(chu)]. [Ok chu'] is the return of [eslOK]. *)
Definition dsqdata_unpack_chunk (debug : bool) (chu : ESL_DSQDATA_CHUNK) : res ESL_DSQDATA_CHUNK :=
  m ← unpack_metadata (Z.to_nat (N chu)) (metadata chu) (mdalloc chu) 0
        {| m_name := name chu; m_acc := acc chu; m_desc := desc chu;
           m_taxid := taxid chu; m_ptr := 0 |};
  s0 ← decoder_start chu;
  s ← unpack_loop (Z.to_nat (pn chu)) 0 (psq chu) (N chu) s0;
  _ ← ESL_DASSERT1 debug (bool_decide (Z.of_nat (d_i s) = N chu));
  Ok {| i0 := i0 chu; N := N chu; pn := pn chu;
        dsq := d_dsq s; name := m_name m; acc := m_acc m; desc := m_desc m;
        taxid := m_taxid m; L := d_L s;
        metadata := metadata chu; mdalloc := mdalloc chu;
        smem := d_smem s; psq := psq chu |}.

(** ** Section 2 of the source: writing a database *)

Inductive alphatype := eslAMINO | eslDNA | eslRNA.

(** A digital sequence as [esl_sqio_Read] delivers it. The three
    strings are given by their characters, without the terminator. *)
Record ESL_SQ := {
  sq_name : list Z;
  sq_acc : list Z;
  sq_desc : list Z;
  tax_id : Z;
  sq_dsq : list Z;
  sq_n : nat;
}.

Record ESL_DSQDATA_RECORD := {
  psq_end : Z;
  metadata_end : Z;
}.

#[global] Instance record_inhabited : Inhabited ESL_DSQDATA_RECORD :=
  populate {| psq_end := 0; metadata_end := 0 |}.

(** The three binary files after their headers, with the two running
    positions of the second pass of [esl_dsqdata_Write]. *)
Record database := {
  sfp : list Z;                     (* packets *)
  mfp : list Z;                     (* bytes *)
  ifp : list ESL_DSQDATA_RECORD;
  spos : Z;
  mpos : Z;
}.

Definition empty_database : database :=
  {| sfp := []; mfp := []; ifp := []; spos := 0; mpos := 0 |}.

(** What the second pass writes of one sequence's metadata. *)
Definition metadata_record (sq : ESL_SQ) : list Z :=
  sq_name sq ++ [0] ++ sq_acc sq ++ [0] ++ sq_desc sq ++ [0] ++ Z_to_little_endian 4 8 (tax_id sq).

(** One turn of the second pass. *)
Definition write_one (do_pack5 : bool) (db : database) (sq : ESL_SQ) : res database :=
  '(mem, plen) ← (if do_pack5 then dsqdata_pack5 (sq_dsq sq) (sq_n sq)
                   else dsqdata_pack2 (sq_dsq sq) (sq_n sq));
  let spos' := spos db + Z.of_nat plen in
  let mpos' := mpos db + Z.of_nat (length (metadata_record sq)) in
  Ok {| sfp := sfp db ++ words mem 0 plen;
        mfp := mfp db ++ metadata_record sq;
        ifp := ifp db ++ [{| psq_end := spos' - 1; metadata_end := mpos' - 1 |}];
        spos := spos'; mpos := mpos' |}.

Fixpoint write_all (do_pack5 : bool) (db : database) (sqs : list ESL_SQ) : res database :=
  match sqs with
  | [] => Ok db
  | sq :: sqs' => db' ← write_one do_pack5 db sq; write_all do_pack5 db' sqs'
  end.

(** [esl_dsqdata_Write]: the second pass over the sequences of the file. *)
Definition esl_dsqdata_Write (abc : alphatype) (sqs : list ESL_SQ) : res database :=
  let do_pack5 := match abc with eslAMINO => true | _ => false end in
  write_all do_pack5 empty_database sqs.

(** ** Section 4 of the source: the loader *)

(** [idx[i-1].psq_end - psq_last <= dd->chunk_maxpacket] *)
Definition fits (idx : list ESL_DSQDATA_RECORD) (psq_last : Z) (maxpacket : nat) (i : nat) : bool :=
  bool_decide (psq_end (idx !!! (i - 1)%nat) - psq_last <= Z.of_nat maxpacket).

(** [while (righti - nload > 1) { mid = ...; if (...) nload = mid; else righti = mid; }] *)
Fixpoint nload_search (fuel : nat) (idx : list ESL_DSQDATA_RECORD) (psq_last : Z) (maxpacket : nat)
    (nload righti : nat) : res nat :=
  if (1 <? righti - nload)%nat
  then match fuel with
       | O => OutOfFuel
       | S fuel' =>
           let mid := (nload + (righti - nload) / 2)%nat in
           if fits idx psq_last maxpacket mid
           then nload_search fuel' idx psq_last maxpacket mid righti
           else nload_search fuel' idx psq_last maxpacket nload mid
       end
  else Ok nload.

(** How many sequences the loader takes of the [nidx] staged records. *)
Definition loader_nload (debug : bool) (idx : list ESL_DSQDATA_RECORD) (nidx : nat)
    (psq_last : Z) (maxpacket : nat) : res nat :=
  _ ← ESL_DASSERT1 debug (fits idx psq_last maxpacket 1);
  if fits idx psq_last maxpacket nidx then Ok nidx
  else nload_search nidx idx psq_last maxpacket 1 nidx.

(** The loader's local variables and what is left to read of the files. *)
Record loader := {
  ld_idx : list ESL_DSQDATA_RECORD;   (* the [nidx] staged records *)
  ld_nload : nat;
  ld_i0 : Z;
  ld_psq_last : Z;
  ld_meta_last : Z;
  ld_done : bool;
  ld_ifp : list ESL_DSQDATA_RECORD;
  ld_sfp : list Z;
  ld_mfp : list Z;
}.

Definition loader_start (db : database) : loader :=
  {| ld_idx := []; ld_nload := 0; ld_i0 := 0; ld_psq_last := -1; ld_meta_last := -1;
     ld_done := false; ld_ifp := ifp db; ld_sfp := sfp db; ld_mfp := mfp db |}.

(** [fread] of [want] items that must all be there:
    [if (nread != want) ESL_XEXCEPTION(eslEOD, ...)]. A negative count,
    or one above the room [room] of the destination, is outside what the
    embedding follows. *)
Definition fread_exact {A} (want : Z) (room : nat) (file : list A) : res (list A * list A) :=
  if decide (want < 0 ∨ Z.of_nat room < want) then Undefined
  else if decide (Z.of_nat (length file) < want) then Throw eslEOD
  else Ok (take (Z.to_nat want) file, drop (Z.to_nat want) file).

(** One turn of the loader's main loop, from the refill of the index to
    the chunk that goes to the outbox. *)
Definition loader_turn (debug : bool) (dd : ESL_DSQDATA) (ld : loader) (chu : ESL_DSQDATA_CHUNK)
    : res (loader * ESL_DSQDATA_CHUNK) :=
  let i0' := ld_i0 ld + Z.of_nat (ld_nload ld) in
  let ncarried := (length (ld_idx ld) - ld_nload ld)%nat in
  let carried := drop (ld_nload ld) (ld_idx ld) in
  let fresh := take (chunk_maxseq dd - ncarried) (ld_ifp ld) in
  let idx := carried ++ fresh in
  let ifp' := drop (chunk_maxseq dd - ncarried) (ld_ifp ld) in
  let nidx := length idx in
  if decide (nidx = 0%nat)
  then Ok ({| ld_idx := idx; ld_nload := ld_nload ld; ld_i0 := i0';
              ld_psq_last := ld_psq_last ld; ld_meta_last := ld_meta_last ld;
              ld_done := true; ld_ifp := ifp'; ld_sfp := ld_sfp ld; ld_mfp := ld_mfp ld |},
           {| i0 := i0'; N := 0; pn := 0;
              dsq := dsq chu; name := name chu; acc := acc chu; desc := desc chu;
              taxid := taxid chu; L := L chu; metadata := metadata chu;
              mdalloc := mdalloc chu; smem := smem chu; psq := psq chu |})
  else
    nload ← loader_nload debug idx nidx (ld_psq_last ld) (chunk_maxpacket dd);
    let last := idx !!! (nload - 1)%nat in
    let pn' := psq_end last - ld_psq_last ld in
    '(packets, sfp') ← fread_exact pn' (chunk_maxpacket dd) (ld_sfp ld);
    let nmeta := metadata_end last - ld_meta_last ld in
    let mdalloc' := if decide (Z.of_nat (mdalloc chu) < nmeta) then Z.to_nat nmeta else mdalloc chu in
    '(bytes, mfp') ← fread_exact nmeta mdalloc' (ld_mfp ld);
    let metadata' :=
      if decide (Z.of_nat (mdalloc chu) < nmeta) then bytes
      else list_inserts 0 bytes (metadata chu) in
    Ok ({| ld_idx := idx; ld_nload := nload; ld_i0 := i0';
           ld_psq_last := psq_end last; ld_meta_last := metadata_end last;
           ld_done := false; ld_ifp := ifp'; ld_sfp := sfp'; ld_mfp := mfp' |},
        {| i0 := i0'; N := Z.of_nat nload; pn := pn';
           dsq := dsq chu; name := name chu; acc := acc chu; desc := desc chu;
           taxid := taxid chu; L := L chu; metadata := metadata';
           mdalloc := mdalloc'; smem := store_words (smem chu) (psq chu) packets;
           psq := psq chu |}).

(** ** Sections 1 and 4 of the source: threads and hand-offs *)

(** Where a consumer thread is inside [esl_dsqdata_Read]: past the test
    of [at_eof] and waiting for the unpacker's outbox, or past the
    critical section with the chunk it took. A thread that is not in the
    map is not inside a call. *)
Inductive reader_pc :=
  | Waiting
  | Holding (chu : ESL_DSQDATA_CHUNK).

(** Where the unpacker thread is in its loop: waiting for the loader's
    outbox, holding an unpacked chunk for its own outbox (with its local
    [done]), or gone. *)
Inductive unpacker_pc :=
  | UWaiting
  | UHolding (chu : ESL_DSQDATA_CHUNK) (done : bool)
  | UExited.

(** The shared fields of [ESL_DSQDATA] and the threads. *)
Record system := {
  at_eof : bool;
  loader_outbox : option ESL_DSQDATA_CHUNK;
  unpacker_outbox : option ESL_DSQDATA_CHUNK;
  recycling : list ESL_DSQDATA_CHUNK;
  unpacker : unpacker_pc;
  readers : gmap nat reader_pc;
}.

Definition system_start : system :=
  {| at_eof := false; loader_outbox := None; unpacker_outbox := None;
     recycling := []; unpacker := UWaiting; readers := ∅ |}.

(** [! chu->N] *)
Definition is_eof_chunk (chu : ESL_DSQDATA_CHUNK) : bool := bool_decide (N chu = 0).

(** The atomic steps of the threads. *)
Inductive action :=
  | Read_call (t : nat)          (* enter [esl_dsqdata_Read], test [at_eof] *)
  | Read_take (t : nat)          (* the critical section on the unpacker's outbox *)
  | Read_return (t : nat)        (* the [if (chu->N)] after it *)
  | Recycle_call (chu : ESL_DSQDATA_CHUNK)   (* a consumer's [esl_dsqdata_Recycle] *)
  | Loader_put (chu : ESL_DSQDATA_CHUNK)     (* the loader fills its outbox *)
  | Loader_pop                               (* the loader pops the recycling stack *)
  | Unpacker_take
  | Unpacker_put.

(** What can be seen of a step. *)
Inductive event :=
  | Returned (t : nat) (code : status) (ret_chu : option ESL_DSQDATA_CHUNK)
  | Took (t : nat) (chu : ESL_DSQDATA_CHUNK)
  | Silent.

Definition set_readers (s : system) (rs : gmap nat reader_pc) : system :=
  {| at_eof := at_eof s; loader_outbox := loader_outbox s;
     unpacker_outbox := unpacker_outbox s; recycling := recycling s;
     unpacker := unpacker s; readers := rs |}.

(** [esl_dsqdata_Recycle(dd, chu)] *)
Definition esl_dsqdata_Recycle (s : system) (chu : ESL_DSQDATA_CHUNK) : system :=
  {| at_eof := at_eof s; loader_outbox := loader_outbox s;
     unpacker_outbox := unpacker_outbox s; recycling := chu :: recycling s;
     unpacker := unpacker s; readers := readers s |}.

(** [esl_dsqdata_Read(dd, &chu)] in its three steps. [None] is a step
    that cannot be taken in this state (the thread is elsewhere, or
    blocked on the condition variable). *)
Definition Read_enter (t : nat) (s : system) : option (system * event) :=
  match readers s !! t with
  | Some _ => None
  | None =>
      if at_eof s then Some (s, Returned t eslEOF None)
      else Some (set_readers s (<[t := Waiting]> (readers s)), Silent)
  end.

Definition Read_critical (t : nat) (s : system) : option (system * event) :=
  match readers s !! t, unpacker_outbox s with
  | Some Waiting, Some chu =>
      Some ({| at_eof := if is_eof_chunk chu then true else at_eof s;
               loader_outbox := loader_outbox s;
               unpacker_outbox := None;
               recycling := recycling s;
               unpacker := unpacker s;
               readers := <[t := Holding chu]> (readers s) |}, Took t chu)
  | _, _ => None
  end.

Definition Read_leave (t : nat) (s : system) : option (system * event) :=
  match readers s !! t with
  | Some (Holding chu) =>
      let s' := set_readers s (delete t (readers s)) in
      if is_eof_chunk chu
      then Some (esl_dsqdata_Recycle s' chu, Returned t eslEOF None)
      else Some (s', Returned t eslOK (Some chu))
  | _ => None
  end.

(** The two hand-offs of [dsqdata_unpacker_thread]. A chunk that fails
    to unpack ends the process ([esl_fatal]): no step. *)
Definition unpacker_take (debug : bool) (s : system) : option (system * event) :=
  match unpacker s, loader_outbox s with
  | UWaiting, Some chu =>
      let unpacked := if is_eof_chunk chu then Ok chu else dsqdata_unpack_chunk debug chu in
      match unpacked with
      | Ok chu' =>
          Some ({| at_eof := at_eof s; loader_outbox := None;
                   unpacker_outbox := unpacker_outbox s; recycling := recycling s;
                   unpacker := UHolding chu' (is_eof_chunk chu);
                   readers := readers s |}, Silent)
      | _ => None
      end
  | _, _ => None
  end.

Definition unpacker_put (s : system) : option (system * event) :=
  match unpacker s, unpacker_outbox s with
  | UHolding chu done, None =>
      Some ({| at_eof := at_eof s; loader_outbox := loader_outbox s;
               unpacker_outbox := Some chu; recycling := recycling s;
               unpacker := if done then UExited else UWaiting;
               readers := readers s |}, Silent)
  | _, _ => None
  end.

(** The loader seen from the hand-offs: it fills its outbox when empty
    and pops the recycling stack when not empty. *)
Definition loader_put (chu : ESL_DSQDATA_CHUNK) (s : system) : option (system * event) :=
  match loader_outbox s with
  | None =>
      Some ({| at_eof := at_eof s; loader_outbox := Some chu;
               unpacker_outbox := unpacker_outbox s; recycling := recycling s;
               unpacker := unpacker s; readers := readers s |}, Silent)
  | Some _ => None
  end.

Definition loader_pop (s : system) : option (system * event) :=
  match recycling s with
  | chu :: rest =>
      Some ({| at_eof := at_eof s; loader_outbox := loader_outbox s;
               unpacker_outbox := unpacker_outbox s; recycling := rest;
               unpacker := unpacker s; readers := readers s |}, Silent)
  | [] => None
  end.

Definition step (debug : bool) (a : action) (s : system) : option (system * event) :=
  match a with
  | Read_call t => Read_enter t s
  | Read_take t => Read_critical t s
  | Read_return t => Read_leave t s
  | Recycle_call chu => Some (esl_dsqdata_Recycle s chu, Silent)
  | Loader_put chu => loader_put chu s
  | Loader_pop => loader_pop s
  | Unpacker_take => unpacker_take debug s
  | Unpacker_put => unpacker_put s
  end.

(** A run: the actions taken in order, with what was seen of each. *)
Fixpoint run (debug : bool) (acts : list action) (s : system) : option (system * list event) :=
  match acts with
  | [] => Some (s, [])
  | a :: acts' =>
      match step debug a s with
      | None => None
      | Some (s', e) =>
          match run debug acts' s' with
          | None => None
          | Some (s'', es) => Some (s'', e :: es)
          end
      end
  end.

(** The takes of an end-of-data chunk among the events. *)
Definition takes_eof (e : event) : bool :=
  match e with
  | Took _ chu => is_eof_chunk chu
  | _ => false
  end.

Definition eof_takes (es : list event) : nat := length (List.filter takes_eof es).

Definition is_take (e : event) : bool :=
  match e with
  | Took _ _ => true
  | _ => false
  end.

(** ** What the specification says of packets *)

(** The payload of a packet: the codes [xs], [w] bits each, the first
    in the highest bits. *)
Definition payload (w : Z) (xs : list Z) : Z := foldl (fun a x => a * 2 ^ w + x) 0 xs.

(** Bit 31 is the end-of-data bit, bit 30 the packing mode. *)
Definition packet_of (eod five : bool) (pay : Z) : Z :=
  Z.b2z eod * 2 ^ 31 + Z.b2z five * 2 ^ 30 + pay.

(** Up to six codes, the unused slots filled with 31. *)
Definition pad6 (xs : list Z) : list Z := take 6 (xs ++ replicate 6 31).

Definition packet5_of (eod : bool) (xs : list Z) : Z := packet_of eod true (payload 5 (pad6 xs)).
Definition packet2_of (eod : bool) (xs : list Z) : Z := packet_of eod false (payload 2 xs).

Definition slot2 (v : Z) (j : nat) : Z := Z.land (v ≫ (28 - 2 * Z.of_nat j)) 3.

(** The packets of a protein sequence [s]: six residues to a packet,
    the last one marked. *)
Fixpoint pack5_rule (fuel : nat) (s : list Z) : list Z :=
  match fuel, s with
  | _, [] => []
  | O, _ => []
  | S fuel', _ =>
      packet5_of (bool_decide (length s <= 6)%nat) (take 6 s) :: pack5_rule fuel' (drop 6 s)
  end.

(** The packets of a nucleotide sequence [s], by the rule of the
    specification: a full 2-bit packet of the next 15 residues when at
    least 15 are left and none of them has a code above 3, else a 5-bit
    packet of up to 6; bit 31 on the packet that takes the last residue. *)
Fixpoint pack2_rule (fuel : nat) (s : list Z) : list Z :=
  match fuel, s with
  | _, [] => []
  | O, _ => []
  | S fuel', _ =>
      if bool_decide ((15 <= length s)%nat ∧ Forall (fun x => x <= 3) (take 15 s))
      then packet2_of (bool_decide (length s <= 15)%nat) (take 15 s) :: pack2_rule fuel' (drop 15 s)
      else packet5_of (bool_decide (length s <= 6)%nat) (take 6 s) :: pack2_rule fuel' (drop 6 s)
  end.

(** ** What the specification says of the unpacked arena *)

(** The codes before the first 31. *)
Fixpoint until31 (xs : list Z) : list Z :=
  match xs with
  | [] => []
  | x :: xs' => if decide (x = 31) then [] else x :: until31 xs'
  end.

(** The residues a packet holds, and whether it ends its sequence. *)
Definition decode_packet (v : Z) : list Z * bool :=
  match v ≫ 30 with
  | 0 => ((fun b => Z.land (v ≫ b) 3) <$> shifts2, false)
  | 1 => ((fun b => Z.land (v ≫ b) 31) <$> shifts5, false)
  | 2 => ((fun b => Z.land (v ≫ b) 3) <$> shifts2, true)
  | 3 => (until31 ((fun b => Z.land (v ≫ b) 31) <$> shifts5), true)
  | _ => ([], false)
  end.

(** The sequences of a packet stream; [cur] is what has been read of
    the sequence under way. A last sequence without its end-of-data
    packet is not one. *)
Fixpoint sequences (cur : list Z) (ps : list Z) : list (list Z) :=
  match ps with
  | [] => []
  | v :: ps' =>
      let '(xs, eod) := decode_packet v in
      if eod then (cur ++ xs) :: sequences [] ps' else sequences (cur ++ xs) ps'
  end.

(** The number of end-of-data packets. *)
Definition eod_count (ps : list Z) : nat :=
  length (List.filter (fun v => Z.testbit v 31) ps).

(** Where sequence [i] starts in the arena: at its leading sentinel. *)
Definition offset_of (seqs : list (list Z)) (i : nat) : nat :=
  sum_list_with (fun x => S (length x)) (take i seqs).

(** The unpacker without the arena trick: the packets come from a list
    of their own. *)
Fixpoint unpack_packets (n : Z) (ps : list Z) (s : decoder) : res decoder :=
  match ps with
  | [] => Ok s
  | v :: ps' => s' ← unpack_packet n v s; unpack_packets n ps' s'
  end.

(** ** The arena of a chunk *)

(** The chunk [chu] of the reader [dd] holds the packets [ps], read
    from the sequence file into the last [4 * chunk_maxpacket] bytes of
    its arena. *)
Record chunk_holds (dd : ESL_DSQDATA) (chu : ESL_DSQDATA_CHUNK) (ps : list Z) : Prop := {
  holds_smem : length (smem chu) = smem_size dd;
  holds_psq : psq chu = (smem_size dd - 4 * chunk_maxpacket dd)%nat;
  holds_dsq : length (dsq chu) = chunk_maxseq dd;
  holds_L : length (L chu) = chunk_maxseq dd;
  holds_pn : pn chu = Z.of_nat (length ps);
  holds_words : words (smem chu) (psq chu) (length ps) = ps;
  holds_u32 : Forall (fun v => 0 <= v < 2 ^ 32) ps;
}.

(** The arena trick works for [chu]: when the turn of a packet comes,
    the cursor has not passed the place of the packet, which is still
    what was read from the file; and the loop ends with the cursor
    inside the [U] bytes of the arena. *)
Definition unpacks_in_place (chu : ESL_DSQDATA_CHUNK) (ps : list Z) (U : nat) : Prop :=
  ∃ s0, decoder_start chu = Ok s0
    ∧ (∀ j sj, (j < length ps)%nat ->
         unpack_loop j 0 (psq chu) (N chu) s0 = Ok sj ->
         (d_r sj <= psq chu + 4 * j)%nat
         ∧ load_u32 (d_smem sj) (psq chu + 4 * j) = ps !!! j)
    ∧ ∃ s, unpack_loop (length ps) 0 (psq chu) (N chu) s0 = Ok s ∧ (d_r s <= U)%nat.

(** ** Small readers, sequences and chunks, for the examples *)

Definition dd_amino : ESL_DSQDATA :=
  {| chunk_maxseq := 2; chunk_maxpacket := 2; pack5 := true; nconsumers := 1 |}.

Definition dd_amino_1 : ESL_DSQDATA :=
  {| chunk_maxseq := 1; chunk_maxpacket := 1; pack5 := true; nconsumers := 1 |}.

Definition dd_one_seq : ESL_DSQDATA :=
  {| chunk_maxseq := 1; chunk_maxpacket := 2; pack5 := true; nconsumers := 1 |}.

(** A chunk as the loader first gets it; the allocations hold nines. *)
Definition fresh_chunk (dd : ESL_DSQDATA) : ESL_DSQDATA_CHUNK :=
  dsqdata_chunk_Create dd (fun _ => 9).

(** A sequence with the name [nm], no accession and no description;
    its buffer has the two sentinels and some room after them. *)
Definition sq_of (nm : list Z) (tax : Z) (s : list Z) : ESL_SQ :=
  {| sq_name := nm; sq_acc := []; sq_desc := []; tax_id := tax;
     sq_dsq := 255 :: s ++ 255 :: replicate 8 0; sq_n := length s |}.

(** The first chunk the loader makes of a database. *)
Definition first_chunk (debug : bool) (dd : ESL_DSQDATA) (db : database) : res ESL_DSQDATA_CHUNK :=
  '(_, chu) ← loader_turn debug dd (loader_start db) (fresh_chunk dd); Ok chu.

(** A chunk of [dd] with [n] sequences and the packets [ps], and one
    record of metadata for each sequence: the name "A", an empty
    accession and description, the taxonomy id 7. *)
Definition chunk_with (dd : ESL_DSQDATA) (n : nat) (ps : list Z) : ESL_DSQDATA_CHUNK :=
  let chu := fresh_chunk dd in
  {| i0 := 0; N := Z.of_nat n; pn := Z.of_nat (length ps);
     dsq := dsq chu; name := name chu; acc := acc chu; desc := desc chu;
     taxid := taxid chu; L := L chu;
     metadata := list_inserts 0 (concat (replicate n [65; 0; 0; 0; 7; 0; 0; 0])) (metadata chu);
     mdalloc := mdalloc chu;
     smem := store_words (smem chu) (psq chu) ps; psq := psq chu |}.

(** An end-of-data chunk. *)
Definition eof_chunk : ESL_DSQDATA_CHUNK :=
  {| i0 := 0; N := 0; pn := 0; dsq := []; name := []; acc := []; desc := []; taxid := [];
     L := []; metadata := []; mdalloc := 0; smem := []; psq := 0 |}.

(** A database whose metadata file ends inside the record of its one
    sequence: the name "A", the accession "B", and nothing after. *)
Definition db_truncated : database :=
  {| sfp := [3254779903]; mfp := [65; 0; 66; 0];
     ifp := [{| psq_end := 0; metadata_end := 3 |}]; spos := 1; mpos := 4 |}.

(** The first chunk of [db_truncated], in a chunk whose allocations
    hold the byte [b]. *)
Definition chunk_truncated (b : Z) : res ESL_DSQDATA_CHUNK :=
  '(_, chu) ← loader_turn false dd_amino (loader_start db_truncated)
                (dsqdata_chunk_Create dd_amino (fun _ => b));
  Ok chu.

(** A reader of chunks of three sequences and three packets. *)
Definition dd_three : ESL_DSQDATA :=
  {| chunk_maxseq := 3; chunk_maxpacket := 3; pack5 := true; nconsumers := 1 |}.

(** Five proteins of 1, 7, 1, 7 and 1 residues, which make 1, 2, 1, 2
    and 1 packets. *)
Definition five_proteins : list ESL_SQ :=
  [ sq_of [65] 1 [0]; sq_of [66] 2 [1; 2; 3; 4; 5; 6; 7]; sq_of [67] 3 [8];
    sq_of [68] 4 [9; 10; 11; 12; 13; 14; 15]; sq_of [69] 5 [16] ].

(** A loader in the middle of a file: the loader of [dd_three] after
    its first turn on the database written from [five_proteins]. Two
    of the three staged records went into the first chunk, one is
    carried over, and two more are left in the index file. *)
Definition loader_midway : loader :=
  match db ← esl_dsqdata_Write eslAMINO five_proteins;
        loader_turn false dd_three (loader_start db) (fresh_chunk dd_three) with
  | Ok (ld, _) => ld
  | _ => loader_start empty_database
  end.

(** A run to the end of the data with one consumer: the loader hands
    over the end-of-data chunk, the unpacker forwards it, the consumer
    reads it, and reads once more. *)
Definition run_to_eof : list action :=
  [Loader_put eof_chunk; Unpacker_take; Unpacker_put;
   Read_call 0; Read_take 0; Read_return 0; Read_call 0].

(** The same run up to the critical section of the consumer: thread 0
    holds the chunk without a sequence. *)
Definition run_to_latch : list action :=
  [Loader_put eof_chunk; Unpacker_take; Unpacker_put; Read_call 0; Read_take 0].

(** A run with two consumers: thread 1 takes the one chunk with a
    sequence and is slow to leave [Read]; meanwhile thread 0 takes the
    chunk without a sequence and returns. *)
Definition run_late_return : list action :=
  [Loader_put (chunk_with dd_amino 1 [3222343679]); Unpacker_take; Unpacker_put;
   Read_call 1; Read_take 1;
   Loader_put eof_chunk; Unpacker_take; Unpacker_put;
   Read_call 0; Read_take 0; Read_return 0;
   Read_return 1].

(** * More of the source *)

(** ** Section 4 of the source: the main loop of the loader *)

(** [while (! done) { ... }] of [dsqdata_loader_thread], without the
    hand-offs: [supply k] is the chunk the loader gets for its turn
    [k] (created, or popped from the recycling stack), and the result
    is the chunks it puts into its outbox, in order. Every turn but the
    last takes at least one sequence, so the loop is bounded by the
    number of sequences. *)
Fixpoint loader_loop (fuel : nat) (debug : bool) (dd : ESL_DSQDATA) (ld : loader)
    (supply : nat -> ESL_DSQDATA_CHUNK) (k : nat) : res (list ESL_DSQDATA_CHUNK) :=
  if ld_done ld then Ok []
  else match fuel with
       | O => OutOfFuel
       | S fuel' =>
           '(ld', chu) ← loader_turn debug dd ld (supply k);
           rest ← loader_loop fuel' debug dd ld' supply (S k);
           Ok (chu :: rest)
       end.

(** * What the proofs speak of *)

(** [lia] with division and remainder by constants. *)
Ltac dlia := zify; Z.div_mod_to_equations; lia.

(** The shifts of [k] fields of [w] bits, the highest first. *)
Definition shifts (w : Z) (k : nat) : list Z := (fun i => w * Z.of_nat i) <$> reverse (seq 0 k).

(** The packing loops on the residues themselves. *)
Fixpoint lor_all (bs : list Z) (xs : list Z) (v : Z) : Z :=
  match bs, xs with
  | b :: bs', x :: xs' => lor_all bs' xs' (Z.lor v (u32 (x ≪ b)))
  | _, _ => v
  end.

(** The residues at positions [r..n] of a buffer. *)
Definition residues (mem : list Z) (n r : nat) : list Z := take (S n - r) (drop r mem).

Fixpoint fill5_list (bs : list Z) (xs : list Z) (v : Z) : Z :=
  match bs with
  | [] => v
  | b :: bs' =>
      match xs with
      | x :: xs' => fill5_list bs' xs' (Z.lor v (u32 (x ≪ b)))
      | [] => pad5 bs v
      end
  end.

(** What the loop knows of [d]: it is behind [r], or it is the next
    residue above 3 from [r] on ([n+1] when there is none). *)
Definition detector (mem0 : list Z) (n d r : nat) : Prop :=
  (d < r)%nat
  ∨ ((d <= S n)%nat ∧ (∀ k, (r <= k < d)%nat -> mem0 !!! k <= 3) ∧ ((d <= n)%nat -> 3 < mem0 !!! d)).

(** [s'] is [s] after the bytes [xs] went to the arena at the cursor. *)
Record wrote (s : decoder) (xs : list Z) (s' : decoder) : Prop := {
  wrote_r : d_r s' = (d_r s + length xs)%nat;
  wrote_take : take (d_r s') (d_smem s') = take (d_r s) (d_smem s) ++ xs;
  wrote_drop : drop (d_r s') (d_smem s') = drop (d_r s') (d_smem s);
  wrote_length : length (d_smem s') = length (d_smem s);
}.

(** The other fields stay. *)
Definition same_arrays (s s' : decoder) : Prop :=
  d_dsq s' = d_dsq s ∧ d_L s' = d_L s ∧ d_i s' = d_i s.

(** The bytes a packet sends to the arena: its residues, and the
    sentinel when it ends a sequence. *)
Definition packet_bytes (v : Z) : list Z :=
  (decode_packet v).1 ++ (if (decode_packet v).2 then [eslDSQ_SENTINEL] else []).

(** All the bytes the packets send to the arena. *)
Definition stream_bytes (ps : list Z) : list Z := concat (packet_bytes <$> ps).

(** The packets that end a sequence, as the unpacker sees them. *)
Definition ends (ps : list Z) : nat :=
  length (List.filter (fun v => (decode_packet v).2) ps).

(** The residues a packet of the chunks of [dd] can hold at most. *)
Definition residues_per_packet (dd : ESL_DSQDATA) : nat := if pack5 dd then 6%nat else 15%nat.

(** The sequence under way when the packets run out. *)
Fixpoint pending (cur : list Z) (ps : list Z) : list Z :=
  match ps with
  | [] => cur
  | v :: ps' =>
      if (decode_packet v).2 then pending [] ps' else pending (cur ++ (decode_packet v).1) ps'
  end.

(** The arena up to the cursor: each finished sequence after its
    leading sentinel, then the sentinel and the residues of the
    sequence under way. *)
Definition arena_image (done : list (list Z)) (cur : list Z) : list Z :=
  concat ((fun x => eslDSQ_SENTINEL :: x) <$> done) ++ eslDSQ_SENTINEL :: cur.

Record layout (n : Z) (s : decoder) (done : list (list Z)) (cur : list Z) : Prop := {
  layout_i : d_i s = length done;
  layout_r : d_r s = length (arena_image done cur);
  layout_smem : take (d_r s) (d_smem s) = arena_image done cur;
  layout_L : ∀ i x, done !! i = Some x -> Z.of_nat i < n ->
             d_L s !! i = Some (Z.of_nat (length x));
  layout_dsq : ∀ i, (i <= length done)%nat -> Z.of_nat i < n ->
               d_dsq s !! i = Some (Z.of_nat (offset_of done i));
}.

(** The [psq_end] fields of the staged records do not decrease. *)
Definition nondecreasing (idx : list ESL_DSQDATA_RECORD) : Prop :=
  ∀ i j, (i <= j < length idx)%nat -> psq_end (idx !!! i) <= psq_end (idx !!! j).

(** The staging buffer after the refill of a turn of the loader. *)
Definition refilled (dd : ESL_DSQDATA) (ld : loader) : list ESL_DSQDATA_RECORD :=
  drop (ld_nload ld) (ld_idx ld)
  ++ take (chunk_maxseq dd - (length (ld_idx ld) - ld_nload ld)) (ld_ifp ld).

(** Where the end-of-data chunk is: not yet in the unpacker's outbox
    (and the unpacker still at work); in the outbox (and the unpacker
    gone); or taken by a reader (and the flag set). [k] is the number
    of its takes so far. *)
Definition eof_phase (s : system) (k : nat) : Prop :=
  (at_eof s = false ∧ k = 0%nat ∧ unpacker s ≠ UExited
   ∧ (∀ c, unpacker_outbox s = Some c -> is_eof_chunk c = false)
   ∧ (∀ c d, unpacker s = UHolding c d -> is_eof_chunk c = d))
  ∨ (at_eof s = false ∧ k = 0%nat ∧ unpacker s = UExited
     ∧ ∃ c, unpacker_outbox s = Some c ∧ is_eof_chunk c = true)
  ∨ (at_eof s = true ∧ k = 1%nat ∧ unpacker s = UExited ∧ unpacker_outbox s = None).

Definition count_eof (e : event) : nat := if takes_eof e then 1%nat else 0%nat.

(** A step that leaves the flag, the unpacker and its outbox alone. *)
Ltac phase_same Hph :=
  rewrite ?Nat.add_0_r;
  split_and!;
  [ first [ exact Hph
          | let H := fresh in
            destruct Hph as [H|[H|H]]; [left|right;left|right;right]; simpl; exact H ]
  | intros; try split; done
  | intros; try split; done ].

(** The event is not the return of a chunk without a sequence: a
    return that carries a chunk has the code [eslOK] and a chunk with
    [N > 0]. *)
Definition returns_data (e : event) : Prop :=
  ∀ t code chu, e = Returned t code (Some chu) -> code = eslOK ∧ is_eof_chunk chu = false.

(** If the event is the return of a chunk, the thread held that chunk
    in the state [s]. *)
Definition returns_held (s : system) (e : event) : Prop :=
  ∀ t code chu, e = Returned t code (Some chu) -> readers s !! t = Some (Holding chu).

(** A thread holds a chunk without a sequence only with the flag set. *)
Definition holding_eof (s : system) : Prop :=
  ∀ t chu, readers s !! t = Some (Holding chu) -> is_eof_chunk chu = true -> at_eof s = true.

(** The call [m] throws no error code. *)
Definition never_throws {A} (m : res A) : Prop := ∀ c, m ≠ Throw c.

(** The residues of a sequence object: positions [1..n] of its buffer. *)
Definition sq_residues (sq : ESL_SQ) : list Z := take (sq_n sq) (drop 1 (sq_dsq sq)).

(** A sequence object that can be packed in place: the buffer has the
    residues and the sentinel before them, the codes are residue codes,
    and the packets fit in the buffer. *)
Definition sq_packable (sq : ESL_SQ) : Prop :=
  (sq_n sq < length (sq_dsq sq))%nat
  ∧ Forall (fun x => 0 <= x <= 30) (sq_residues sq)
  ∧ (4 * ((sq_n sq + 5) / 6) <= length (sq_dsq sq))%nat.

(** The packets of the residues [s], by the rule of the alphabet. *)
Definition packets_of (do_pack5 : bool) (s : list Z) : list Z :=
  if do_pack5 then pack5_rule (length s) s else pack2_rule (length s) s.

Definition sq_packets (do_pack5 : bool) (sq : ESL_SQ) : list Z :=
  packets_of do_pack5 (sq_residues sq).

(** [alphatype == eslAMINO] *)
Definition is_amino (abc : alphatype) : bool :=
  match abc with eslAMINO => true | _ => false end.

(** The position of the last item of part [i] when the parts are laid
    end to end. *)
Definition end_of {A} (parts : list (list A)) (i : nat) : Z :=
  Z.of_nat (length (concat (take (S i) parts))) - 1.

(** The characters of the C string at the head of [bytes]. *)
Fixpoint until0 (bytes : list Z) : list Z :=
  match bytes with
  | [] => []
  | b :: rest => if decide (b = 0) then [] else b :: until0 rest
  end.

(** The C string at offset [p] of a buffer. *)
Definition string_at (buf : list Z) (p : Z) : list Z := until0 (drop (Z.to_nat p) buf).

(** The metadata of a sequence object as C has them: three strings
    without a zero byte inside, and a taxonomy id that is an
    [int32_t]. *)
Definition md_ok (sq : ESL_SQ) : Prop :=
  Forall (fun b => b ≠ 0) (sq_name sq)
  ∧ Forall (fun b => b ≠ 0) (sq_acc sq)
  ∧ Forall (fun b => b ≠ 0) (sq_desc sq)
  ∧ - 2 ^ 31 <= tax_id sq < 2 ^ 31.

(** Where record [j] starts when the records are laid end to end. *)
Definition start_of {A} (parts : list (list A)) (j : nat) : nat := length (concat (take j parts)).

(** A chunk with the allocations [dsqdata_chunk_Create] gives it (the
    metadata buffer may have grown since). *)
Record well_sized (dd : ESL_DSQDATA) (chu : ESL_DSQDATA_CHUNK) : Prop := {
  sized_smem : length (smem chu) = smem_size dd;
  sized_psq : psq chu = (smem_size dd - 4 * chunk_maxpacket dd)%nat;
  sized_dsq : length (dsq chu) = chunk_maxseq dd;
  sized_L : length (L chu) = chunk_maxseq dd;
  sized_name : length (name chu) = chunk_maxseq dd;
  sized_acc : length (acc chu) = chunk_maxseq dd;
  sized_desc : length (desc chu) = chunk_maxseq dd;
  sized_taxid : length (taxid chu) = chunk_maxseq dd;
  sized_metadata : length (metadata chu) = mdalloc chu;
}.

(** A sequence object that the format can carry: it can be packed, it
    is not empty, and its metadata are C strings and an [int32_t]. *)
Definition sq_ok (sq : ESL_SQ) : Prop := sq_packable sq ∧ sq_n sq ≠ 0%nat ∧ md_ok sq.

(** Sequence [i] of the unpacked chunk [chu], as a consumer reads it,
    is [sq]: [chu->dsq[i][1..L[i]]] are its residues between two
    sentinels, [chu->name[i]], [chu->acc[i]] and [chu->desc[i]] are its
    three strings, and [chu->taxid[i]] is its taxonomy id. *)
Definition delivers (chu : ESL_DSQDATA_CHUNK) (i : nat) (sq : ESL_SQ) : Prop :=
  ∃ (o : nat) (p a d : Z),
    dsq chu !! i = Some (Z.of_nat o)
    ∧ smem chu !! o = Some eslDSQ_SENTINEL
    ∧ take (sq_n sq) (drop (S o) (smem chu)) = sq_residues sq
    ∧ smem chu !! (o + sq_n sq + 1)%nat = Some eslDSQ_SENTINEL
    ∧ L chu !! i = Some (Z.of_nat (sq_n sq))
    ∧ name chu !! i = Some p ∧ string_at (metadata chu) p = sq_name sq
    ∧ acc chu !! i = Some a ∧ string_at (metadata chu) a = sq_acc sq
    ∧ desc chu !! i = Some d ∧ string_at (metadata chu) d = sq_desc sq
    ∧ taxid chu !! i = Some (tax_id sq).

(** The index of a database whose sequences have the packets [P] and
    the metadata records [R]. *)
Definition index_of (P R : list (list Z)) : list ESL_DSQDATA_RECORD :=
  (fun i => {| psq_end := end_of P i; metadata_end := end_of R i |}) <$> seq 0 (length P).

(** The loader [ld] has loaded the first [c] sequences of the database
    [P], [R] and is about to start a turn. *)
Record loader_at (dd : ESL_DSQDATA) (P R : list (list Z)) (ld : loader) (c : nat) : Prop := {
  at_c : (c <= length P)%nat;
  at_idx : drop (ld_nload ld) (ld_idx ld) ++ ld_ifp ld = drop c (index_of P R);
  at_nload : (ld_nload ld <= length (ld_idx ld))%nat;
  at_staged : (length (ld_idx ld) <= chunk_maxseq dd)%nat;
  at_psq_last : ld_psq_last ld = Z.of_nat (start_of P c) - 1;
  at_meta_last : ld_meta_last ld = Z.of_nat (start_of R c) - 1;
  at_sfp : ld_sfp ld = drop (start_of P c) (concat P);
  at_mfp : ld_mfp ld = drop (start_of R c) (concat R);
  at_i0 : ld_i0 ld + Z.of_nat (ld_nload ld) = Z.of_nat c;
  at_done : ld_done ld = false;
}.

(** Sequences [c .. c+k-1]. *)
Definition slice {A} (c k : nat) (l : list A) : list A := take k (drop c l).

(** The chunks the loader emits from sequence [c] on: chunks of one
    sequence or more, each holding the packets and the metadata of the
    sequences that follow those of the chunk before, and the chunk
    without a sequence at the very end. *)
Inductive emitted (dd : ESL_DSQDATA) (P R : list (list Z)) : nat -> list ESL_DSQDATA_CHUNK -> Prop :=
  | emitted_eof chu :
      N chu = 0 -> pn chu = 0 -> i0 chu = Z.of_nat (length P) ->
      emitted dd P R (length P) [chu]
  | emitted_chunk c nload chu rest chunks :
      (1 <= nload <= chunk_maxseq dd)%nat -> (c + nload <= length P)%nat ->
      i0 chu = Z.of_nat c -> N chu = Z.of_nat nload ->
      chunk_holds dd chu (concat (slice c nload P)) ->
      (length (concat (slice c nload P)) <= chunk_maxpacket dd)%nat ->
      metadata chu = concat (slice c nload R) ++ rest ->
      (length (concat (slice c nload R)) <= mdalloc chu)%nat ->
      well_sized dd chu ->
      (nload = chunk_maxseq dd ∨ (c + nload)%nat = length P
       ∨ (chunk_maxpacket dd < length (concat (slice c (S nload) P)))%nat) ->
      emitted dd P R (c + nload) chunks ->
      emitted dd P R c (chu :: chunks).

(** The sequences of some chunks, counted. *)
Definition loaded (chunks : list ESL_DSQDATA_CHUNK) : Z := foldr (fun chu a => N chu + a) 0 chunks.

(** A residue code, or the sentinel. *)
Definition code_or_sentinel (b : Z) : Prop := 0 <= b <= 31 ∨ b = eslDSQ_SENTINEL.

(** The chunks the loader has put into its outbox, in order. *)
Definition puts_of (acts : list action) : list ESL_DSQDATA_CHUNK :=
  flat_map (fun a => match a with Loader_put chu => [chu] | _ => [] end) acts.

(** The chunks the consumers have taken from the unpacker's outbox, in
    order. *)
Definition takes_of (es : list event) : list ESL_DSQDATA_CHUNK :=
  flat_map (fun e => match e with Took _ chu => [chu] | _ => [] end) es.

(** [chu'] is [chu] after the unpacker: unpacked, or passed on as it
    is when it is the chunk without a sequence. *)
Definition unpacked (debug : bool) (chu chu' : ESL_DSQDATA_CHUNK) : Prop :=
  if is_eof_chunk chu then chu' = chu else dsqdata_unpack_chunk debug chu = Ok chu'.

(** The chunks between the loader and the consumers: in the
    unpacker's outbox, then in the unpacker's hands. *)
Definition with_unpacker (s : system) : list ESL_DSQDATA_CHUNK :=
  option_list (unpacker_outbox s)
  ++ match unpacker s with UHolding chu _ => [chu] | _ => [] end.

(** What has been put is what has been taken, then what the unpacker
    has, then what the loader's outbox has, in this order. *)
Definition in_order (debug : bool) (s : system) (puts takes : list ESL_DSQDATA_CHUNK) : Prop :=
  ∃ raw, puts = raw ++ option_list (loader_outbox s)
         ∧ Forall2 (unpacked debug) raw (takes ++ with_unpacker s).

(** The strings of a record, each with its terminator, that a
    truncated metadata block still has. *)
Definition terminated (strings : list (list Z)) : list Z :=
  concat ((fun s => s ++ [0]) <$> strings).

(** The event is not a return of thread [t]. *)
Definition not_return_of (t : nat) (e : event) : Prop :=
  match e with Returned t' _ _ => t' ≠ t | _ => True end.

(** Two protein sequences: "E" of two residues and "F" of one. *)
Definition two_proteins : list ESL_SQ := [sq_of [69] 0 [1; 2]; sq_of [70] 1 [4]].

(** A loader that gets a new chunk for every turn. *)
Definition fresh_supply (dd : ESL_DSQDATA) : nat -> ESL_DSQDATA_CHUNK := fun _ => fresh_chunk dd.

(** A walker over arrays of two cells. *)
Definition walker_two : walker :=
  {| m_name := [9; 9]; m_acc := [9; 9]; m_desc := [9; 9]; m_taxid := [9; 9]; m_ptr := 0 |}.

(** A chunk of one sequence whose metadata allocation ends after the
    name "A" and the accession "B". *)
Definition chunk_two_strings : ESL_DSQDATA_CHUNK :=
  {| i0 := 0; N := 1; pn := 0; dsq := [9]; name := [9]; acc := [9]; desc := [9]; taxid := [9];
     L := [9]; metadata := [65; 0; 66; 0]; mdalloc := 4; smem := [9; 9]; psq := 2 |}.

(** Two consumers near the end of the data: both enter [Read], then
    the unpacker hands over the chunk without a sequence and consumer
    0 takes it. *)
Definition run_two_readers : list action :=
  [Loader_put eof_chunk; Unpacker_take; Read_call 0; Read_call 1; Unpacker_put; Read_take 0].


(** * Proofs *)

(** ** Bytes and words *)

Lemma length_store_u32 mem a v : length (store_u32 mem a v) = length mem.
Proof. unfold store_u32. apply length_inserts. Qed.

Lemma le4_length v : length (Z_to_little_endian 4 8 v) = 4%nat.
Proof. pose proof (length_Z_to_little_endian 4 8 v ltac:(lia)). lia. Qed.

Lemma store_u32_lookup_other mem a v j :
  (j < a ∨ a + 4 <= j)%nat -> store_u32 mem a v !!! j = mem !!! j.
Proof.
  intros Hj. unfold store_u32. destruct Hj.
  - apply list_lookup_total_inserts_lt. lia.
  - apply list_lookup_total_inserts_ge. rewrite le4_length. lia.
Qed.

Lemma load_store_u32 mem a v :
  (a + 4 <= length mem)%nat -> 0 <= v < 2 ^ 32 -> load_u32 (store_u32 mem a v) a = v.
Proof.
  intros Ha Hv. unfold load_u32, store_u32.
  pose proof (le4_length v) as Hlen.
  rewrite !list_lookup_total_inserts by (rewrite ?Hlen; lia).
  replace (a - a)%nat with 0%nat by lia. replace (a + 1 - a)%nat with 1%nat by lia.
  replace (a + 2 - a)%nat with 2%nat by lia. replace (a + 3 - a)%nat with 3%nat by lia.
  destruct (Z_to_little_endian 4 8 v) as [|b0 [|b1 [|b2 [|b3 [|]]]]] eqn:E; try discriminate.
  simpl. change (little_endian_to_Z 8 [b0; b1; b2; b3] = v).
  rewrite <- E, little_endian_to_Z_to_little_endian by lia.
  apply Z.mod_small. simpl. lia.
Qed.

Lemma load_store_u32_other mem a v b :
  (b + 4 <= a ∨ a + 4 <= b)%nat -> load_u32 (store_u32 mem a v) b = load_u32 mem b.
Proof.
  intros Hb. unfold load_u32. rewrite !store_u32_lookup_other by lia. reflexivity.
Qed.

Lemma load_insert_other (mem : list Z) r x b :
  (r < b ∨ b + 4 <= r)%nat -> load_u32 (<[r := x]> mem) b = load_u32 mem b.
Proof.
  intros Hb. unfold load_u32. rewrite !list_lookup_total_insert_ne by lia. reflexivity.
Qed.

Lemma drop_store_u32 mem a v r : (a + 4 <= r)%nat -> drop r (store_u32 mem a v) = drop r mem.
Proof.
  intros Hr. apply list_eq. intros j. rewrite !lookup_drop. unfold store_u32.
  apply list_lookup_inserts_ge. rewrite le4_length. lia.
Qed.

Lemma words_S mem a plen : words mem a (S plen) = words mem a plen ++ [load_u32 mem (a + 4 * plen)].
Proof. unfold words. rewrite seq_S, fmap_app. reflexivity. Qed.

Lemma length_words mem a plen : length (words mem a plen) = plen.
Proof. unfold words. rewrite length_fmap. apply length_seq. Qed.

Lemma words_ext mem mem' a plen :
  (∀ j, (a <= j < a + 4 * plen)%nat -> mem' !!! j = mem !!! j) ->
  words mem' a plen = words mem a plen.
Proof.
  intros H. unfold words. apply list_fmap_ext. intros i pos Hpos.
  apply lookup_seq in Hpos as [-> Hlt]. unfold load_u32.
  rewrite !H by lia. reflexivity.
Qed.

Lemma words_store_above mem a plen b v :
  (a + 4 * plen <= b)%nat -> words (store_u32 mem b v) a plen = words mem a plen.
Proof.
  intros Hb. apply words_ext. intros j Hj. apply store_u32_lookup_other. lia.
Qed.

Lemma lookup_words mem a plen j :
  (j < plen)%nat -> words mem a plen !! j = Some (load_u32 mem (a + 4 * j)).
Proof.
  intros Hj. unfold words. rewrite list_lookup_fmap, lookup_seq_lt by lia. reflexivity.
Qed.

Lemma length_store_words mem a ws : length (store_words mem a ws) = length mem.
Proof.
  revert mem a. induction ws as [|w ws IH]; intros mem a; simpl; [reflexivity|].
  rewrite IH. apply length_store_u32.
Qed.

Lemma store_words_lookup_other mem a ws j :
  (j < a ∨ a + 4 * length ws <= j)%nat -> store_words mem a ws !!! j = mem !!! j.
Proof.
  revert mem a. induction ws as [|w ws IH]; intros mem a Hj; simpl; [reflexivity|].
  rewrite IH by (simpl in Hj; lia). apply store_u32_lookup_other. simpl in Hj. lia.
Qed.

Lemma words_store_words mem a ws :
  (a + 4 * length ws <= length mem)%nat -> Forall (fun w => 0 <= w < 2 ^ 32) ws ->
  words (store_words mem a ws) a (length ws) = ws.
Proof.
  revert mem a. induction ws as [|w ws IH]; intros mem a Hlen HF; [reflexivity|].
  apply Forall_cons in HF as [Hw HF]. simpl in Hlen. simpl.
  unfold words. simpl seq. rewrite fmap_cons. f_equal.
  - replace (a + 4 * 0)%nat with a by lia. unfold load_u32.
    rewrite !store_words_lookup_other by lia.
    apply load_store_u32; lia.
  - rewrite <- (IH (store_u32 mem a w) (a + 4)%nat) at 2 by (rewrite ?length_store_u32; lia || done).
    unfold words. rewrite <- (fmap_S_seq 0), <- list_fmap_compose.
    apply list_fmap_ext. intros i pos Hpos. simpl. f_equal. lia.
Qed.

(** ** Fields of a word *)

Lemma lor_add_low (h l k : Z) : 0 <= k -> 0 <= l < 2 ^ k -> Z.lor (h * 2 ^ k) l = h * 2 ^ k + l.
Proof.
  intros Hk Hl. symmetry. apply Z.add_nocarry_lor.
  apply Z.bits_inj'. intros i Hi. rewrite Z.land_spec, Z.bits_0.
  destruct (decide (i < k)).
  - rewrite Z.mul_pow2_bits_low by lia. reflexivity.
  - replace l with (l `mod` 2 ^ k) by (apply Z.mod_small; lia).
    rewrite Z.mod_pow2_bits_high by lia. apply andb_false_r.
Qed.

Lemma payload_nil w : payload w [] = 0.
Proof. reflexivity. Qed.

Lemma payload_snoc w xs x : payload w (xs ++ [x]) = payload w xs * 2 ^ w + x.
Proof. unfold payload. rewrite foldl_app. reflexivity. Qed.

Lemma payload_app w xs ys : 0 <= w ->
  payload w (xs ++ ys) = payload w xs * 2 ^ (w * Z.of_nat (length ys)) + payload w ys.
Proof.
  intros Hw. induction ys as [|y ys IH] using rev_ind.
  - rewrite app_nil_r, payload_nil. simpl length. rewrite Z.mul_0_r, Z.pow_0_r. lia.
  - rewrite app_assoc, !payload_snoc, IH, length_app. simpl.
    replace (w * Z.of_nat (length ys + 1)) with (w * Z.of_nat (length ys) + w) by lia.
    rewrite Z.pow_add_r by lia. ring.
Qed.

Lemma payload_cons w x xs : 0 <= w ->
  payload w (x :: xs) = x * 2 ^ (w * Z.of_nat (length xs)) + payload w xs.
Proof.
  intros Hw. change (x :: xs) with ([x] ++ xs). rewrite payload_app by lia.
  unfold payload at 1. simpl. reflexivity.
Qed.

Lemma payload_bound w xs : 0 <= w -> Forall (fun x => 0 <= x < 2 ^ w) xs ->
  0 <= payload w xs < 2 ^ (w * Z.of_nat (length xs)).
Proof.
  intros Hw. induction xs as [|x xs IH] using rev_ind; intros HF.
  - rewrite payload_nil. simpl length. rewrite Z.mul_0_r, Z.pow_0_r. lia.
  - apply Forall_app in HF as [HF Hx]. rewrite Forall_singleton in Hx.
    specialize (IH HF). rewrite payload_snoc, length_app. simpl.
    replace (w * Z.of_nat (length xs + 1)) with (w * Z.of_nat (length xs) + w) by lia.
    rewrite Z.pow_add_r by lia.
    assert (0 < 2 ^ w) by (apply Z.pow_pos_nonneg; lia).
    assert ((payload w xs + 1) * 2 ^ w <= 2 ^ (w * Z.of_nat (length xs)) * 2 ^ w)
      by (apply Z.mul_le_mono_nonneg_r; lia).
    nia.
Qed.

(** The field of width [w] at shift [s]. *)
Lemma field_extract (a x lo s w : Z) : 0 <= s -> 0 <= w -> 0 <= lo < 2 ^ s -> 0 <= x < 2 ^ w ->
  Z.land ((a * 2 ^ (s + w) + x * 2 ^ s + lo) ≫ s) (Z.ones w) = x.
Proof.
  intros Hs Hw Hlo Hx.
  rewrite Z.shiftr_div_pow2, Z.land_ones by lia.
  rewrite Z.pow_add_r by lia.
  replace (a * (2 ^ s * 2 ^ w) + x * 2 ^ s + lo) with ((a * 2 ^ w + x) * 2 ^ s + lo) by ring.
  assert (0 < 2 ^ s) by (apply Z.pow_pos_nonneg; lia).
  rewrite Z.div_add_l by lia. rewrite (Z.div_small lo) by lia.
  rewrite Z.add_0_r, Z.add_comm, Z.mod_add by lia. apply Z.mod_small. lia.
Qed.

Lemma shifts_S w k : shifts w (S k) = w * Z.of_nat k :: shifts w k.
Proof. unfold shifts. rewrite seq_S, reverse_app. reflexivity. Qed.

Lemma shifts5_eq : shifts5 = shifts 5 6.
Proof. reflexivity. Qed.

Lemma shifts2_eq : shifts2 = shifts 2 15.
Proof. reflexivity. Qed.

Lemma length_shifts w k : length (shifts w k) = k.
Proof. unfold shifts. rewrite length_fmap, length_reverse. apply length_seq. Qed.

(** Reading the fields of a payload gives back the codes. *)
Lemma slots_payload (w : Z) (h : Z) (xs : list Z) :
  0 < w -> Forall (fun x => 0 <= x < 2 ^ w) xs ->
  (fun b => Z.land ((h * 2 ^ (w * Z.of_nat (length xs)) + payload w xs) ≫ b) (Z.ones w))
    <$> shifts w (length xs) = xs.
Proof.
  intros Hw. revert h. induction xs as [|x xs IH]; intros h HF; [reflexivity|].
  apply Forall_cons in HF as [Hx HF].
  simpl length. rewrite shifts_S, fmap_cons. f_equal.
  - rewrite payload_cons by lia.
    pose proof (payload_bound w xs ltac:(lia) HF).
    replace (w * Z.of_nat (S (length xs))) with (w * Z.of_nat (length xs) + w) by lia.
    rewrite Z.add_assoc. apply field_extract; lia.
  - rewrite <- (IH (h * 2 ^ w + x) HF) at 2.
    apply list_fmap_ext. intros i b Hb. f_equal. f_equal.
    rewrite payload_cons by lia.
    replace (w * Z.of_nat (S (length xs))) with (w * Z.of_nat (length xs) + w) by lia.
    rewrite Z.pow_add_r by lia. ring.
Qed.

Lemma lor_all_payload (w : Z) (xs : list Z) (h : Z) :
  0 < w -> w * Z.of_nat (length xs) <= 32 ->
  Forall (fun x => 0 <= x < 2 ^ w) xs ->
  lor_all (shifts w (length xs)) xs (h * 2 ^ (w * Z.of_nat (length xs)))
  = h * 2 ^ (w * Z.of_nat (length xs)) + payload w xs.
Proof.
  intros Hw. revert h. induction xs as [|x xs IH]; intros h Hlen HF.
  - simpl. rewrite payload_nil. lia.
  - apply Forall_cons in HF as [Hx HF]. simpl length in *. rewrite shifts_S. simpl lor_all.
    set (k := Z.of_nat (length xs)) in *.
    assert (Hk : Z.of_nat (S (length xs)) = k + 1) by lia. rewrite Hk in *.
    assert (0 < 2 ^ (w * k)) by (apply Z.pow_pos_nonneg; lia).
    assert (Hxb : 0 <= x * 2 ^ (w * k) < 2 ^ (w * (k + 1))).
    { replace (w * (k + 1)) with (w + w * k) by lia. rewrite Z.pow_add_r by lia. nia. }
    assert (2 ^ (w * (k + 1)) <= 2 ^ 32) by (apply Z.pow_le_mono_r; lia).
    rewrite Z.shiftl_mul_pow2 by lia. unfold u32. rewrite Z.mod_small by lia.
    rewrite lor_add_low by lia.
    replace (h * 2 ^ (w * (k + 1)) + x * 2 ^ (w * k)) with ((h * 2 ^ w + x) * 2 ^ (w * k))
      by (replace (w * (k + 1)) with (w + w * k) by lia; rewrite Z.pow_add_r by lia; ring).
    rewrite IH by (done || lia). rewrite payload_cons by lia. fold k.
    replace (w * (k + 1)) with (w + w * k) by lia. rewrite Z.pow_add_r by lia. ring.
Qed.

Lemma pad5_lor_all bs v : pad5 bs v = lor_all bs (replicate (length bs) 31) v.
Proof. revert v. induction bs as [|b bs IH]; intros v; simpl; [reflexivity|]. apply IH. Qed.

Lemma lor_all_app bs xs ys v :
  (length xs <= length bs)%nat ->
  lor_all bs (xs ++ ys) v = lor_all (drop (length xs) bs) ys (lor_all bs xs v).
Proof.
  revert bs v. induction xs as [|x xs IH]; intros bs v Hlen; simpl.
  - destruct bs; reflexivity.
  - destruct bs as [|b bs]; simpl in *; [lia|]. apply IH. lia.
Qed.

Lemma lor_all_take bs xs v : lor_all bs (take (length bs) xs) v = lor_all bs xs v.
Proof.
  revert xs v. induction bs as [|b bs IH]; intros xs v; simpl; [destruct xs; reflexivity|].
  destruct xs as [|x xs]; simpl; [reflexivity|]. apply IH.
Qed.

(** ** The packers *)

Lemma length_residues mem n r : (n < length mem)%nat -> length (residues mem n r) = (S n - r)%nat.
Proof. intros H. unfold residues. rewrite length_take, length_drop. lia. Qed.

Lemma residues_cons mem n r :
  (r <= n < length mem)%nat -> residues mem n r = load_u8 mem r :: residues mem n (S r).
Proof.
  intros H. unfold residues, load_u8.
  destruct (lookup_lt_is_Some_2 mem r ltac:(lia)) as [x Hx].
  rewrite (list_lookup_total_correct _ _ _ Hx), (drop_S _ _ _ Hx).
  replace (S n - r)%nat with (S (S n - S r)) by lia. reflexivity.
Qed.

Lemma residues_nil mem n r : (n < r)%nat -> residues mem n r = [].
Proof. intros H. unfold residues. replace (S n - r)%nat with 0%nat by lia. reflexivity. Qed.

Lemma residues_drop mem n r k : residues mem n (r + k) = drop k (residues mem n r).
Proof.
  unfold residues. destruct (decide (k <= S n - r)%nat).
  - replace (S n - r)%nat with (k + (S n - (r + k)))%nat by lia.
    rewrite <- take_drop_commute, drop_drop. reflexivity.
  - replace (S n - (r + k))%nat with 0%nat by lia. rewrite (drop_ge (take _ _)); [reflexivity|].
    rewrite length_take. lia.
Qed.

Lemma residues_agree mem mem0 n r : drop r mem = drop r mem0 -> residues mem n r = residues mem0 n r.
Proof. unfold residues. intros ->. reflexivity. Qed.

Lemma lookup_total_agree (mem mem0 : list Z) r k :
  drop r mem = drop r mem0 -> (r <= k)%nat -> mem !!! k = mem0 !!! k.
Proof.
  intros Hd Hk. rewrite !list_lookup_total_alt.
  replace k with (r + (k - r))%nat by lia. rewrite <- !lookup_drop, Hd. reflexivity.
Qed.

Lemma residues_lookup mem n r j :
  (n < length mem)%nat -> (r + j <= n)%nat -> residues mem n r !! j = Some (mem !!! (r + j)%nat).
Proof.
  intros Hn Hj. unfold residues. rewrite lookup_take_lt by lia. rewrite lookup_drop.
  apply list_lookup_lookup_total_lt. lia.
Qed.

(** *** One packet *)

Lemma fill5_mem bs mem n r v :
  (n < length mem)%nat ->
  fill5 bs mem n r v = (fill5_list bs (residues mem n r) v, (r + min (length bs) (S n - r))%nat).
Proof.
  intros Hn. revert r v. induction bs as [|b bs IH]; intros r v.
  - simpl. f_equal. lia.
  - cbn [fill5]. destruct (r <=? n)%nat eqn:E.
    + apply Nat.leb_le in E. rewrite IH, (residues_cons mem n r) by lia.
      cbn [fill5_list length]. f_equal. lia.
    + apply Nat.leb_gt in E. rewrite residues_nil by lia. cbn [fill5_list length]. f_equal. lia.
Qed.

Lemma take_app_replicate (xs : list Z) (k m m' : nat) (c : Z) :
  (k <= m)%nat -> (k <= m')%nat -> take k (xs ++ replicate m c) = take k (xs ++ replicate m' c).
Proof.
  revert k. induction xs as [|x xs IH]; intros k Hk Hk'.
  - simpl. rewrite !take_replicate. f_equal. lia.
  - destruct k as [|k]; [reflexivity|]. simpl. f_equal. apply IH; lia.
Qed.

Lemma fill5_list_lor_all bs xs v :
  fill5_list bs xs v = lor_all bs (take (length bs) (xs ++ replicate (length bs) 31)) v.
Proof.
  revert xs v. induction bs as [|b bs IH]; intros xs v; [reflexivity|].
  destruct xs as [|x xs].
  - cbn [fill5_list app]. rewrite take_replicate, Nat.min_id. apply pad5_lor_all.
  - cbn [fill5_list length app take lor_all]. rewrite IH. f_equal.
    apply take_app_replicate; lia.
Qed.

Lemma length_pad6 xs : length (pad6 xs) = 6%nat.
Proof. unfold pad6. rewrite length_take, length_app, length_replicate. lia. Qed.

Lemma pad6_take xs : pad6 (take 6 xs) = pad6 xs.
Proof.
  unfold pad6. destruct (decide (6 <= length xs)%nat).
  - rewrite !take_app_le by (rewrite ?length_take; lia). apply take_take.
  - rewrite (take_ge xs) by lia. reflexivity.
Qed.

Lemma pad6_range xs c :
  Forall (fun x => 0 <= x <= c) xs -> 31 <= c -> Forall (fun x => 0 <= x <= c) (pad6 xs).
Proof.
  intros HF Hc. unfold pad6. apply Forall_take, Forall_app. split; [done|].
  apply Forall_replicate. lia.
Qed.

Lemma Forall_range_lt (xs : list Z) (c : Z) :
  Forall (fun x => 0 <= x <= c) xs -> Forall (fun x => 0 <= x < c + 1) xs.
Proof. intros H. eapply Forall_impl; [exact H|]. intros x. simpl. lia. Qed.

Lemma packet_of_bounds eod five pay : 0 <= pay < 2 ^ 30 -> 0 <= packet_of eod five pay < 2 ^ 32.
Proof. intros H. unfold packet_of. destruct eod, five; simpl Z.b2z; lia. Qed.

Lemma payload5_bound xs : Forall (fun x => 0 <= x <= 31) xs -> 0 <= payload 5 (pad6 xs) < 2 ^ 30.
Proof.
  intros HF. pose proof (payload_bound 5 (pad6 xs) ltac:(lia)) as H.
  rewrite length_pad6 in H. apply H.
  eapply Forall_impl; [apply (pad6_range xs 31 HF); lia|]. intros x. simpl. lia.
Qed.

Lemma payload2_bound xs :
  length xs = 15%nat -> Forall (fun x => 0 <= x <= 3) xs -> 0 <= payload 2 xs < 2 ^ 30.
Proof.
  intros Hlen HF. pose proof (payload_bound 2 xs ltac:(lia)) as H.
  rewrite Hlen in H. apply H. eapply Forall_impl; [exact HF|]. intros x. simpl. lia.
Qed.

(** The first two loops of a turn of [dsqdata_pack5] make a 5-bit packet
    of the residues that are left. *)
Lemma fill5_packet mem n r :
  (n < length mem)%nat -> Forall (fun x => 0 <= x <= 31) (residues mem n r) ->
  fill5 shifts5 mem n r bit30
  = (packet_of false true (payload 5 (pad6 (residues mem n r))), (r + min 6 (S n - r))%nat).
Proof.
  intros Hn HF. rewrite fill5_mem by done. f_equal.
  rewrite fill5_list_lor_all. change (length shifts5) with 6%nat.
  fold (pad6 (residues mem n r)).
  pose proof (lor_all_payload 5 (pad6 (residues mem n r)) 1 ltac:(lia)) as H.
  rewrite length_pad6 in H. rewrite shifts5_eq. change bit30 with (1 * 2 ^ (5 * Z.of_nat 6)).
  rewrite H; [unfold packet_of; simpl Z.b2z; lia | lia |].
  eapply Forall_impl; [apply (pad6_range _ 31 HF); lia|]. intros x. simpl. lia.
Qed.

Lemma fill2_mem bs mem r v :
  (r + length bs <= length mem)%nat ->
  fill2 bs mem r v = (lor_all bs (take (length bs) (drop r mem)) v, (r + length bs)%nat).
Proof.
  revert r v. induction bs as [|b bs IH]; intros r v Hlen.
  - simpl. f_equal. lia.
  - cbn [fill2 length] in *. rewrite IH by lia.
    destruct (lookup_lt_is_Some_2 mem r ltac:(lia)) as [x Hx].
    unfold load_u8. rewrite (list_lookup_total_correct _ _ _ Hx), (drop_S _ _ _ Hx).
    cbn [take lor_all]. f_equal. lia.
Qed.

Lemma fill2_packet mem r :
  (r + 15 <= length mem)%nat -> Forall (fun x => 0 <= x <= 3) (take 15 (drop r mem)) ->
  fill2 shifts2 mem r 0 = (packet_of false false (payload 2 (take 15 (drop r mem))), (r + 15)%nat).
Proof.
  intros Hlen HF. rewrite fill2_mem by (simpl; lia). change (length shifts2) with 15%nat. f_equal.
  assert (Hl : length (take 15 (drop r mem)) = 15%nat) by (rewrite length_take, length_drop; lia).
  pose proof (lor_all_payload 2 (take 15 (drop r mem)) 0 ltac:(lia)) as H.
  rewrite Hl in H. rewrite shifts2_eq. change 0 with (0 * 2 ^ (2 * Z.of_nat 15)) at 1.
  rewrite H; [unfold packet_of; simpl Z.b2z; lia | lia |].
  eapply Forall_impl; [exact HF|]. intros x. simpl. lia.
Qed.

Lemma mark_eod_packet n r five pay :
  0 <= pay < 2 ^ 30 ->
  mark_eod n r (packet_of false five pay) = packet_of (bool_decide (n < r)%nat) five pay.
Proof.
  intros Hp. unfold mark_eod. destruct (n <? r)%nat eqn:E.
  - apply Nat.ltb_lt in E. rewrite bool_decide_eq_true_2 by done.
    rewrite Z.lor_comm. change bit31 with (1 * 2 ^ 31).
    rewrite lor_add_low; [unfold packet_of; simpl Z.b2z; lia | lia |].
    unfold packet_of. destruct five; simpl Z.b2z; lia.
  - apply Nat.ltb_ge in E. rewrite bool_decide_eq_false_2 by lia. reflexivity.
Qed.

(** *** The loop of [dsqdata_pack5] *)

Lemma pack5_loop_done fuel mem n r pos : (n < r)%nat -> pack5_loop fuel mem n r pos = Ok (mem, pos).
Proof.
  intros H. apply Nat.ltb_lt in H. destruct fuel; simpl; rewrite H; reflexivity.
Qed.

Lemma packet5_of_bounds eod xs :
  Forall (fun x => 0 <= x <= 31) xs -> 0 <= packet5_of eod xs < 2 ^ 32.
Proof. intros HF. apply packet_of_bounds, payload5_bound, HF. Qed.

Lemma pack5_rule_nil fuel : pack5_rule fuel [] = [].
Proof. destruct fuel; reflexivity. Qed.

Lemma pack5_rule_cons fuel s :
  s ≠ [] ->
  pack5_rule (S fuel) s
  = packet5_of (bool_decide (length s <= 6)%nat) (take 6 s) :: pack5_rule fuel (drop 6 s).
Proof. destruct s; [done | reflexivity]. Qed.

Lemma pack5_loop_rule (mem0 : list Z) (n : nat) :
  (n < length mem0)%nat ->
  Forall (fun x => 0 <= x <= 31) (residues mem0 n 1) ->
  ∀ fuel mem r pos,
    (1 <= r)%nat -> (4 * pos < r)%nat -> length mem = length mem0 ->
    drop r mem = drop r mem0 -> (S n - r <= fuel)%nat ->
    (4 * (pos + length (pack5_rule fuel (residues mem0 n r))) <= length mem)%nat ->
    ∃ mem', pack5_loop fuel mem n r pos
            = Ok (mem', (pos + length (pack5_rule fuel (residues mem0 n r)))%nat)
          ∧ words mem' 0 (pos + length (pack5_rule fuel (residues mem0 n r)))
            = words mem 0 pos ++ pack5_rule fuel (residues mem0 n r).
Proof.
  intros Hn HF. induction fuel as [|fuel IH]; intros mem r pos Hr Hpos Hlen Hd Hfuel Hroom.
  - rewrite pack5_loop_done by lia. rewrite residues_nil by lia. simpl.
    rewrite Nat.add_0_r, app_nil_r. eauto.
  - destruct (decide (n < r)%nat) as [Hdone|Hgo].
    { rewrite pack5_loop_done by lia. rewrite residues_nil by lia. simpl.
      rewrite Nat.add_0_r, app_nil_r. eauto. }
    assert (Hne : residues mem0 n r ≠ []).
    { intros E. pose proof (length_residues mem0 n r Hn) as Hl. rewrite E in Hl. simpl in Hl. lia. }
    assert (HFr : Forall (fun x => 0 <= x <= 31) (residues mem0 n r)).
    { replace r with (1 + (r - 1))%nat by lia. rewrite residues_drop. by apply Forall_drop. }
    rewrite pack5_rule_cons in * by done.
    set (pk := packet5_of (bool_decide (length (residues mem0 n r) <= 6)%nat) (take 6 (residues mem0 n r))) in *.
    assert (Hpk : 0 <= pk < 2 ^ 32) by (apply packet5_of_bounds; by apply Forall_take).
    simpl length in Hroom.
    cbn [pack5_loop]. replace (n <? r)%nat with false by (symmetry; apply Nat.ltb_ge; lia).
    assert (Hres : residues mem n r = residues mem0 n r) by (by apply residues_agree).
    rewrite fill5_packet; [| lia | by rewrite Hres]. rewrite Hres.
    rewrite mark_eod_packet by (apply payload5_bound; done).
    replace (bool_decide (n < r + 6 `min` (S n - r))%nat)
      with (bool_decide (length (residues mem0 n r) <= 6)%nat)
      by (apply bool_decide_ext; rewrite length_residues by done; lia).
    rewrite <- pad6_take. fold (packet5_of (bool_decide (length (residues mem0 n r) <= 6)%nat) (take 6 (residues mem0 n r))).
    fold pk.
    set (mem1 := store_u32 mem (4 * pos) pk).
    assert (Hw1 : words mem1 0 (S pos) = words mem 0 pos ++ [pk]).
    { rewrite words_S. unfold mem1. rewrite words_store_above by lia. f_equal.
      simpl. rewrite load_store_u32 by lia. reflexivity. }
    destruct (decide (n < r + 6 `min` (S n - r))%nat) as [Hlast|Hmore].
    + (* this was the last packet *)
      rewrite pack5_loop_done by lia.
      replace (drop 6 (residues mem0 n r)) with (@nil Z)
        by (symmetry; apply drop_ge; rewrite length_residues by done; lia).
      rewrite pack5_rule_nil. simpl length. exists mem1. split.
      * do 2 f_equal. lia.
      * replace (pos + 1)%nat with (S pos) by lia. exact Hw1.
    + assert (Hr6 : (r + 6 `min` (S n - r))%nat = (r + 6)%nat) by lia. rewrite Hr6.
      rewrite <- residues_drop in *.
      destruct (IH mem1 (r + 6)%nat (S pos)) as (mem' & Hrun & Hwords).
      * lia.
      * lia.
      * unfold mem1. rewrite length_store_u32. done.
      * unfold mem1. rewrite drop_store_u32 by lia.
        rewrite <- !(drop_drop _ 6 r). by rewrite Hd.
      * lia.
      * unfold mem1. rewrite length_store_u32. simpl length. lia.
      * exists mem'. simpl length.
        replace (pos + S (length (pack5_rule fuel (residues mem0 n (r + 6)))))%nat
          with (S pos + length (pack5_rule fuel (residues mem0 n (r + 6))))%nat by lia.
        split; [exact Hrun|]. rewrite Hwords, Hw1, <- app_assoc. reflexivity.
Qed.

(** *** Reading a packet built by the rule *)

Lemma packet_top_bits eod five pay :
  0 <= pay < 2 ^ 30 -> packet_of eod five pay ≫ 30 = 2 * Z.b2z eod + Z.b2z five.
Proof.
  intros Hp. rewrite Z.shiftr_div_pow2 by lia. unfold packet_of.
  destruct eod, five; simpl Z.b2z; change (2 ^ 31) with 2147483648 in *;
    change (2 ^ 30) with 1073741824 in *; Z.div_mod_to_equations; lia.
Qed.

Lemma packet_bit30 eod five pay : 0 <= pay < 2 ^ 30 -> Z.testbit (packet_of eod five pay) 30 = five.
Proof.
  intros Hp. rewrite Z.testbit_odd, packet_top_bits by done.
  destruct eod, five; reflexivity.
Qed.


Lemma packet_slots (w : Z) (k : nat) eod five (xs : list Z) :
  0 < w -> w * Z.of_nat k = 30 -> length xs = k -> Forall (fun x => 0 <= x < 2 ^ w) xs ->
  (fun b => Z.land (packet_of eod five (payload w xs) ≫ b) (Z.ones w)) <$> shifts w k = xs.
Proof.
  intros Hw Hk Hlen HF. subst k.
  pose proof (slots_payload w (2 * Z.b2z eod + Z.b2z five) xs Hw HF) as H.
  rewrite Hk in H. rewrite <- H at 2. apply list_fmap_ext. intros i b Hb.
  f_equal. f_equal. unfold packet_of. change (2 ^ 31) with (2 * 2 ^ 30). ring.
Qed.

Lemma slots5_packet eod xs :
  Forall (fun x => 0 <= x <= 31) xs ->
  (fun b => Z.land (packet5_of eod xs ≫ b) 31) <$> shifts5 = pad6 xs.
Proof.
  intros HF. rewrite shifts5_eq. change 31 with (Z.ones 5). unfold packet5_of.
  apply packet_slots; [lia | lia | apply length_pad6 |].
  eapply Forall_impl; [apply (pad6_range xs 31 HF); lia|]. intros x. simpl. lia.
Qed.

Lemma slots2_packet eod xs :
  length xs = 15%nat -> Forall (fun x => 0 <= x <= 3) xs ->
  (fun b => Z.land (packet2_of eod xs ≫ b) 3) <$> shifts2 = xs.
Proof.
  intros Hlen HF. rewrite shifts2_eq. change 3 with (Z.ones 2). unfold packet2_of.
  apply packet_slots; [lia | lia | done |].
  eapply Forall_impl; [exact HF|]. intros x. simpl. lia.
Qed.



Lemma until31_pad6 xs :
  (length xs <= 6)%nat -> Forall (fun x => 0 <= x <= 30) xs -> until31 (pad6 xs) = xs.
Proof.
  intros Hlen HF. unfold pad6. rewrite take_app_ge, take_replicate by lia.
  generalize ((6 - length xs) `min` 6)%nat. intros m.
  induction HF as [|x xs Hx HF IH]; simpl.
  - destruct m; reflexivity.
  - rewrite decide_False by lia. f_equal. apply IH. simpl in Hlen. lia.
Qed.

Lemma decode_packet5_full xs :
  Forall (fun x => 0 <= x <= 31) xs -> decode_packet (packet5_of false xs) = (pad6 xs, false).
Proof.
  intros HF.
  assert (Htop : packet5_of false xs ≫ 30 = 1)
    by (unfold packet5_of; rewrite packet_top_bits by (by apply payload5_bound); reflexivity).
  unfold decode_packet. rewrite Htop. cbv iota. by rewrite (slots5_packet false xs HF).
Qed.

Lemma decode_packet5_eod xs :
  (length xs <= 6)%nat -> Forall (fun x => 0 <= x <= 30) xs ->
  decode_packet (packet5_of true xs) = (xs, true).
Proof.
  intros Hlen HF.
  assert (HF' : Forall (fun x => 0 <= x <= 31) xs)
    by (eapply Forall_impl; [exact HF|]; intros x; simpl; lia).
  assert (Htop : packet5_of true xs ≫ 30 = 3)
    by (unfold packet5_of; rewrite packet_top_bits by (by apply payload5_bound); reflexivity).
  unfold decode_packet. rewrite Htop. cbv iota.
  rewrite (slots5_packet true xs HF'). by rewrite until31_pad6.
Qed.

Lemma decode_packet2 eod xs :
  length xs = 15%nat -> Forall (fun x => 0 <= x <= 3) xs ->
  decode_packet (packet2_of eod xs) = (xs, eod).
Proof.
  intros Hlen HF.
  assert (Htop : packet2_of eod xs ≫ 30 = 2 * Z.b2z eod)
    by (unfold packet2_of; rewrite packet_top_bits by (by apply payload2_bound); simpl; lia).
  unfold decode_packet. rewrite Htop.
  destruct eod; simpl Z.b2z; cbv iota; by rewrite slots2_packet.
Qed.

(** *** The packets of a protein sequence *)

Lemma pack5_rule_length fuel s :
  (length s <= fuel)%nat -> length (pack5_rule fuel s) = ((length s + 5) / 6)%nat.
Proof.
  revert s. induction fuel as [|fuel IH]; intros s Hf.
  - destruct s; [reflexivity | simpl in Hf; lia].
  - destruct (decide (s = [])) as [->|Hne]; [reflexivity|].
    rewrite pack5_rule_cons by done. simpl length.
    assert (0 < length s)%nat by (destruct s; [done | simpl; lia]).
    rewrite IH by (rewrite length_drop; lia). rewrite length_drop.
    dlia.
Qed.

Lemma pack5_rule_lookup fuel s k v :
  (length s <= fuel)%nat -> pack5_rule fuel s !! k = Some v ->
  v = packet5_of (bool_decide (length s <= 6 * (k + 1))%nat) (take 6 (drop (6 * k) s)).
Proof.
  revert s k. induction fuel as [|fuel IH]; intros s k Hf Hk.
  - destruct s; simpl in *; [done | lia].
  - destruct (decide (s = [])) as [->|Hne]; [done|].
    rewrite pack5_rule_cons in Hk by done. destruct k as [|k].
    + simpl in Hk. injection Hk as <-. reflexivity.
    + simpl in Hk. apply IH in Hk; [|rewrite length_drop; lia].
      rewrite Hk, length_drop, drop_drop. f_equal; [|f_equal; f_equal; lia].
      apply bool_decide_ext. lia.
Qed.

(** A sequence packed by the rule and read back. *)
Lemma sequences_pack5_rule fuel s cur rest :
  (length s <= fuel)%nat -> s ≠ [] -> Forall (fun x => 0 <= x <= 30) s ->
  sequences cur (pack5_rule fuel s ++ rest) = (cur ++ s) :: sequences [] rest.
Proof.
  revert s cur. induction fuel as [|fuel IH]; intros s cur Hf Hne HF.
  - destruct s; [done | simpl in Hf; lia].
  - rewrite pack5_rule_cons by done. cbn [app sequences].
    assert (HF6 : Forall (fun x => 0 <= x <= 30) (take 6 s)) by (by apply Forall_take).
    destruct (decide (length s <= 6)%nat) as [Hlast|Hmore].
    + rewrite bool_decide_eq_true_2 by done.
      rewrite decode_packet5_eod by (rewrite ?length_take; lia || done).
      rewrite (drop_ge s) by lia. rewrite pack5_rule_nil. simpl.
      by rewrite take_ge by lia.
    + rewrite bool_decide_eq_false_2 by done.
      rewrite decode_packet5_full
        by (eapply Forall_impl; [exact HF6|]; intros x; simpl; lia).
      rewrite pad6_take. unfold pad6. rewrite take_app_le by lia.
      rewrite IH.
      * by rewrite <- app_assoc, take_drop.
      * rewrite length_drop. lia.
      * intros E. apply (f_equal length) in E. rewrite length_drop in E. simpl in E. lia.
      * by apply Forall_drop.
Qed.

Lemma holds_residues mem s : holds mem s -> residues mem (length s) 1 = s.
Proof.
  intros (x0 & rest & ->). unfold residues.
  replace (S (length s) - 1)%nat with (length s) by lia.
  change (drop 1 (x0 :: s ++ rest)) with (s ++ rest). apply take_app_length.
Qed.

Lemma holds_length mem s : holds mem s -> (length s < length mem)%nat.
Proof. intros (x0 & rest & ->). simpl. rewrite length_app. lia. Qed.

(** [dsqdata_pack5] returns, and leaves in the buffer the packets of the rule. *)
Lemma dsqdata_pack5_rule mem s :
  holds mem s -> Forall (fun x => 0 <= x <= 31) s ->
  (4 * ((length s + 5) / 6) <= length mem)%nat ->
  ∃ mem', dsqdata_pack5 mem (length s) = Ok (mem', ((length s + 5) / 6)%nat)
        ∧ words mem' 0 ((length s + 5) / 6) = pack5_rule (length s) s.
Proof.
  intros Hh HF Hroom. unfold dsqdata_pack5.
  pose proof (holds_residues mem s Hh) as Hres. pose proof (holds_length mem s Hh) as Hlen.
  destruct (pack5_loop_rule mem (length s) Hlen ltac:(by rewrite Hres)
              (length s) mem 1%nat 0%nat) as (mem' & Hrun & Hw);
    try (done || lia).
  - rewrite Hres, pack5_rule_length by lia. lia.
  - rewrite Hres, pack5_rule_length in * by lia. exists mem'. split; [exact Hrun|].
    exact Hw.
Qed.

(** *** The loop of [dsqdata_pack2] *)

Lemma pack2_loop_done fuel mem n d r pos :
  (n < r)%nat -> pack2_loop fuel mem n d r pos = Ok (mem, pos).
Proof.
  intros H. apply Nat.ltb_lt in H. destruct fuel; simpl; rewrite H; reflexivity.
Qed.

Lemma pack2_rule_nil fuel : pack2_rule fuel [] = [].
Proof. destruct fuel; reflexivity. Qed.

Lemma pack2_rule_cons fuel s :
  s ≠ [] ->
  pack2_rule (S fuel) s
  = if bool_decide ((15 <= length s)%nat ∧ Forall (fun x => x <= 3) (take 15 s))
    then packet2_of (bool_decide (length s <= 15)%nat) (take 15 s) :: pack2_rule fuel (drop 15 s)
    else packet5_of (bool_decide (length s <= 6)%nat) (take 6 s) :: pack2_rule fuel (drop 6 s).
Proof. destruct s; [done | reflexivity]. Qed.

(** The detector stops at the first residue above 3, or past the end. *)
Lemma next_degen_spec fuel mem n d :
  (S n - d <= fuel)%nat ->
  (d <= next_degen fuel mem n d)%nat
  ∧ (next_degen fuel mem n d <= max d (S n))%nat
  ∧ (∀ k, (d <= k < next_degen fuel mem n d)%nat -> mem !!! k <= 3)
  ∧ ((next_degen fuel mem n d <= n)%nat -> 3 < mem !!! next_degen fuel mem n d).
Proof.
  revert d. induction fuel as [|fuel IH]; intros d Hf.
  - simpl. repeat split; try lia; try (intros; lia).
  - cbn [next_degen]. destruct (d <=? n)%nat eqn:E.
    + apply Nat.leb_le in E. unfold load_u8. destruct (3 <? mem !!! d) eqn:E3.
      * apply Z.ltb_lt in E3. repeat split; try lia; try (intros; lia).
      * apply Z.ltb_ge in E3. destruct (IH (S d) ltac:(lia)) as (H1 & H2 & H3 & H4).
        repeat split; try lia.
        intros k Hk. destruct (decide (k = d)) as [->|]; [lia|]. apply H3. lia.
    + apply Nat.leb_gt in E. repeat split; try lia; try (intros; lia).
Qed.

Lemma next_degen_agree fuel mem mem0 n d r :
  drop r mem = drop r mem0 -> (r <= d)%nat -> next_degen fuel mem n d = next_degen fuel mem0 n d.
Proof.
  intros Hd. revert d. induction fuel as [|fuel IH]; intros d Hr; [reflexivity|].
  cbn [next_degen]. unfold load_u8. rewrite (lookup_total_agree mem mem0 r d) by done.
  rewrite IH by lia. reflexivity.
Qed.

Lemma detector_window mem0 n d r :
  (n < length mem0)%nat -> (r <= d)%nat -> (r + 14 <= n)%nat -> detector mem0 n d r ->
  (r + 14 < d)%nat ↔ Forall (fun x => x <= 3) (take 15 (residues mem0 n r)).
Proof.
  intros Hn Hrd Hr [Hlt|(Hd1 & Hd2 & Hd3)]; [lia|]. split.
  - intros Hd. apply Forall_lookup. intros i x Hi.
    assert (i < 15)%nat by (apply lookup_lt_Some in Hi; rewrite length_take in Hi; lia).
    rewrite lookup_take_lt, residues_lookup in Hi by lia. injection Hi as <-. apply Hd2. lia.
  - intros HF. destruct (decide (r + 14 < d)%nat) as [|Hnot]; [done|]. exfalso.
    assert (Hi : take 15 (residues mem0 n r) !! (d - r)%nat = Some (mem0 !!! d)).
    { rewrite lookup_take_lt, residues_lookup by lia. do 2 f_equal. lia. }
    eapply Forall_lookup in HF; [|exact Hi]. simpl in HF.
    specialize (Hd3 ltac:(lia)). lia.
Qed.

Lemma detector_step mem0 n d r r' : (r <= r')%nat -> (r <= d)%nat ->
  detector mem0 n d r -> detector mem0 n d r'.
Proof.
  intros Hr Hrd [Hlt|(Hd1 & Hd2 & Hd3)]; [lia|].
  destruct (decide (d < r')%nat); [by left|]. right. repeat split; try done.
  intros k Hk. apply Hd2. lia.
Qed.

Lemma packet2_of_bounds eod xs :
  length xs = 15%nat -> Forall (fun x => 0 <= x <= 3) xs -> 0 <= packet2_of eod xs < 2 ^ 32.
Proof. intros Hl HF. by apply packet_of_bounds, payload2_bound. Qed.

Lemma Forall_range_and (xs : list Z) (c : Z) :
  Forall (fun x => 0 <= x <= 31) xs -> Forall (fun x => x <= c) xs -> Forall (fun x => 0 <= x <= c) xs.
Proof.
  intros H1 H2. apply Forall_lookup. intros i x Hi.
  eapply Forall_lookup in H1; [|exact Hi]. eapply Forall_lookup in H2; [|exact Hi]. simpl in *. lia.
Qed.

Lemma pack2_loop_rule (mem0 : list Z) (n : nat) :
  (n < length mem0)%nat ->
  Forall (fun x => 0 <= x <= 31) (residues mem0 n 1) ->
  ∀ fuel mem d r pos,
    (1 <= r)%nat -> (4 * pos < r)%nat -> length mem = length mem0 ->
    drop r mem = drop r mem0 -> (S n - r <= fuel)%nat -> detector mem0 n d r ->
    (4 * (pos + length (pack2_rule fuel (residues mem0 n r))) <= length mem)%nat ->
    ∃ mem', pack2_loop fuel mem n d r pos
            = Ok (mem', (pos + length (pack2_rule fuel (residues mem0 n r)))%nat)
          ∧ words mem' 0 (pos + length (pack2_rule fuel (residues mem0 n r)))
            = words mem 0 pos ++ pack2_rule fuel (residues mem0 n r).
Proof.
  intros Hn HF. induction fuel as [|fuel IH]; intros mem d r pos Hr Hpos Hlen Hd Hfuel Hdet Hroom.
  - rewrite pack2_loop_done by lia. rewrite residues_nil by lia. simpl.
    rewrite Nat.add_0_r, app_nil_r. eauto.
  - destruct (decide (n < r)%nat) as [Hdone|Hgo].
    { rewrite pack2_loop_done by lia. rewrite residues_nil by lia. simpl.
      rewrite Nat.add_0_r, app_nil_r. eauto. }
    pose proof (length_residues mem0 n r Hn) as Hlr.
    assert (Hne : residues mem0 n r ≠ []).
    { intros E. rewrite E in Hlr. simpl in Hlr. lia. }
    assert (HFr : Forall (fun x => 0 <= x <= 31) (residues mem0 n r)).
    { replace r with (1 + (r - 1))%nat by lia. rewrite residues_drop. by apply Forall_drop. }
    assert (Hres : residues mem n r = residues mem0 n r) by (by apply residues_agree).
    cbn [pack2_loop]. replace (n <? r)%nat with false by (symmetry; apply Nat.ltb_ge; lia).
    set (d' := if (d <? r)%nat then next_degen (S n - r) mem n r else d).
    assert (Hd' : (r <= d')%nat ∧ detector mem0 n d' r).
    { unfold d'. destruct (d <? r)%nat eqn:E.
      - rewrite (next_degen_agree _ mem mem0 n r r) by done.
        destruct (next_degen_spec (S n - r) mem0 n r ltac:(lia)) as (H1 & H2 & H3 & H4).
        split; [done|]. right. repeat split; [lia|done..].
      - apply Nat.ltb_ge in E. split; [done|]. destruct Hdet as [?|?]; [lia|by right]. }
    destruct Hd' as [Hrd' Hdet'].
    rewrite pack2_rule_cons in * by done.
    assert (Hcond : (15 <=? n + 1 - r)%nat && (r + 14 <? d')%nat
                    = bool_decide ((15 <= length (residues mem0 n r))%nat
                                   ∧ Forall (fun x => x <= 3) (take 15 (residues mem0 n r)))).
    { destruct (decide (15 <= n + 1 - r)%nat) as [H15|H15].
      - replace (15 <=? n + 1 - r)%nat with true by (symmetry; apply Nat.leb_le; lia).
        simpl. pose proof (detector_window mem0 n d' r Hn Hrd' ltac:(lia) Hdet') as Hw.
        destruct (r + 14 <? d')%nat eqn:E.
        + apply Nat.ltb_lt in E. symmetry. apply bool_decide_eq_true_2. split; [lia|]. by apply Hw.
        + apply Nat.ltb_ge in E. symmetry. apply bool_decide_eq_false_2. intros [_ HF3].
          apply Hw in HF3. lia.
      - replace (15 <=? n + 1 - r)%nat with false by (symmetry; apply Nat.leb_gt; lia).
        simpl. symmetry. apply bool_decide_eq_false_2. lia. }
    rewrite Hcond. clear Hcond.
    destruct (bool_decide _) eqn:Ecase.
    + (* a 2-bit packet of the next 15 residues *)
      apply bool_decide_eq_true_1 in Ecase as [H15 HF3].
      assert (Ht : take 15 (drop r mem) = take 15 (residues mem0 n r)).
      { rewrite <- Hres. unfold residues. rewrite take_take. f_equal. lia. }
      assert (HF03 : Forall (fun x => 0 <= x <= 3) (take 15 (residues mem0 n r)))
        by (apply Forall_range_and; [by apply Forall_take | done]).
      rewrite fill2_packet; [| lia | by rewrite Ht]. rewrite Ht.
      assert (Hl15 : length (take 15 (residues mem0 n r)) = 15%nat) by (rewrite length_take; lia).
      rewrite mark_eod_packet by (by apply payload2_bound).
      replace (bool_decide (n < r + 15)%nat)
        with (bool_decide (length (residues mem0 n r) <= 15)%nat) by (apply bool_decide_ext; lia).
      fold (packet2_of (bool_decide (length (residues mem0 n r) <= 15)%nat) (take 15 (residues mem0 n r))).
      set (pk := packet2_of _ _) in *.
      assert (Hpk : 0 <= pk < 2 ^ 32) by (by apply packet2_of_bounds).
      simpl length in Hroom. set (mem1 := store_u32 mem (4 * pos) pk).
      assert (Hw1 : words mem1 0 (S pos) = words mem 0 pos ++ [pk]).
      { rewrite words_S. unfold mem1. rewrite words_store_above by lia. f_equal.
        simpl. rewrite load_store_u32 by lia. reflexivity. }
      rewrite <- residues_drop in *.
      destruct (decide (n < r + 15)%nat) as [Hlast|Hmore].
      * rewrite pack2_loop_done by lia. rewrite (residues_nil mem0 n (r + 15)) by lia.
        rewrite pack2_rule_nil. simpl length. exists mem1. split.
        -- do 2 f_equal. lia.
        -- replace (pos + 1)%nat with (S pos) by lia. exact Hw1.
      * destruct (IH mem1 d' (r + 15)%nat (S pos)) as (mem' & Hrun & Hwords).
        -- lia.
        -- lia.
        -- unfold mem1. by rewrite length_store_u32.
        -- unfold mem1. rewrite drop_store_u32 by lia.
           rewrite <- !(drop_drop _ 15 r). by rewrite Hd.
        -- lia.
        -- apply (detector_step mem0 n d' r); [lia | done | done].
        -- unfold mem1. rewrite length_store_u32. simpl length. lia.
        -- exists mem'. simpl length.
           replace (pos + S (length (pack2_rule fuel (residues mem0 n (r + 15)))))%nat
             with (S pos + length (pack2_rule fuel (residues mem0 n (r + 15))))%nat by lia.
           split; [exact Hrun|]. rewrite Hwords, Hw1, <- app_assoc. reflexivity.
    + (* a 5-bit packet of up to 6 residues *)
      clear Ecase.
      rewrite fill5_packet; [| lia | by rewrite Hres]. rewrite Hres.
      rewrite mark_eod_packet by (apply payload5_bound; done).
      replace (bool_decide (n < r + 6 `min` (S n - r))%nat)
        with (bool_decide (length (residues mem0 n r) <= 6)%nat)
        by (apply bool_decide_ext; lia).
      rewrite <- pad6_take.
      fold (packet5_of (bool_decide (length (residues mem0 n r) <= 6)%nat) (take 6 (residues mem0 n r))).
      set (pk := packet5_of _ _) in *.
      assert (Hpk : 0 <= pk < 2 ^ 32) by (apply packet5_of_bounds; by apply Forall_take).
      simpl length in Hroom. set (mem1 := store_u32 mem (4 * pos) pk).
      assert (Hw1 : words mem1 0 (S pos) = words mem 0 pos ++ [pk]).
      { rewrite words_S. unfold mem1. rewrite words_store_above by lia. f_equal.
        simpl. rewrite load_store_u32 by lia. reflexivity. }
      rewrite <- residues_drop in *.
      destruct (decide (n < r + 6 `min` (S n - r))%nat) as [Hlast|Hmore].
      * rewrite pack2_loop_done by lia. rewrite (residues_nil mem0 n (r + 6)) by lia.
        rewrite pack2_rule_nil. simpl length. exists mem1. split.
        -- do 2 f_equal. lia.
        -- replace (pos + 1)%nat with (S pos) by lia. exact Hw1.
      * assert (Hr6 : (r + 6 `min` (S n - r))%nat = (r + 6)%nat) by lia. rewrite Hr6.
        destruct (IH mem1 d' (r + 6)%nat (S pos)) as (mem' & Hrun & Hwords).
        -- lia.
        -- lia.
        -- unfold mem1. by rewrite length_store_u32.
        -- unfold mem1. rewrite drop_store_u32 by lia.
           rewrite <- !(drop_drop _ 6 r). by rewrite Hd.
        -- lia.
        -- apply (detector_step mem0 n d' r); [lia | done | done].
        -- unfold mem1. rewrite length_store_u32. simpl length. lia.
        -- exists mem'. simpl length.
           replace (pos + S (length (pack2_rule fuel (residues mem0 n (r + 6)))))%nat
             with (S pos + length (pack2_rule fuel (residues mem0 n (r + 6))))%nat by lia.
           split; [exact Hrun|]. rewrite Hwords, Hw1, <- app_assoc. reflexivity.
Qed.

(** *** Both packers *)

Lemma pack2_rule_length_le fuel s : (length (pack2_rule fuel s) <= (length s + 5) / 6)%nat.
Proof.
  revert s. induction fuel as [|fuel IH]; intros s.
  - destruct s; simpl; lia.
  - destruct (decide (s = [])) as [->|Hne]; [simpl; lia|].
    assert (0 < length s)%nat by (destruct s; [done | simpl; lia]).
    rewrite pack2_rule_cons by done. destruct (bool_decide _) eqn:E.
    + apply bool_decide_eq_true_1 in E as [H15 _]. simpl length.
      specialize (IH (drop 15 s)). rewrite length_drop in IH. dlia.
    + simpl length. specialize (IH (drop 6 s)). rewrite length_drop in IH. dlia.
Qed.

Lemma dsqdata_pack2_rule mem s :
  holds mem s -> Forall (fun x => 0 <= x <= 31) s ->
  (4 * ((length s + 5) / 6) <= length mem)%nat ->
  ∃ mem', dsqdata_pack2 mem (length s) = Ok (mem', length (pack2_rule (length s) s))
        ∧ words mem' 0 (length (pack2_rule (length s) s)) = pack2_rule (length s) s.
Proof.
  intros Hh HF Hroom. unfold dsqdata_pack2.
  pose proof (holds_residues mem s Hh) as Hres. pose proof (holds_length mem s Hh) as Hlen.
  pose proof (pack2_rule_length_le (length s) s) as Hle.
  destruct (pack2_loop_rule mem (length s) Hlen ltac:(by rewrite Hres)
              (length s) mem 0%nat 1%nat 0%nat) as (mem' & Hrun & Hw);
    try (done || lia).
  - left. lia.
  - rewrite Hres. lia.
  - rewrite Hres in *. exists mem'. split; [exact Hrun | exact Hw].
Qed.

Lemma pack2_rule_fuel f1 f2 s :
  (length s <= f1)%nat -> (length s <= f2)%nat -> pack2_rule f1 s = pack2_rule f2 s.
Proof.
  revert f2 s. induction f1 as [|f1 IH]; intros f2 s H1 H2.
  - destruct s; [by rewrite !pack2_rule_nil | simpl in H1; lia].
  - destruct (decide (s = [])) as [->|Hne]; [by rewrite !pack2_rule_nil|].
    assert (0 < length s)%nat by (destruct s; [done | simpl; lia]).
    destruct f2 as [|f2]; [lia|]. rewrite !pack2_rule_cons by done.
    destruct (bool_decide _); f_equal; apply IH; rewrite length_drop; lia.
Qed.

(** The rule, unrolled once. *)
Lemma pack2_rule_unfold s :
  s ≠ [] ->
  pack2_rule (length s) s
  = if bool_decide ((15 <= length s)%nat ∧ Forall (fun x => x <= 3) (take 15 s))
    then packet2_of (bool_decide (length s <= 15)%nat) (take 15 s)
           :: pack2_rule (length (drop 15 s)) (drop 15 s)
    else packet5_of (bool_decide (length s <= 6)%nat) (take 6 s)
           :: pack2_rule (length (drop 6 s)) (drop 6 s).
Proof.
  intros Hne. assert (0 < length s)%nat by (destruct s; [done | simpl; lia]).
  destruct (length s) as [|f] eqn:E; [lia|]. rewrite pack2_rule_cons by done.
  rewrite E. destruct (bool_decide _); f_equal; apply pack2_rule_fuel; rewrite ?length_drop; lia.
Qed.

Lemma sequences_pack2_rule fuel s cur rest :
  (length s <= fuel)%nat -> s ≠ [] -> Forall (fun x => 0 <= x <= 30) s ->
  sequences cur (pack2_rule fuel s ++ rest) = (cur ++ s) :: sequences [] rest.
Proof.
  revert s cur. induction fuel as [|fuel IH]; intros s cur Hf Hne HF.
  - destruct s; [done | simpl in Hf; lia].
  - rewrite pack2_rule_cons by done.
    assert (HF31 : Forall (fun x => 0 <= x <= 31) s)
      by (eapply Forall_impl; [exact HF|]; intros x; simpl; lia).
    destruct (bool_decide _) eqn:Ecase.
    + apply bool_decide_eq_true_1 in Ecase as [H15 HF3]. cbn [app sequences].
      rewrite decode_packet2;
        [| rewrite length_take; lia | apply Forall_range_and; [by apply Forall_take | done]].
      destruct (decide (length s <= 15)%nat) as [Hlast|Hmore].
      * rewrite bool_decide_eq_true_2 by done. rewrite (drop_ge s) by lia.
        rewrite pack2_rule_nil. simpl. by rewrite take_ge by lia.
      * rewrite bool_decide_eq_false_2 by done. rewrite IH.
        -- by rewrite <- app_assoc, take_drop.
        -- rewrite length_drop. lia.
        -- intros E. apply (f_equal length) in E. rewrite length_drop in E. simpl in E. lia.
        -- by apply Forall_drop.
    + clear Ecase. cbn [app sequences].
      assert (HF6 : Forall (fun x => 0 <= x <= 30) (take 6 s)) by (by apply Forall_take).
      destruct (decide (length s <= 6)%nat) as [Hlast|Hmore].
      * rewrite bool_decide_eq_true_2 by done.
        rewrite decode_packet5_eod by (rewrite ?length_take; lia || done).
        rewrite (drop_ge s) by lia. rewrite pack2_rule_nil. simpl.
        by rewrite take_ge by lia.
      * rewrite bool_decide_eq_false_2 by done.
        rewrite decode_packet5_full by (by apply Forall_take).
        rewrite pad6_take. unfold pad6. rewrite take_app_le by lia.
        rewrite IH.
        -- by rewrite <- app_assoc, take_drop.
        -- rewrite length_drop. lia.
        -- intros E. apply (f_equal length) in E. rewrite length_drop in E. simpl in E. lia.
        -- by apply Forall_drop.
Qed.

(** ** The unpacker *)

Lemma wrote_nil s : wrote s [] s.
Proof. split; simpl; rewrite ?app_nil_r; auto. Qed.

Lemma wrote_app s xs s' ys s'' : wrote s xs s' -> wrote s' ys s'' -> wrote s (xs ++ ys) s''.
Proof.
  intros [H1 H2 H3 H4] [G1 G2 G3 G4]. split.
  - rewrite G1, H1, length_app. lia.
  - rewrite G2, H2, app_assoc. reflexivity.
  - rewrite G3. replace (d_r s'') with (d_r s' + (d_r s'' - d_r s'))%nat by lia.
    rewrite <- !drop_drop, H3. reflexivity.
  - congruence.
Qed.

Lemma put_inv x s s' :
  put x s = Ok s' -> (d_r s < length (d_smem s))%nat ∧ wrote s [x] s' ∧ same_arrays s s'.
Proof.
  unfold put. destruct (decide _) as [Hr|]; [|done]. intros [= <-]. simpl.
  split; [done|]. split; [|done]. split; simpl.
  - lia.
  - rewrite insert_take_drop by done.
    rewrite take_app_ge by (rewrite length_take; lia).
    rewrite length_take. replace (S (d_r s) - d_r s `min` length (d_smem s))%nat with 1%nat by lia.
    reflexivity.
  - rewrite drop_insert_lt by lia. reflexivity.
  - apply length_insert.
Qed.

Lemma put_ok x s : (d_r s < length (d_smem s))%nat -> ∃ s', put x s = Ok s'.
Proof. intros H. unfold put. rewrite decide_True by done. eauto. Qed.

Lemma put_all_inv mask bs v s s' :
  put_all mask bs v s = Ok s' ->
  wrote s ((fun b => Z.land (v ≫ b) mask) <$> bs) s' ∧ same_arrays s s'.
Proof.
  revert s. induction bs as [|b bs IH]; intros s; cbn [put_all].
  - intros [= <-]. split; [apply wrote_nil | done].
  - destruct (put _ s) as [s1| | | |] eqn:E; try done. cbn.
    intros Hrun. apply put_inv in E as (_ & Hw & Hd & HL & Hi).
    apply IH in Hrun as (Hw' & Hd' & HL' & Hi').
    split; [exact (wrote_app _ _ _ _ _ Hw Hw') | split_and!; congruence].
Qed.

Lemma put_all_ok mask bs v s :
  (d_r s + length bs <= length (d_smem s))%nat -> ∃ s', put_all mask bs v s = Ok s'.
Proof.
  revert s. induction bs as [|b bs IH]; intros s Hroom; cbn [put_all]; [eauto|].
  simpl in Hroom. destruct (put_ok (Z.land (v ≫ b) mask) s ltac:(lia)) as [s1 E].
  rewrite E. cbn. apply put_inv in E as (_ & [H1 _ _ H4] & _). apply IH.
  rewrite H1, H4. simpl. lia.
Qed.

Lemma put_until31_inv bs v s s' :
  put_until31 bs v s = Ok s' ->
  wrote s (until31 ((fun b => Z.land (v ≫ b) 31) <$> bs)) s' ∧ same_arrays s s'.
Proof.
  revert s. induction bs as [|b bs IH]; intros s; cbn [put_until31 fmap list_fmap until31].
  - intros [= <-]. split; [apply wrote_nil | done].
  - destruct (decide (Z.land (v ≫ b) 31 = 31)).
    + intros [= <-]. split; [apply wrote_nil | done].
    + destruct (put _ s) as [s1| | | |] eqn:E; try done. cbn.
      intros Hrun. apply put_inv in E as (_ & Hw & Hd & HL & Hi).
      apply IH in Hrun as (Hw' & Hd' & HL' & Hi').
      split; [exact (wrote_app _ _ _ _ _ Hw Hw') | split_and!; congruence].
Qed.

Lemma put_until31_ok bs v s :
  (d_r s + length (until31 ((fun b => Z.land (v ≫ b) 31) <$> bs)) <= length (d_smem s))%nat ->
  ∃ s', put_until31 bs v s = Ok s'.
Proof.
  revert s. induction bs as [|b bs IH]; intros s; cbn [put_until31 fmap list_fmap until31]; [eauto|].
  destruct (decide (Z.land (v ≫ b) 31 = 31)); [eauto|]. intros Hroom.
  simpl in Hroom. destruct (put_ok (Z.land (v ≫ b) 31) s ltac:(lia)) as [s1 E].
  rewrite E. cbn. apply put_inv in E as (_ & [H1 _ _ H4] & _). apply IH.
  rewrite H1, H4. simpl. lia.
Qed.

Lemma poke_inv a i x a' : poke a i x = Ok a' -> (i < length a)%nat ∧ a' = <[i := x]> a.
Proof. unfold poke. destruct (decide _); [|done]. by intros [= <-]. Qed.

Lemma poke_ok a i x : (i < length a)%nat -> poke a i x = Ok (<[i := x]> a).
Proof. intros H. unfold poke. by rewrite decide_True. Qed.

(** The end of a sequence. *)
Lemma finalize_inv n s s' :
  finalize n s = Ok s' ->
  wrote s [eslDSQ_SENTINEL] s'
  ∧ d_i s' = S (d_i s)
  ∧ (d_i s < length (d_L s))%nat
  ∧ d_L s' = <[d_i s := Z.of_nat (d_r s) - d_dsq s !!! d_i s - 1]> (d_L s)
  ∧ d_dsq s' = (if decide (Z.of_nat (S (d_i s)) < n)
                then <[S (d_i s) := Z.of_nat (d_r s)]> (d_dsq s) else d_dsq s)
  ∧ (Z.of_nat (S (d_i s)) < n -> (S (d_i s) < length (d_dsq s))%nat).
Proof.
  unfold finalize. destruct (poke (d_L s) _ _) as [L'| | | |] eqn:EL; try done. cbn.
  apply poke_inv in EL as [HiL ->].
  destruct (decide (Z.of_nat (S (d_i s)) < n)) as [Hlt|Hge].
  - destruct (poke (d_dsq s) _ _) as [dsq'| | | |] eqn:Ed; try done. cbn.
    apply poke_inv in Ed as [Hid ->]. intros Hput.
    apply put_inv in Hput as (_ & [H1 H2 H3 H4] & Hd & HL & Hi). simpl in *.
    split_and!; try done; by split.
  - cbn. intros Hput.
    apply put_inv in Hput as (_ & [H1 H2 H3 H4] & Hd & HL & Hi). simpl in *.
    split_and!; try done; by split.
Qed.

Lemma finalize_ok n s :
  (d_r s < length (d_smem s))%nat -> (d_i s < length (d_L s))%nat ->
  (Z.of_nat (S (d_i s)) < n -> (S (d_i s) < length (d_dsq s))%nat) ->
  ∃ s', finalize n s = Ok s'.
Proof.
  intros Hr HL Hd. unfold finalize. rewrite (poke_ok (d_L s)) by done. cbn.
  destruct (decide _) as [Hlt|].
  - rewrite (poke_ok (d_dsq s)) by auto. cbn. by apply put_ok.
  - cbn. by apply put_ok.
Qed.

(** The four cases of the [switch], and the values it has no case for. *)
Lemma unpack_packet_cases n v s :
  (v ≫ 30 = 0 ∧ unpack_packet n v s = put_all 3 shifts2 v s)
  ∨ (v ≫ 30 = 1 ∧ unpack_packet n v s = put_all 31 shifts5 v s)
  ∨ (v ≫ 30 = 2 ∧ unpack_packet n v s = (s' ← put_all 3 shifts2 v s; finalize n s'))
  ∨ (v ≫ 30 = 3 ∧ unpack_packet n v s = (s' ← put_until31 shifts5 v s; finalize n s'))
  ∨ ((v ≫ 30 < 0 ∨ 3 < v ≫ 30) ∧ unpack_packet n v s = Ok s).
Proof.
  unfold unpack_packet. destruct (v ≫ 30) as [|p|p].
  - left. done.
  - destruct p as [[p|p|]|[p|p|]|].
    + do 4 right. split; [lia | done].
    + do 4 right. split; [lia | done].
    + do 3 right. left. done.
    + do 4 right. split; [lia | done].
    + do 4 right. split; [lia | done].
    + do 2 right. left. done.
    + right. left. done.
  - do 4 right. split; [lia | done].
Qed.

Lemma decode_packet_cases v :
  (v ≫ 30 = 0 ∧ decode_packet v = ((fun b => Z.land (v ≫ b) 3) <$> shifts2, false))
  ∨ (v ≫ 30 = 1 ∧ decode_packet v = ((fun b => Z.land (v ≫ b) 31) <$> shifts5, false))
  ∨ (v ≫ 30 = 2 ∧ decode_packet v = ((fun b => Z.land (v ≫ b) 3) <$> shifts2, true))
  ∨ (v ≫ 30 = 3
     ∧ decode_packet v = (until31 ((fun b => Z.land (v ≫ b) 31) <$> shifts5), true))
  ∨ ((v ≫ 30 < 0 ∨ 3 < v ≫ 30) ∧ decode_packet v = ([], false)).
Proof.
  unfold decode_packet. destruct (v ≫ 30) as [|p|p].
  - left. done.
  - destruct p as [[p|p|]|[p|p|]|].
    + do 4 right. split; [lia | done].
    + do 4 right. split; [lia | done].
    + do 3 right. left. done.
    + do 4 right. split; [lia | done].
    + do 4 right. split; [lia | done].
    + do 2 right. left. done.
    + right. left. done.
  - do 4 right. split; [lia | done].
Qed.

Lemma packet_cases n v s :
  (decode_packet v = ((fun b => Z.land (v ≫ b) 3) <$> shifts2, false)
   ∧ unpack_packet n v s = put_all 3 shifts2 v s)
  ∨ (decode_packet v = ((fun b => Z.land (v ≫ b) 31) <$> shifts5, false)
     ∧ unpack_packet n v s = put_all 31 shifts5 v s)
  ∨ (decode_packet v = ((fun b => Z.land (v ≫ b) 3) <$> shifts2, true)
     ∧ unpack_packet n v s = (s' ← put_all 3 shifts2 v s; finalize n s'))
  ∨ (decode_packet v = (until31 ((fun b => Z.land (v ≫ b) 31) <$> shifts5), true)
     ∧ unpack_packet n v s = (s' ← put_until31 shifts5 v s; finalize n s'))
  ∨ (decode_packet v = ([], false) ∧ unpack_packet n v s = Ok s).
Proof.
  destruct (unpack_packet_cases n v s) as [[H1 H2]|[[H1 H2]|[[H1 H2]|[[H1 H2]|[H1 H2]]]]];
    destruct (decode_packet_cases v) as [[G1 G2]|[[G1 G2]|[[G1 G2]|[[G1 G2]|[G1 G2]]]]];
    try lia; tauto.
Qed.

(** What a packet does to the decoder, when it goes well. *)
Lemma unpack_packet_inv n v s s' :
  unpack_packet n v s = Ok s' ->
  ∃ s1, wrote s (decode_packet v).1 s1 ∧ same_arrays s s1
        ∧ if (decode_packet v).2 then finalize n s1 = Ok s' else s' = s1.
Proof.
  intros Hrun.
  destruct (packet_cases n v s) as [[-> H]|[[-> H]|[[-> H]|[[-> H]|[-> H]]]]];
    rewrite H in Hrun; clear H; cbn [fst snd].
  - apply put_all_inv in Hrun as [Hw Hs]. eauto.
  - apply put_all_inv in Hrun as [Hw Hs]. eauto.
  - destruct (put_all 3 shifts2 v s) as [s1| | | |] eqn:E; try done.
    apply put_all_inv in E as [Hw Hs]. eauto.
  - destruct (put_until31 shifts5 v s) as [s1| | | |] eqn:E; try done.
    apply put_until31_inv in E as [Hw Hs]. eauto.
  - injection Hrun as <-. exists s. split; [apply wrote_nil | done].
Qed.

Lemma unpack_packet_ok n v s :
  (d_r s + length (decode_packet v).1 + (if (decode_packet v).2 then 1 else 0)
     <= length (d_smem s))%nat ->
  ((decode_packet v).2 = true ->
     (d_i s < length (d_L s))%nat
     ∧ (Z.of_nat (S (d_i s)) < n -> (S (d_i s) < length (d_dsq s))%nat)) ->
  ∃ s', unpack_packet n v s = Ok s'.
Proof.
  intros Hroom Harr.
  destruct (packet_cases n v s) as [[E H]|[[E H]|[[E H]|[[E H]|[E H]]]]];
    rewrite H; clear H; rewrite E in Hroom, Harr; cbn [fst snd] in *.
  - apply put_all_ok. rewrite length_fmap in Hroom. lia.
  - apply put_all_ok. rewrite length_fmap in Hroom. lia.
  - destruct (put_all_ok 3 shifts2 v s) as [s1 E1]; [rewrite length_fmap in Hroom; lia|].
    rewrite E1. cbn. apply put_all_inv in E1 as ([H1 _ _ H4] & Hd & HL & Hi).
    rewrite length_fmap in *. destruct (Harr eq_refl) as [HaL Had].
    apply finalize_ok; rewrite ?Hd, ?HL, ?Hi, ?H1, ?H4; auto. lia.
  - destruct (put_until31_ok shifts5 v s) as [s1 E1]; [lia|].
    rewrite E1. cbn. apply put_until31_inv in E1 as ([H1 _ _ H4] & Hd & HL & Hi).
    destruct (Harr eq_refl) as [HaL Had].
    apply finalize_ok; rewrite ?Hd, ?HL, ?Hi, ?H1, ?H4; auto. lia.
  - eauto.
Qed.

Lemma unpack_packet_wrote n v s s' :
  unpack_packet n v s = Ok s' -> wrote s (packet_bytes v) s'.
Proof.
  intros Hrun. apply unpack_packet_inv in Hrun as (s1 & Hw & _ & Hf). unfold packet_bytes.
  destruct (decode_packet v).2.
  - apply finalize_inv in Hf as [Hw' _]. exact (wrote_app _ _ _ _ _ Hw Hw').
  - subst s'. rewrite app_nil_r. exact Hw.
Qed.

Section Decoder.

#[local] Arguments decode_packet : simpl never.
#[local] Arguments unpack_packet : simpl never.
#[local] Arguments packet_bytes : simpl never.
#[local] Arguments finalize : simpl never.
#[local] Arguments put_all : simpl never.
#[local] Arguments put_until31 : simpl never.

Lemma bind_Ok {A B} (f : A -> res B) (a : A) : (Ok a ≫= f) = f a.
Proof. reflexivity. Qed.

(** *** The packets of a chunk, one after the other *)

Lemma stream_bytes_cons v ps : stream_bytes (v :: ps) = packet_bytes v ++ stream_bytes ps.
Proof. unfold stream_bytes. rewrite fmap_cons. apply concat_cons. Qed.

Lemma List_filter_cons {A} (f : A -> bool) x l :
  List.filter f (x :: l) = if f x then x :: List.filter f l else List.filter f l.
Proof. reflexivity. Qed.

Lemma ends_cons v ps : ends (v :: ps) = ((if (decode_packet v).2 then 1 else 0) + ends ps)%nat.
Proof.
  unfold ends. rewrite List_filter_cons. destruct (decode_packet v).2; reflexivity.
Qed.

Lemma length_packet_bytes v :
  length (packet_bytes v)
  = (length (decode_packet v).1 + (if (decode_packet v).2 then 1 else 0))%nat.
Proof. unfold packet_bytes. rewrite length_app. destruct (decode_packet v).2; reflexivity. Qed.

Lemma finalize_lengths n s s' :
  finalize n s = Ok s' -> length (d_L s') = length (d_L s) ∧ length (d_dsq s') = length (d_dsq s).
Proof.
  intros H. apply finalize_inv in H as (_ & _ & _ & -> & -> & _).
  rewrite length_insert. split; [done|]. destruct (decide _); [apply length_insert | done].
Qed.

Lemma unpack_packet_arrays n v s s' :
  unpack_packet n v s = Ok s' ->
  length (d_L s') = length (d_L s) ∧ length (d_dsq s') = length (d_dsq s)
  ∧ d_i s' = (d_i s + (if (decode_packet v).2 then 1 else 0))%nat.
Proof.
  intros H. apply unpack_packet_inv in H as (s1 & _ & (Hd & HL & Hi) & Hf).
  destruct (decode_packet v).2.
  - pose proof (finalize_lengths _ _ _ Hf) as [H1 H2].
    apply finalize_inv in Hf as (_ & Hi' & _). rewrite H1, H2, Hi', Hd, HL, Hi. split_and!; lia.
  - subst s'. rewrite Hd, HL, Hi. split_and!; lia.
Qed.

(** The unpacker runs through when the arena and the arrays have room. *)
Lemma unpack_packets_ok n ps :
  ∀ s, (d_r s + length (stream_bytes ps) <= length (d_smem s))%nat ->
       (d_i s + ends ps <= length (d_L s))%nat ->
       (n <= Z.of_nat (length (d_dsq s))) ->
       ∃ s', unpack_packets n ps s = Ok s'
             ∧ wrote s (stream_bytes ps) s'
             ∧ d_i s' = (d_i s + ends ps)%nat
             ∧ length (d_L s') = length (d_L s) ∧ length (d_dsq s') = length (d_dsq s).
Proof.
  induction ps as [|v ps IH]; intros s Hroom HL Hd.
  - exists s. split; [done|]. split; [apply wrote_nil|]. unfold ends. simpl. split_and!; lia.
  - rewrite stream_bytes_cons, length_app, length_packet_bytes in Hroom. rewrite ends_cons in HL.
    destruct (unpack_packet_ok n v s) as [s1 E1].
    + lia.
    + intros E. rewrite E in HL. split; lia.
    + cbn [unpack_packets]. rewrite E1, bind_Ok.
      pose proof (unpack_packet_wrote _ _ _ _ E1) as Hw.
      pose proof (unpack_packet_arrays _ _ _ _ E1) as (HL1 & Hd1 & Hi1).
      destruct (IH s1) as (s' & Hrun & Hw' & Hi' & HL' & Hd').
      * rewrite (wrote_r _ _ _ Hw), (wrote_length _ _ _ Hw), length_packet_bytes. lia.
      * rewrite Hi1, HL1. lia.
      * rewrite Hd1. lia.
      * exists s'. split; [done|]. rewrite stream_bytes_cons, ends_cons.
        split; [exact (wrote_app _ _ _ _ _ Hw Hw')|]. split_and!; lia.
Qed.

Lemma unpack_packets_wrote n ps :
  ∀ s s', unpack_packets n ps s = Ok s' -> wrote s (stream_bytes ps) s'.
Proof.
  induction ps as [|v ps IH]; intros s s'; cbn [unpack_packets].
  - intros [= <-]. apply wrote_nil.
  - destruct (unpack_packet n v s) as [s1| | | |] eqn:E1; try done. rewrite bind_Ok. intros Hrun.
    rewrite stream_bytes_cons.
    exact (wrote_app _ _ _ _ _ (unpack_packet_wrote _ _ _ _ E1) (IH _ _ Hrun)).
Qed.

(** *** Reading the packets from the arena itself *)

Lemma wrote_load s xs s' a :
  wrote s xs s' -> (d_r s' <= a)%nat -> load_u32 (d_smem s') a = load_u32 (d_smem s) a.
Proof.
  intros Hw Ha. unfold load_u32.
  rewrite !(lookup_total_agree (d_smem s') (d_smem s) (d_r s')) by (apply Hw || lia).
  reflexivity.
Qed.

(** As long as the cursor has not passed a packet when its turn comes,
    the loop that reads the arena does what the one that reads a list
    of the packets does. *)
Lemma unpack_loop_pure psq0 n ps :
  ∀ pos s,
    (∀ j, (j < length ps)%nat -> load_u32 (d_smem s) (psq0 + 4 * (pos + j)) = ps !!! j) ->
    (∀ j, (j < length ps)%nat ->
          (d_r s + length (stream_bytes (take j ps)) <= psq0 + 4 * (pos + j))%nat) ->
    unpack_loop (length ps) pos psq0 n s = unpack_packets n ps s.
Proof.
  induction ps as [|v ps IH]; intros pos s Hload Hcur; [reflexivity|].
  cbn [length unpack_loop unpack_packets].
  pose proof (Hload 0%nat ltac:(simpl; lia)) as H0. rewrite Nat.add_0_r in H0.
  rewrite H0. cbn [lookup_total list_lookup_total].
  destruct (unpack_packet n v s) as [s1| | | |] eqn:E1; try done. rewrite !bind_Ok.
  pose proof (unpack_packet_wrote _ _ _ _ E1) as Hw.
  apply IH.
  - intros j Hj. rewrite (wrote_load s (packet_bytes v) s1) by
      (done || (specialize (Hcur (S j) ltac:(simpl; lia)); cbn [take] in Hcur;
                rewrite stream_bytes_cons, length_app in Hcur; rewrite (wrote_r _ _ _ Hw); lia)).
    replace (S pos + j)%nat with (pos + S j)%nat by lia.
    rewrite Hload by (simpl; lia). reflexivity.
  - intros j Hj. specialize (Hcur (S j) ltac:(simpl; lia)). cbn [take] in Hcur.
    rewrite stream_bytes_cons, length_app in Hcur. rewrite (wrote_r _ _ _ Hw). lia.
Qed.

(** *** How far a packet moves the cursor *)

Lemma length_until31 xs : (length (until31 xs) <= length xs)%nat.
Proof.
  induction xs as [|x xs IH]; simpl; [lia|]. destruct (decide (x = 31)); simpl; lia.
Qed.

Lemma decode_packet_length v : (length (decode_packet v).1 <= 15)%nat.
Proof.
  destruct (decode_packet_cases v) as [[_ ->]|[[_ ->]|[[_ ->]|[[_ ->]|[_ ->]]]]]; cbn [fst].
  - rewrite length_fmap. simpl. lia.
  - rewrite length_fmap. simpl. lia.
  - rewrite length_fmap. simpl. lia.
  - etrans; [apply length_until31|]. rewrite length_fmap. simpl. lia.
  - simpl. lia.
Qed.

Lemma decode_packet_length5 v :
  Z.testbit v 30 = true -> (length (decode_packet v).1 <= 6)%nat.
Proof.
  intros Hb. rewrite Z.testbit_odd in Hb.
  destruct (decode_packet_cases v) as [[E ->]|[[_ ->]|[[E ->]|[[_ ->]|[_ ->]]]]]; cbn [fst].
  - rewrite E in Hb. discriminate.
  - rewrite length_fmap. simpl. lia.
  - rewrite E in Hb. discriminate.
  - etrans; [apply length_until31|]. rewrite length_fmap. simpl. lia.
  - simpl. lia.
Qed.

Lemma decode_packet_eod v : 0 <= v < 2 ^ 32 -> (decode_packet v).2 = Z.testbit v 31.
Proof.
  intros Hv. rewrite Z.testbit_odd. change 31 with (30 + 1).
  rewrite <- Z.shiftr_shiftr by lia.
  assert (0 <= v ≫ 30 <= 3).
  { rewrite Z.shiftr_div_pow2 by lia. change (2 ^ 32) with 4294967296 in Hv.
    change (2 ^ 30) with 1073741824. Z.div_mod_to_equations. lia. }
  destruct (decode_packet_cases v) as [[E ->]|[[E ->]|[[E ->]|[[E ->]|[E ->]]]]];
    cbn [snd]; try (rewrite E; reflexivity). lia.
Qed.

Lemma ends_eod_count ps : Forall (fun v => 0 <= v < 2 ^ 32) ps -> ends ps = eod_count ps.
Proof.
  intros HF. unfold ends, eod_count. f_equal.
  induction HF as [|v ps Hv HF IH]; [reflexivity|].
  rewrite !List_filter_cons, IH, decode_packet_eod by done. reflexivity.
Qed.

(** [rpp] residues a packet at most, and a sentinel for each end of a
    sequence. *)
Lemma stream_bytes_length (rpp : nat) ps :
  Forall (fun v => (length (decode_packet v).1 <= rpp)%nat) ps ->
  (length (stream_bytes ps) <= rpp * length ps + ends ps)%nat.
Proof.
  induction 1 as [|v ps Hv HF IH]; [change (stream_bytes []) with (@nil Z); simpl; lia|].
  rewrite stream_bytes_cons, length_app, length_packet_bytes, ends_cons.
  change (length (v :: ps)) with (S (length ps)).
  destruct (decode_packet v).2; lia.
Qed.

Lemma ends_take j ps : (ends (take j ps) <= ends ps)%nat.
Proof.
  revert j. induction ps as [|v ps IH]; intros j; [by rewrite take_nil|].
  destruct j as [|j]; [simpl; unfold ends at 1; simpl; lia|].
  cbn [take]. rewrite !ends_cons. specialize (IH j). lia.
Qed.

Lemma smem_size_eq dd :
  smem_size dd = (residues_per_packet dd * chunk_maxpacket dd + chunk_maxseq dd + 1)%nat.
Proof. unfold smem_size, residues_per_packet. destruct (pack5 dd); lia. Qed.

(** *** The start of the decoder *)

Lemma decoder_start_ok chu :
  (0 < length (dsq chu))%nat -> (0 < length (smem chu))%nat ->
  ∃ s0, decoder_start chu = Ok s0
        ∧ d_r s0 = 1%nat ∧ d_i s0 = 0%nat
        ∧ d_smem s0 = <[0%nat := eslDSQ_SENTINEL]> (smem chu)
        ∧ d_dsq s0 = <[0%nat := 0]> (dsq chu) ∧ d_L s0 = L chu.
Proof.
  intros Hd Hs. unfold decoder_start. rewrite poke_ok by done. rewrite bind_Ok.
  unfold put. cbn [d_r d_smem d_dsq d_L d_i]. rewrite decide_True by done.
  eexists. split; [reflexivity|]. done.
Qed.

Lemma rpp_bound dd ps :
  (pack5 dd = true -> Forall (fun v => Z.testbit v 30 = true) ps) ->
  Forall (fun v => (length (decode_packet v).1 <= residues_per_packet dd)%nat) ps.
Proof.
  intros H5. unfold residues_per_packet. destruct (pack5 dd).
  - eapply Forall_impl; [exact (H5 eq_refl)|]. intros v Hv. by apply decode_packet_length5.
  - apply Forall_forall. intros v _. apply decode_packet_length.
Qed.

Lemma unpack_loop_take psq0 n ps j pos s :
  (j <= length ps)%nat ->
  (∀ i, (i < length ps)%nat -> load_u32 (d_smem s) (psq0 + 4 * (pos + i)) = ps !!! i) ->
  (∀ i, (i < length ps)%nat ->
        (d_r s + length (stream_bytes (take i ps)) <= psq0 + 4 * (pos + i))%nat) ->
  unpack_loop j pos psq0 n s = unpack_packets n (take j ps) s.
Proof.
  intros Hj Hload Hcur.
  rewrite <- (unpack_loop_pure psq0 n (take j ps) pos s).
  - rewrite length_take. f_equal. lia.
  - intros i Hi. rewrite length_take in Hi. rewrite Hload by lia.
    rewrite lookup_total_take, decide_True by lia. reflexivity.
  - intros i Hi. rewrite length_take in Hi. rewrite take_take.
    replace (i `min` j)%nat with i by lia. apply Hcur. lia.
Qed.

(** The run of the decoder over the arena of a chunk that holds what
    it was made to hold. *)
Lemma arena_run dd chu ps :
  chunk_holds dd chu ps ->
  (0 < chunk_maxseq dd)%nat ->
  (length ps <= chunk_maxpacket dd)%nat ->
  N chu <= Z.of_nat (chunk_maxseq dd) ->
  Z.of_nat (eod_count ps) = N chu ->
  (pack5 dd = true -> Forall (fun v => Z.testbit v 30 = true) ps) ->
  ∃ s0, decoder_start chu = Ok s0
    ∧ d_r s0 = 1%nat
    ∧ (∀ i, (i < length ps)%nat ->
         load_u32 (d_smem s0) (psq chu + 4 * (0 + i)) = ps !!! i)
    ∧ (∀ i, (i < length ps)%nat ->
         (d_r s0 + length (stream_bytes (take i ps)) <= psq chu + 4 * (0 + i))%nat)
    ∧ ∃ s, unpack_packets (N chu) ps s0 = Ok s ∧ (d_r s <= smem_size dd)%nat.
Proof.
  intros [Hsm Hpsq Hdsq HL Hpn Hw Hu32] HM HP HN Heod H5.
  pose proof (smem_size_eq dd) as HU.
  pose proof (rpp_bound dd ps H5) as Hrpp.
  assert (Hr : (6 <= residues_per_packet dd)%nat)
    by (unfold residues_per_packet; destruct (pack5 dd); lia).
  set (R := residues_per_packet dd) in *. set (P := chunk_maxpacket dd) in *.
  set (M := chunk_maxseq dd) in *.
  assert (HRP : (R * length ps <= R * P)%nat) by (apply Nat.mul_le_mono_l; lia).
  assert (H4P : (4 * P <= R * P)%nat) by (apply Nat.mul_le_mono_r; lia).
  destruct (decoder_start_ok chu) as (s0 & Hs0 & Hr0 & Hi0 & Hsm0 & Hd0 & HL0); [lia..|].
  assert (Hends : ends ps = eod_count ps) by (by apply ends_eod_count).
  exists s0. split; [exact Hs0|]. split; [exact Hr0|]. split; [|split].
  - intros i Hi. rewrite Hsm0, load_insert_other by lia.
    pose proof (lookup_words (smem chu) (psq chu) (length ps) i Hi) as Hlw.
    rewrite Hw in Hlw. simpl. by rewrite (list_lookup_total_correct _ _ _ Hlw).
  - intros i Hi. rewrite Hr0.
    pose proof (stream_bytes_length R (take i ps) ltac:(by apply Forall_take)) as Hb.
    rewrite length_take in Hb. pose proof (ends_take i ps).
    assert ((R - 4) * i <= (R - 4) * P)%nat by (apply Nat.mul_le_mono_l; lia).
    replace (i `min` length ps)%nat with i in Hb by lia. nia.
  - pose proof (stream_bytes_length R ps Hrpp) as Hb.
    destruct (unpack_packets_ok (N chu) ps s0) as (s & Hrun & Hwr & _).
    + rewrite Hr0, Hsm0, length_insert. lia.
    + rewrite Hi0, HL0. lia.
    + rewrite Hd0, length_insert. lia.
    + exists s. split; [exact Hrun|]. rewrite (wrote_r _ _ _ Hwr). lia.
Qed.

(** The arena is large enough, and the packets at its end are read
    before the residues reach them. *)
Lemma arena_trick dd chu ps :
  chunk_holds dd chu ps ->
  (0 < chunk_maxseq dd)%nat ->
  (length ps <= chunk_maxpacket dd)%nat ->
  N chu <= Z.of_nat (chunk_maxseq dd) ->
  Z.of_nat (eod_count ps) = N chu ->
  (pack5 dd = true -> Forall (fun v => Z.testbit v 30 = true) ps) ->
  unpacks_in_place chu ps (smem_size dd).
Proof.
  intros Hh HM HP HN Heod H5.
  destruct (arena_run dd chu ps Hh HM HP HN Heod H5)
    as (s0 & Hs0 & Hr0 & Hload0 & Hcur0 & s & Hrun & Hrs).
  exists s0. split; [exact Hs0|]. split.
  - intros j sj Hj Hrunj.
    rewrite (unpack_loop_take (psq chu) (N chu) ps j 0%nat s0) in Hrunj by (lia || done).
    apply unpack_packets_wrote in Hrunj.
    assert (Hrj : (d_r sj <= psq chu + 4 * j)%nat).
    { rewrite (wrote_r _ _ _ Hrunj). specialize (Hcur0 j Hj). simpl in Hcur0. lia. }
    split; [exact Hrj|].
    rewrite (wrote_load _ _ _ _ Hrunj) by lia. specialize (Hload0 j Hj). simpl in Hload0. done.
  - rewrite (unpack_loop_pure (psq chu) (N chu) ps 0%nat s0) by done. eauto.
Qed.

(** *** The layout of the unpacked arena *)

Lemma sequences_cons cur v ps :
  sequences cur (v :: ps)
  = if (decode_packet v).2 then (cur ++ (decode_packet v).1) :: sequences [] ps
    else sequences (cur ++ (decode_packet v).1) ps.
Proof. cbn [sequences]. destruct (decode_packet v) as [xs eod]. reflexivity. Qed.

Lemma length_sequences cur ps : length (sequences cur ps) = ends ps.
Proof.
  revert cur. induction ps as [|v ps IH]; intros cur; [reflexivity|].
  rewrite sequences_cons, ends_cons. destruct (decode_packet v).2; cbn [length]; rewrite IH; lia.
Qed.

Lemma offset_of_length done :
  length (concat ((fun x => eslDSQ_SENTINEL :: x) <$> done)) = offset_of done (length done).
Proof.
  unfold offset_of. rewrite firstn_all. induction done as [|x done IH]; [reflexivity|].
  rewrite fmap_cons, concat_cons, length_app, IH. reflexivity.
Qed.

Lemma offset_of_app_le done more i :
  (i <= length done)%nat -> offset_of (done ++ more) i = offset_of done i.
Proof. intros Hi. unfold offset_of. by rewrite take_app_le. Qed.

Lemma offset_of_snoc done cur :
  offset_of (done ++ [cur]) (S (length done))
  = (offset_of done (length done) + S (length cur))%nat.
Proof.
  unfold offset_of. rewrite take_app_ge by lia.
  replace (S (length done) - length done)%nat with 1%nat by lia.
  rewrite firstn_all, sum_list_with_app. simpl. lia.
Qed.

Lemma length_arena_image done cur :
  length (arena_image done cur) = (offset_of done (length done) + S (length cur))%nat.
Proof. unfold arena_image. rewrite length_app, offset_of_length. reflexivity. Qed.

Lemma arena_image_app done cur xs : arena_image done (cur ++ xs) = arena_image done cur ++ xs.
Proof. unfold arena_image. by rewrite <- app_assoc. Qed.

Lemma arena_image_snoc done cur :
  arena_image (done ++ [cur]) [] = arena_image done cur ++ [eslDSQ_SENTINEL].
Proof.
  unfold arena_image. rewrite fmap_app, concat_app. simpl. rewrite app_nil_r, <- !app_assoc.
  reflexivity.
Qed.

Lemma layout_wrote n s done cur xs s1 :
  layout n s done cur -> wrote s xs s1 -> same_arrays s s1 -> layout n s1 done (cur ++ xs).
Proof.
  intros [Hi Hr Hsm HL Hd] [W1 W2 W3 W4] (Sd & SL & Si). split.
  - congruence.
  - rewrite W1, Hr, arena_image_app, length_app. reflexivity.
  - rewrite W2, Hsm, arena_image_app. reflexivity.
  - intros i x Hx Hn. rewrite SL. by apply HL.
  - intros i Hx Hn. rewrite Sd. by apply Hd.
Qed.

Lemma layout_finalize n s done cur s' :
  layout n s done cur -> finalize n s = Ok s' -> layout n s' (done ++ [cur]) [].
Proof.
  intros [Hi Hr Hsm HL Hd] Hf.
  apply finalize_inv in Hf as ([W1 W2 W3 W4] & Fi & FiL & FL & Fd & Fid).
  pose proof (length_arena_image done cur) as Hlen.
  split.
  - rewrite Fi, Hi, length_app. simpl. lia.
  - rewrite W1, Hr, arena_image_snoc, length_app. reflexivity.
  - rewrite W2, Hsm, arena_image_snoc. reflexivity.
  - intros i x Hx Hn. rewrite FL.
    destruct (decide (i = length done)) as [->|Hne].
    + rewrite lookup_app_r, Nat.sub_diag in Hx by lia. injection Hx as <-.
      pose proof (Hd (length done) ltac:(lia) Hn) as Hdl.
      apply list_lookup_total_correct in Hdl.
      rewrite Hi, list_lookup_insert_eq by lia. f_equal. rewrite Hdl. lia.
    + assert (i < length done)%nat.
      { apply lookup_lt_Some in Hx. rewrite length_app in Hx. simpl in Hx. lia. }
      rewrite list_lookup_insert_ne by lia. apply HL; [|done].
      by rewrite lookup_app_l in Hx by lia.
  - intros i Hx Hn. rewrite length_app in Hx. simpl in Hx. rewrite Fd.
    destruct (decide (i = S (length done))) as [->|Hne].
    + rewrite Hi. rewrite decide_True by lia. rewrite list_lookup_insert_eq by (rewrite <- Hi; auto with lia).
      rewrite offset_of_snoc. do 2 f_equal. lia.
    + rewrite offset_of_app_le by lia.
      destruct (decide _); [rewrite list_lookup_insert_ne by lia|]; apply Hd; lia.
Qed.

Lemma layout_packet n v s done cur s' :
  layout n s done cur -> unpack_packet n v s = Ok s' ->
  if (decode_packet v).2 then layout n s' (done ++ [cur ++ (decode_packet v).1]) []
  else layout n s' done (cur ++ (decode_packet v).1).
Proof.
  intros Hl Hrun. apply unpack_packet_inv in Hrun as (s1 & Hw & Hs & Hf).
  pose proof (layout_wrote _ _ _ _ _ _ Hl Hw Hs) as Hl1.
  destruct (decode_packet v).2.
  - exact (layout_finalize _ _ _ _ _ Hl1 Hf).
  - by subst s'.
Qed.

Lemma layout_packets n ps :
  ∀ s done cur s', layout n s done cur -> unpack_packets n ps s = Ok s' ->
                   layout n s' (done ++ sequences cur ps) (pending cur ps).
Proof.
  induction ps as [|v ps IH]; intros s done cur s' Hl; cbn [unpack_packets pending].
  - intros [= <-]. by rewrite app_nil_r.
  - destruct (unpack_packet n v s) as [s1| | | |] eqn:E1; try done. rewrite bind_Ok.
    intros Hrun. pose proof (layout_packet _ _ _ _ _ _ Hl E1) as Hl1.
    rewrite sequences_cons. destruct (decode_packet v).2.
    + specialize (IH _ _ _ _ Hl1 Hrun). by rewrite <- app_assoc in IH.
    + exact (IH _ _ _ _ Hl1 Hrun).
Qed.

Lemma layout_start chu s0 :
  decoder_start chu = Ok s0 -> layout (N chu) s0 [] [].
Proof.
  unfold decoder_start. destruct (poke (dsq chu) 0 0) as [dsq0| | | |] eqn:Ep; try done.
  rewrite bind_Ok. apply poke_inv in Ep as [Hd ->]. intros Hput.
  apply put_inv in Hput as (Hr & [W1 W2 W3 W4] & Sd & SL & Si). simpl in *.
  split.
  - done.
  - rewrite W1. reflexivity.
  - rewrite W2. reflexivity.
  - intros i x Hx. done.
  - intros i Hi Hn. simpl in Hi. replace i with 0%nat by lia.
    rewrite Sd, list_lookup_insert_eq by done. reflexivity.
Qed.

(** *** The unpacked chunk *)

Lemma dsqdata_unpack_chunk_inv debug chu chu' :
  dsqdata_unpack_chunk debug chu = Ok chu' ->
  ∃ m s0 s,
    unpack_metadata (Z.to_nat (N chu)) (metadata chu) (mdalloc chu) 0
      {| m_name := name chu; m_acc := acc chu; m_desc := desc chu;
         m_taxid := taxid chu; m_ptr := 0 |} = Ok m
    ∧ decoder_start chu = Ok s0
    ∧ unpack_loop (Z.to_nat (pn chu)) 0 (psq chu) (N chu) s0 = Ok s
    ∧ (debug = true -> Z.of_nat (d_i s) = N chu)
    ∧ chu' = {| i0 := i0 chu; N := N chu; pn := pn chu;
                dsq := d_dsq s; name := m_name m; acc := m_acc m; desc := m_desc m;
                taxid := m_taxid m; L := d_L s;
                metadata := metadata chu; mdalloc := mdalloc chu;
                smem := d_smem s; psq := psq chu |}.
Proof.
  unfold dsqdata_unpack_chunk.
  destruct (unpack_metadata _ _ _ _ _) as [m| | | |] eqn:Em; try done. rewrite bind_Ok.
  destruct (decoder_start chu) as [s0| | | |] eqn:E0; try done. rewrite bind_Ok.
  destruct (unpack_loop _ _ _ _ s0) as [s| | | |] eqn:Es; try done. rewrite bind_Ok.
  unfold ESL_DASSERT1.
  destruct debug, (bool_decide (Z.of_nat (d_i s) = N chu)) eqn:Eb; cbn [andb negb];
    try done; rewrite bind_Ok; intros [= <-]; exists m, s0, s; split_and!; try done.
  intros _. by apply bool_decide_eq_true_1 in Eb.
Qed.

Lemma arena_image_lookup done cur i x :
  done !! i = Some x ->
  ∃ post, arena_image done cur
          = take (offset_of done i) (arena_image done cur)
            ++ eslDSQ_SENTINEL :: x ++ eslDSQ_SENTINEL :: post
        ∧ length (take (offset_of done i) (arena_image done cur)) = offset_of done i.
Proof.
  intros Hx. pose proof (take_drop_middle done i x Hx) as Hsplit.
  assert (Hpost : ∃ post, concat ((fun y => eslDSQ_SENTINEL :: y) <$> drop (S i) done)
                          ++ eslDSQ_SENTINEL :: cur = eslDSQ_SENTINEL :: post).
  { destruct (drop (S i) done) as [|y rest]; simpl; eauto. }
  destruct Hpost as [post Hpost]. exists post.
  assert (Hoff : length (concat ((fun y => eslDSQ_SENTINEL :: y) <$> take i done))
                 = offset_of done i).
  { rewrite offset_of_length. unfold offset_of. by rewrite firstn_all. }
  assert (Himg : arena_image done cur
                 = concat ((fun y => eslDSQ_SENTINEL :: y) <$> take i done)
                   ++ eslDSQ_SENTINEL :: x ++ eslDSQ_SENTINEL :: post).
  { unfold arena_image. rewrite <- Hsplit at 1.
    rewrite fmap_app, concat_app, fmap_cons, concat_cons, <- !app_assoc. simpl.
    rewrite <- Hpost. reflexivity. }
  rewrite Himg at 1 2 3. rewrite <- Hoff at 1 2. rewrite take_app_length. split; [reflexivity|].
  exact Hoff.
Qed.

(** Where the sequences lie in the arena of an unpacked chunk. *)
Lemma chunk_layout dd chu ps debug chu' :
  chunk_holds dd chu ps ->
  (length ps <= chunk_maxpacket dd)%nat ->
  N chu <= Z.of_nat (chunk_maxseq dd) ->
  Z.of_nat (eod_count ps) = N chu ->
  (pack5 dd = true -> Forall (fun v => Z.testbit v 30 = true) ps) ->
  dsqdata_unpack_chunk debug chu = Ok chu' ->
  ∀ i, Z.of_nat i < N chu ->
    ∃ x, sequences [] ps !! i = Some x
      ∧ dsq chu' !! i = Some (Z.of_nat (offset_of (sequences [] ps) i))
      ∧ smem chu' !! offset_of (sequences [] ps) i = Some eslDSQ_SENTINEL
      ∧ take (length x) (drop (S (offset_of (sequences [] ps) i)) (smem chu')) = x
      ∧ smem chu' !! (offset_of (sequences [] ps) i + length x + 1)%nat = Some eslDSQ_SENTINEL
      ∧ offset_of (sequences [] ps) (S i) = (offset_of (sequences [] ps) i + length x + 1)%nat
      ∧ L chu' !! i = Some (Z.of_nat (length x)).
Proof.
  intros Hh HP HN Heod H5 Hrun i Hi.
  apply dsqdata_unpack_chunk_inv in Hrun as (m & s0 & s & _ & Hs0 & Hloop & _ & ->).
  cbn [dsq smem L].
  assert (HM : (0 < chunk_maxseq dd)%nat) by lia.
  destruct (arena_run dd chu ps Hh HM HP HN Heod H5)
    as (s0' & Hs0' & Hr0 & Hload0 & Hcur0 & s' & Hrun & Hrs).
  rewrite Hs0 in Hs0'. injection Hs0' as <-.
  rewrite (holds_pn _ _ _ Hh), Nat2Z.id in Hloop.
  rewrite (unpack_loop_pure (psq chu) (N chu) ps 0%nat s0), Hrun in Hloop by done.
  injection Hloop as ->.
  pose proof (layout_packets _ _ _ _ _ _ (layout_start _ _ Hs0) Hrun) as Hlay.
  rewrite app_nil_l in Hlay. destruct Hlay as [Li Lr Lsm LL Ld].
  set (seqs := sequences [] ps) in *.
  assert (Hlen : length seqs = Z.to_nat (N chu)).
  { unfold seqs. rewrite length_sequences, (ends_eod_count ps (holds_u32 _ _ _ Hh)). lia. }
  destruct (lookup_lt_is_Some_2 seqs i ltac:(lia)) as [x Hx]. exists x.
  destruct (arena_image_lookup seqs (pending [] ps) i x Hx) as (post & Himg & Hoff).
  set (pre := take (offset_of seqs i) (arena_image seqs (pending [] ps))) in *.
  assert (Hsmem : ∀ k y, (pre ++ eslDSQ_SENTINEL :: x ++ eslDSQ_SENTINEL :: post) !! k = Some y ->
                         d_smem s !! k = Some y).
  { intros k y Hk. rewrite <- Himg, <- Lsm in Hk. by apply lookup_take_Some in Hk as [? _]. }
  split; [done|]. split; [apply Ld; lia|]. split; [|split; [|split; [|split]]].
  - apply Hsmem. rewrite lookup_app_r, Hoff, Nat.sub_diag by lia. reflexivity.
  - apply list_eq. intros k. destruct (decide (k < length x)%nat) as [Hk|Hk].
    + rewrite lookup_take_lt, lookup_drop by lia.
      destruct (lookup_lt_is_Some_2 x k Hk) as [y Hy]. rewrite Hy. apply Hsmem.
      rewrite lookup_app_r, Hoff by lia.
      replace (S (offset_of seqs i) + k - offset_of seqs i)%nat with (S k) by lia.
      simpl. by rewrite lookup_app_l by lia.
    + rewrite lookup_take_ge by lia. symmetry. apply lookup_ge_None. lia.
  - apply Hsmem. rewrite lookup_app_r, Hoff by lia.
    replace (offset_of seqs i + length x + 1 - offset_of seqs i)%nat with (S (length x)) by lia.
    simpl. rewrite lookup_app_r, Nat.sub_diag by lia. reflexivity.
  - unfold offset_of. rewrite (take_S_r _ _ _ Hx), sum_list_with_app. simpl. lia.
  - apply LL; [done | lia].
Qed.

(** ** The loader *)

Lemma fits_mono idx psq_last maxpacket i j :
  nondecreasing idx -> (1 <= i <= j)%nat -> (j <= length idx)%nat ->
  fits idx psq_last maxpacket j = true -> fits idx psq_last maxpacket i = true.
Proof.
  intros Hs Hij Hj. unfold fits. rewrite !bool_decide_eq_true. intros H.
  specialize (Hs (i - 1)%nat (j - 1)%nat ltac:(lia)). lia.
Qed.

Lemma nload_search_spec idx psq_last maxpacket :
  ∀ fuel nload righti,
    (1 <= nload < righti)%nat -> (righti - nload <= S fuel)%nat ->
    fits idx psq_last maxpacket nload = true ->
    fits idx psq_last maxpacket righti = false ->
    ∃ k, nload_search fuel idx psq_last maxpacket nload righti = Ok k
         ∧ (nload <= k < righti)%nat
         ∧ fits idx psq_last maxpacket k = true
         ∧ fits idx psq_last maxpacket (S k) = false.
Proof.
  induction fuel as [|fuel IH]; intros nload righti Hlr Hfuel Hlo Hhi.
  - assert (righti = S nload) by lia. subst righti.
    simpl. replace (1 <? S nload - nload)%nat with false by (symmetry; apply Nat.ltb_ge; lia).
    exists nload. split_and!; (done || lia).
  - cbn [nload_search]. destruct (1 <? righti - nload)%nat eqn:E.
    + apply Nat.ltb_lt in E.
      assert (Hmid : (nload < nload + (righti - nload) / 2 < righti)%nat) by dlia.
      set (mid := (nload + (righti - nload) / 2)%nat) in *.
      destruct (fits idx psq_last maxpacket mid) eqn:Em.
      * destruct (IH mid righti) as (k & Hk & Hr & H1 & H2); try (done || lia).
        exists k. split_and!; (done || lia).
      * destruct (IH nload mid) as (k & Hk & Hr & H1 & H2); try (done || lia).
        exists k. split_and!; (done || lia).
    + apply Nat.ltb_ge in E. assert (righti = S nload) by lia. subst righti.
      exists nload. split_and!; (done || lia).
Qed.

(** [loader_nload] returns, and what it returns is the largest prefix
    that fits. *)
Lemma loader_nload_spec debug idx psq_last maxpacket :
  (1 <= length idx)%nat -> nondecreasing idx ->
  fits idx psq_last maxpacket 1 = true ->
  ∃ nload, loader_nload debug idx (length idx) psq_last maxpacket = Ok nload
    ∧ (1 <= nload <= length idx)%nat
    ∧ fits idx psq_last maxpacket nload = true
    ∧ (∀ i, (1 <= i <= length idx)%nat -> fits idx psq_last maxpacket i = true -> (i <= nload)%nat).
Proof.
  intros Hn Hs H1. unfold loader_nload, ESL_DASSERT1. rewrite H1.
  replace (debug && negb true) with false by (destruct debug; reflexivity).
  rewrite bind_Ok.
  destruct (fits idx psq_last maxpacket (length idx)) eqn:Eall.
  - exists (length idx). split_and!; (done || lia || (intros; lia)).
  - assert (length idx ≠ 1%nat) by (intros E; rewrite E in Eall; congruence).
    destruct (nload_search_spec idx psq_last maxpacket (length idx) 1%nat (length idx))
      as (k & Hk & Hr & Hfit & Hnot); try (done || lia).
    exists k. split_and!; try (done || lia).
    intros i Hi Hfi. destruct (decide (i <= k)%nat); [done|]. exfalso.
    rewrite (fits_mono idx psq_last maxpacket (S k) i Hs) in Hnot by (lia || done).
    discriminate.
Qed.

Lemma length_refilled dd ld :
  (length (ld_idx ld) <= chunk_maxseq dd)%nat -> (length (refilled dd ld) <= chunk_maxseq dd)%nat.
Proof.
  intros H. unfold refilled. rewrite length_app, length_drop, length_take. lia.
Qed.

Lemma loader_turn_chunk debug dd ld chu ld' chu' nload :
  refilled dd ld ≠ [] ->
  loader_nload debug (refilled dd ld) (length (refilled dd ld)) (ld_psq_last ld)
    (chunk_maxpacket dd) = Ok nload ->
  loader_turn debug dd ld chu = Ok (ld', chu') ->
  N chu' = Z.of_nat nload
  ∧ pn chu' = psq_end (refilled dd ld !!! (nload - 1)%nat) - ld_psq_last ld.
Proof.
  intros Hne Hnl. unfold loader_turn. cbv zeta. fold (refilled dd ld).
  rewrite decide_False by (intros E; apply Hne; by apply nil_length_inv).
  rewrite Hnl, bind_Ok.
  destruct (fread_exact _ _ (ld_sfp ld)) as [[packets sfp']| | | |]; try done. rewrite bind_Ok.
  destruct (fread_exact _ _ (ld_mfp ld)) as [[bytes mfp']| | | |]; try done. rewrite bind_Ok.
  intros [= <- <-]. done.
Qed.

(** An [fread] of a count that the destination has room for and the
    file still holds. *)
Lemma fread_exact_enough {A} (want : Z) (room : nat) (file : list A) :
  0 <= want <= Z.of_nat room -> want <= Z.of_nat (length file) ->
  fread_exact want room file = Ok (take (Z.to_nat want) file, drop (Z.to_nat want) file).
Proof.
  intros H1 H2. unfold fread_exact.
  rewrite decide_False by lia. rewrite decide_False by lia. reflexivity.
Qed.

(** With the packets and the metadata bytes of the records it takes
    still in the files, a turn of the loader ends with a chunk. *)
Lemma loader_turn_emits debug dd ld chu nload :
  refilled dd ld ≠ [] ->
  loader_nload debug (refilled dd ld) (length (refilled dd ld)) (ld_psq_last ld)
    (chunk_maxpacket dd) = Ok nload ->
  0 <= psq_end (refilled dd ld !!! (nload - 1)%nat) - ld_psq_last ld
    <= Z.of_nat (chunk_maxpacket dd) ->
  psq_end (refilled dd ld !!! (nload - 1)%nat) - ld_psq_last ld
    <= Z.of_nat (length (ld_sfp ld)) ->
  0 <= metadata_end (refilled dd ld !!! (nload - 1)%nat) - ld_meta_last ld
    <= Z.of_nat (length (ld_mfp ld)) ->
  ∃ ld' chu', loader_turn debug dd ld chu = Ok (ld', chu')
    ∧ ld_nload ld' = nload
    ∧ ld_psq_last ld' = psq_end (refilled dd ld !!! (nload - 1)%nat)
    ∧ ld_done ld' = false.
Proof.
  intros Hne Hnl Hpn Hs Hm. unfold loader_turn. cbv zeta. fold (refilled dd ld).
  rewrite decide_False by (intros E; apply Hne; by apply nil_length_inv).
  rewrite Hnl, bind_Ok.
  rewrite (fread_exact_enough _ (chunk_maxpacket dd) (ld_sfp ld) Hpn Hs), bind_Ok.
  cbv beta iota.
  set (nmeta := metadata_end (refilled dd ld !!! (nload - 1)%nat) - ld_meta_last ld) in *.
  assert (Hroom : 0 <= nmeta
            <= Z.of_nat (if decide (Z.of_nat (mdalloc chu) < nmeta) then Z.to_nat nmeta
                         else mdalloc chu)) by (destruct (decide _); lia).
  rewrite (fread_exact_enough nmeta _ (ld_mfp ld) Hroom (proj2 Hm)), bind_Ok.
  eexists _, _. split; [reflexivity|]. done.
Qed.

(** ** Reading chunks, and the end of the data *)

Lemma eof_phase_start : eof_phase system_start 0.
Proof. left. simpl. split_and!; done. Qed.

Lemma unpack_keeps_N debug chu chu' : dsqdata_unpack_chunk debug chu = Ok chu' -> N chu' = N chu.
Proof. intros H. apply dsqdata_unpack_chunk_inv in H as (m & s0 & s & _ & _ & _ & _ & ->). done. Qed.

Lemma eof_phase_step debug a s k s' e :
  eof_phase s k -> step debug a s = Some (s', e) ->
  eof_phase s' (k + count_eof e)
  ∧ (at_eof s = true -> at_eof s' = true ∧ is_take e = false)
  ∧ (takes_eof e = true -> at_eof s' = true).
Proof.
  intros Hph Hstep. destruct a as [t|t|t|chu|chu| | |]; simpl in Hstep.
  - (* Read_call *)
    unfold Read_enter in Hstep. destruct (readers s !! t); [done|].
    destruct (at_eof s) eqn:Eeof; injection Hstep as <- <-; simpl.
    + rewrite <- Eeof at 1. phase_same Hph.
    + phase_same Hph.
  - (* Read_take *)
    unfold Read_critical in Hstep. destruct (readers s !! t) as [[|]|]; try done.
    destruct (unpacker_outbox s) as [chu|] eqn:Ebox; [|done].
    injection Hstep as <- <-. unfold count_eof. simpl.
    destruct Hph as [(H1 & H2 & H3 & H4 & H5)|[(H1 & H2 & H3 & c & H4 & H5)|(H1 & H2 & H3 & H4)]].
    + rewrite (H4 chu Ebox). rewrite Nat.add_0_r. split_and!; try congruence.
      left. simpl. split_and!; done.
    + rewrite Ebox in H4. injection H4 as ->. rewrite H5. split_and!; try congruence.
      right; right. simpl. split_and!; (done || lia).
    + congruence.
  - (* Read_return *)
    unfold Read_leave in Hstep. destruct (readers s !! t) as [[|chu]|]; try done.
    destruct (is_eof_chunk chu); injection Hstep as <- <-; simpl; phase_same Hph.
  - (* Recycle_call *)
    injection Hstep as <- <-. simpl. phase_same Hph.
  - (* Loader_put *)
    unfold loader_put in Hstep. destruct (loader_outbox s); [done|].
    injection Hstep as <- <-. simpl. phase_same Hph.
  - (* Loader_pop *)
    unfold loader_pop in Hstep. destruct (recycling s); [done|].
    injection Hstep as <- <-. simpl. phase_same Hph.
  - (* Unpacker_take *)
    unfold unpacker_take in Hstep. destruct (unpacker s) eqn:Eu; try done.
    destruct (loader_outbox s) as [chu|]; [|done].
    destruct (is_eof_chunk chu) eqn:Ec.
    + injection Hstep as <- <-. simpl. rewrite Nat.add_0_r.
      destruct Hph as [(H1 & H2 & H3 & H4 & H5)|[(H1 & H2 & H3 & _)|(H1 & H2 & H3 & _)]];
        try congruence.
      split_and!; try congruence. left. simpl. split_and!; try done. by intros c d [= <- <-].
    + destruct (dsqdata_unpack_chunk debug chu) as [chu'| | | |] eqn:Eun; try done.
      injection Hstep as <- <-. simpl. rewrite Nat.add_0_r.
      destruct Hph as [(H1 & H2 & H3 & H4 & H5)|[(H1 & H2 & H3 & _)|(H1 & H2 & H3 & _)]];
        try congruence.
      split_and!; try congruence. left. simpl. split_and!; try done.
      intros c d [= <- <-]. unfold is_eof_chunk in *.
      by rewrite (unpack_keeps_N _ _ _ Eun).
  - (* Unpacker_put *)
    unfold unpacker_put in Hstep. destruct (unpacker s) as [|chu d|] eqn:Eu; try done.
    destruct (unpacker_outbox s) eqn:Ebox; [done|].
    injection Hstep as <- <-. simpl. rewrite Nat.add_0_r.
    destruct Hph as [(H1 & H2 & H3 & H4 & H5)|[(H1 & H2 & H3 & _)|(H1 & H2 & H3 & _)]];
      try congruence.
    specialize (H5 chu d Eu). split_and!; try congruence. destruct d.
    + right; left. simpl. split_and!; try done. eauto.
    + left. simpl. split_and!; try done. by intros c [= <-].
Qed.

Lemma eof_takes_cons e es : eof_takes (e :: es) = (count_eof e + eof_takes es)%nat.
Proof. unfold eof_takes, count_eof. rewrite List_filter_cons. by destruct (takes_eof e). Qed.

Lemma run_cons debug a acts s s'' es :
  run debug (a :: acts) s = Some (s'', es) ->
  ∃ s' e es', step debug a s = Some (s', e) ∧ run debug acts s' = Some (s'', es')
              ∧ es = e :: es'.
Proof.
  cbn [run]. destruct (step debug a s) as [[s' e]|] eqn:E1; [|done].
  destruct (run debug acts s') as [[s2 es']|] eqn:E2; [|done].
  intros [= <- <-]. exists s', e, es'. done.
Qed.

(** Along a run the phases follow one another. *)
Lemma eof_phase_run debug acts :
  ∀ s k s' es, eof_phase s k -> run debug acts s = Some (s', es) ->
               eof_phase s' (k + eof_takes es).
Proof.
  induction acts as [|a acts IH]; intros s k s' es Hph Hrun.
  - injection Hrun as <- <-. by rewrite Nat.add_0_r.
  - apply run_cons in Hrun as (s1 & e & es' & Hstep & Hrun & ->).
    destruct (eof_phase_step _ _ _ _ _ _ Hph Hstep) as (Hph1 & _ & _).
    rewrite eof_takes_cons, Nat.add_assoc. exact (IH _ _ _ _ Hph1 Hrun).
Qed.

(** Once the flag is set, nothing is taken from the outbox any more. *)
Lemma latched_run debug acts :
  ∀ s k s' es, eof_phase s k -> at_eof s = true -> run debug acts s = Some (s', es) ->
               at_eof s' = true ∧ Forall (fun e => is_take e = false) es.
Proof.
  induction acts as [|a acts IH]; intros s k s' es Hph Hlatch Hrun.
  - injection Hrun as <- <-. done.
  - apply run_cons in Hrun as (s1 & e & es' & Hstep & Hrun & ->).
    destruct (eof_phase_step _ _ _ _ _ _ Hph Hstep) as (Hph1 & Hl & _).
    destruct (Hl Hlatch) as [Hlatch1 He].
    destruct (IH _ _ _ _ Hph1 Hlatch1 Hrun) as [Hfin HF]. split; [done|]. by constructor.
Qed.

Lemma quiet_after_eof_take debug acts :
  ∀ s k s' es, eof_phase s k -> run debug acts s = Some (s', es) ->
    ∀ es1 e es2, es = es1 ++ e :: es2 -> takes_eof e = true ->
                 Forall (fun e' => is_take e' = false) es2.
Proof.
  induction acts as [|a acts IH]; intros s k s' es Hph Hrun es1 e es2 Hes He.
  - injection Hrun as <- <-. by destruct es1.
  - apply run_cons in Hrun as (s1 & e0 & es' & Hstep & Hrun & ->).
    destruct (eof_phase_step _ _ _ _ _ _ Hph Hstep) as (Hph1 & _ & Hl).
    destruct es1 as [|e1 es1]; simpl in Hes; injection Hes as -> ->.
    + exact (proj2 (latched_run _ _ _ _ _ _ Hph1 (Hl He) Hrun)).
    + exact (IH _ _ _ _ Hph1 Hrun es1 e es2 eq_refl He).
Qed.

Lemma step_returns_data debug a s s' e :
  step debug a s = Some (s', e) -> returns_data e.
Proof.
  intros Hstep t0 code c0 ->. destruct a as [t|t|t|chu|chu| | |]; cbn [step] in Hstep.
  - unfold Read_enter in Hstep. destruct (readers s !! t); [done|].
    by destruct (at_eof s).
  - unfold Read_critical in Hstep. destruct (readers s !! t) as [[|]|]; try done.
    by destruct (unpacker_outbox s).
  - unfold Read_leave in Hstep. destruct (readers s !! t) as [[|c]|]; try done.
    destruct (is_eof_chunk c) eqn:Ec; [done|]. by injection Hstep as _ <- <- <-.
  - done.
  - unfold loader_put in Hstep. by destruct (loader_outbox s).
  - unfold loader_pop in Hstep. by destruct (recycling s).
  - unfold unpacker_take in Hstep. destruct (unpacker s); try done.
    destruct (loader_outbox s) as [c|]; [|done].
    by destruct (if is_eof_chunk c then Ok c else dsqdata_unpack_chunk debug c).
  - unfold unpacker_put in Hstep. destruct (unpacker s); try done.
    by destruct (unpacker_outbox s).
Qed.

Lemma run_returns_data debug acts :
  ∀ s s' es, run debug acts s = Some (s', es) -> Forall returns_data es.
Proof.
  induction acts as [|a acts IH]; intros s s' es Hrun.
  - injection Hrun as <- <-. constructor.
  - apply run_cons in Hrun as (s1 & e & es' & Hstep & Hrun & ->).
    constructor; [exact (step_returns_data _ _ _ _ _ Hstep) | exact (IH _ _ _ Hrun)].
Qed.

(** Once the flag is set no thread comes to hold a chunk: who holds
    one after a step held it before, and a chunk that is returned was
    held. *)
Lemma held_step debug a s k s' e :
  eof_phase s k -> at_eof s = true -> step debug a s = Some (s', e) ->
  (∀ t c, readers s' !! t = Some (Holding c) -> readers s !! t = Some (Holding c))
  ∧ returns_held s e.
Proof.
  intros Hph Hlatch Hstep.
  assert (Hout : unpacker_outbox s = None).
  { destruct Hph as [(E & _)|[(E & _)|(_ & _ & _ & ?)]]; [congruence..|done]. }
  destruct a as [t'|t'|t'|chu|chu| | |]; cbn [step] in Hstep.
  - unfold Read_enter in Hstep. destruct (readers s !! t'); [done|].
    rewrite Hlatch in Hstep. injection Hstep as <- <-. split; [done|]. by intros ? ? ? [=].
  - unfold Read_critical in Hstep. rewrite Hout in Hstep.
    by destruct (readers s !! t') as [[|]|].
  - unfold Read_leave in Hstep. destruct (readers s !! t') as [[|chu]|] eqn:Et'; try done.
    destruct (is_eof_chunk chu); injection Hstep as <- <-; cbn; split.
    + intros t c. destruct (decide (t = t')) as [->|Hne].
      * by rewrite lookup_delete_eq.
      * by rewrite lookup_delete_ne.
    + by intros ? ? ? [=].
    + intros t c. destruct (decide (t = t')) as [->|Hne].
      * by rewrite lookup_delete_eq.
      * by rewrite lookup_delete_ne.
    + by intros ? ? ? [= <- <- <-].
  - injection Hstep as <- <-. split; [done|]. by intros ? ? ? [=].
  - unfold loader_put in Hstep. destruct (loader_outbox s); [done|].
    injection Hstep as <- <-. split; [done|]. by intros ? ? ? [=].
  - unfold loader_pop in Hstep. destruct (recycling s); [done|].
    injection Hstep as <- <-. split; [done|]. by intros ? ? ? [=].
  - unfold unpacker_take in Hstep. destruct (unpacker s); try done.
    destruct (loader_outbox s) as [c|]; [|done].
    destruct (if is_eof_chunk c then Ok c else dsqdata_unpack_chunk debug c); try done.
    injection Hstep as <- <-. split; [done|]. by intros ? ? ? [=].
  - unfold unpacker_put in Hstep. destruct (unpacker s); try done.
    destruct (unpacker_outbox s); [done|].
    injection Hstep as <- <-. split; [done|]. by intros ? ? ? [=].
Qed.

Lemma held_run debug acts :
  ∀ s k s' es, eof_phase s k -> at_eof s = true -> run debug acts s = Some (s', es) ->
               unpacker_outbox s' = None ∧ Forall (returns_held s) es.
Proof.
  induction acts as [|a acts IH]; intros s k s' es Hph Hlatch Hrun.
  - injection Hrun as <- <-. split; [|constructor].
    destruct Hph as [(E & _)|[(E & _)|(_ & _ & _ & ?)]]; [congruence..|done].
  - apply run_cons in Hrun as (s1 & e & es' & Hstep & Hrun & ->).
    destruct (eof_phase_step _ _ _ _ _ _ Hph Hstep) as (Hph1 & Hl & _).
    destruct (Hl Hlatch) as [Hlatch1 _].
    destruct (held_step _ _ _ _ _ _ Hph Hlatch Hstep) as [Hkeep He].
    destruct (IH _ _ _ _ Hph1 Hlatch1 Hrun) as [Hbox HF]. split; [done|].
    constructor; [exact He|].
    eapply Forall_impl; [exact HF|]. intros e' He' t code c Heq. exact (Hkeep _ _ (He' _ _ _ Heq)).
Qed.

Lemma holding_eof_start : holding_eof system_start.
Proof. intros t chu H. simpl in H. by rewrite lookup_empty in H. Qed.

Lemma holding_eof_step debug a s s' e :
  holding_eof s -> step debug a s = Some (s', e) -> holding_eof s'.
Proof.
  intros Hinv Hstep. destruct a as [t'|t'|t'|chu|chu| | |]; cbn [step] in Hstep.
  - unfold Read_enter in Hstep. destruct (readers s !! t') eqn:Et'; [done|].
    destruct (at_eof s) eqn:Eeof; injection Hstep as <- <-; [done|].
    intros t c. cbn. destruct (decide (t = t')) as [->|Hne].
    + by rewrite lookup_insert_eq.
    + rewrite lookup_insert_ne by done. intros H1 H2. exact (Hinv t c H1 H2).
  - unfold Read_critical in Hstep. destruct (readers s !! t') as [[|]|] eqn:Et'; try done.
    destruct (unpacker_outbox s) as [c0|]; [|done].
    injection Hstep as <- <-. intros t c. cbn. destruct (decide (t = t')) as [->|Hne].
    + rewrite lookup_insert_eq. intros [= <-] ->. done.
    + rewrite lookup_insert_ne by done. intros H1 H2. rewrite (Hinv t c H1 H2).
      by destruct (is_eof_chunk c0).
  - unfold Read_leave in Hstep. destruct (readers s !! t') as [[|c0]|] eqn:Et'; try done.
    destruct (is_eof_chunk c0); injection Hstep as <- <-; intros t c; cbn;
      (destruct (decide (t = t')) as [->|Hne];
       [by rewrite lookup_delete_eq | rewrite lookup_delete_ne by done; apply Hinv]).
  - injection Hstep as <- <-. exact Hinv.
  - unfold loader_put in Hstep. destruct (loader_outbox s); [done|].
    injection Hstep as <- <-. exact Hinv.
  - unfold loader_pop in Hstep. destruct (recycling s); [done|].
    injection Hstep as <- <-. exact Hinv.
  - unfold unpacker_take in Hstep. destruct (unpacker s); try done.
    destruct (loader_outbox s) as [c|]; [|done].
    destruct (if is_eof_chunk c then Ok c else dsqdata_unpack_chunk debug c); try done.
    injection Hstep as <- <-. exact Hinv.
  - unfold unpacker_put in Hstep. destruct (unpacker s); try done.
    destruct (unpacker_outbox s); [done|].
    injection Hstep as <- <-. exact Hinv.
Qed.

Lemma holding_eof_run debug acts :
  ∀ s s' es, holding_eof s -> run debug acts s = Some (s', es) -> holding_eof s'.
Proof.
  induction acts as [|a acts IH]; intros s s' es Hinv Hrun.
  - by injection Hrun as <- <-.
  - apply run_cons in Hrun as (s1 & e & es' & Hstep & Hrun & ->).
    exact (IH _ _ _ (holding_eof_step _ _ _ _ _ Hinv Hstep) Hrun).
Qed.

(** * The properties the specification states *)


(** C3. For every nucleotide sequence (codes in [0..31]) in a buffer
    with room for its packets, [dsqdata_pack2] returns, and the packets
    it leaves are those of the rule [pack2_rule]: with the residues
    that remain, a full 2-bit packet of the next 15 exactly when at
    least 15 remain and none of the 15 has a code above 3, else a 5-bit
    packet of up to 6 padded with 31; bit 31 on the packet that takes
    the last residue. *)
Theorem pack2_follows_rule (mem s : list Z) :
  holds mem s -> Forall (fun x => 0 <= x <= 31) s ->
  (4 * ((length s + 5) / 6) <= length mem)%nat ->
  ∃ mem' plen, dsqdata_pack2 mem (length s) = Ok (mem', plen)
             ∧ words mem' 0 plen = pack2_rule (length s) s.
Proof.
  intros Hh HF Hroom. destruct (dsqdata_pack2_rule mem s Hh HF Hroom) as (mem' & Hrun & Hw).
  eauto.
Qed.

(** C4, amended. For every chunk of a reader with [MAXSEQ >= 1] that
    holds [pn <= MAXPACKET] packets in the last [4 * MAXPACKET] bytes
    of its arena of [U = residues_per_packet * MAXPACKET + MAXSEQ + 1]
    bytes, for [N <= MAXSEQ] sequences, with exactly [N] end-of-data
    packets and, in a protein chunk, 5-bit packets only: when the turn
    of a packet comes the write cursor has not passed its bytes, which
    still hold the packet that was loaded, and the loop ends with the
    cursor at most [U]. *)
Theorem inplace_unpack_safe dd chu ps :
  chunk_holds dd chu ps ->
  (0 < chunk_maxseq dd)%nat ->
  (length ps <= chunk_maxpacket dd)%nat ->
  N chu <= Z.of_nat (chunk_maxseq dd) ->
  Z.of_nat (eod_count ps) = N chu ->
  (pack5 dd = true -> Forall (fun v => Z.testbit v 30 = true) ps) ->
  unpacks_in_place chu ps (smem_size dd).
Proof. apply arena_trick. Qed.

(** C5. With at least one staged index record, the [psq_end] fields
    nondecreasing and the first record fitting
    ([idx[0].psq_end - psq_last <= MAXPACKET]), the loader computes an
    [nload] in [1..nidx] that is the largest [i] in [1..nidx] with
    [idx[i-1].psq_end - psq_last <= MAXPACKET]. A chunk that the turn
    emits has [N = nload <= MAXSEQ] and
    [pn = idx[nload-1].psq_end - psq_last <= MAXPACKET]; and the turn
    does emit one when the sequence file still holds these [pn] packets
    and the metadata file the bytes up to [idx[nload-1].metadata_end]. *)
Theorem loader_boundary debug dd ld :
  (length (ld_idx ld) <= chunk_maxseq dd)%nat ->
  (1 <= length (refilled dd ld))%nat ->
  nondecreasing (refilled dd ld) ->
  psq_end (refilled dd ld !!! 0%nat) - ld_psq_last ld <= Z.of_nat (chunk_maxpacket dd) ->
  ∃ nload,
    loader_nload debug (refilled dd ld) (length (refilled dd ld)) (ld_psq_last ld)
      (chunk_maxpacket dd) = Ok nload
    ∧ (1 <= nload <= length (refilled dd ld))%nat
    ∧ psq_end (refilled dd ld !!! (nload - 1)%nat) - ld_psq_last ld
        <= Z.of_nat (chunk_maxpacket dd)
    ∧ (∀ i, (1 <= i <= length (refilled dd ld))%nat ->
            psq_end (refilled dd ld !!! (i - 1)%nat) - ld_psq_last ld
              <= Z.of_nat (chunk_maxpacket dd) ->
            (i <= nload)%nat)
    ∧ (∀ chu ld' chu', loader_turn debug dd ld chu = Ok (ld', chu') ->
         N chu' = Z.of_nat nload
         ∧ N chu' <= Z.of_nat (chunk_maxseq dd)
         ∧ pn chu' = psq_end (refilled dd ld !!! (nload - 1)%nat) - ld_psq_last ld
         ∧ pn chu' <= Z.of_nat (chunk_maxpacket dd))
    ∧ (∀ chu,
         0 <= psq_end (refilled dd ld !!! (nload - 1)%nat) - ld_psq_last ld
           <= Z.of_nat (length (ld_sfp ld)) ->
         0 <= metadata_end (refilled dd ld !!! (nload - 1)%nat) - ld_meta_last ld
           <= Z.of_nat (length (ld_mfp ld)) ->
         ∃ ld' chu', loader_turn debug dd ld chu = Ok (ld', chu')
           ∧ N chu' = Z.of_nat nload
           ∧ N chu' <= Z.of_nat (chunk_maxseq dd)
           ∧ pn chu' = psq_end (refilled dd ld !!! (nload - 1)%nat) - ld_psq_last ld
           ∧ pn chu' <= Z.of_nat (chunk_maxpacket dd)
           ∧ ld_nload ld' = nload
           ∧ ld_psq_last ld' = psq_end (refilled dd ld !!! (nload - 1)%nat)).
Proof.
  intros Hcap Hn Hs H1.
  assert (H1' : fits (refilled dd ld) (ld_psq_last ld) (chunk_maxpacket dd) 1 = true)
    by (unfold fits; apply bool_decide_eq_true_2; exact H1).
  destruct (loader_nload_spec debug (refilled dd ld) (ld_psq_last ld) (chunk_maxpacket dd)
              Hn Hs H1') as (nload & Hrun & Hr & Hfit & Hmax).
  unfold fits in Hfit. apply bool_decide_eq_true_1 in Hfit.
  assert (Hne : refilled dd ld ≠ []) by (intros E; rewrite E in Hn; simpl in Hn; lia).
  pose proof (length_refilled dd ld Hcap) as Hlen.
  assert (Hchunk : ∀ chu ld' chu', loader_turn debug dd ld chu = Ok (ld', chu') ->
            N chu' = Z.of_nat nload
            ∧ N chu' <= Z.of_nat (chunk_maxseq dd)
            ∧ pn chu' = psq_end (refilled dd ld !!! (nload - 1)%nat) - ld_psq_last ld
            ∧ pn chu' <= Z.of_nat (chunk_maxpacket dd)).
  { intros chu ld' chu' Hturn.
    destruct (loader_turn_chunk _ _ _ _ _ _ _ Hne Hrun Hturn) as [HN Hpn].
    rewrite HN, Hpn. split_and!; (done || lia). }
  exists nload. split; [exact Hrun|]. split; [exact Hr|]. split; [exact Hfit|].
  split; [|split; [exact Hchunk|]].
  - intros i Hi Hfi. apply Hmax; [exact Hi|].
    unfold fits. apply bool_decide_eq_true_2. exact Hfi.
  - intros chu Hsfp Hmfp.
    destruct (loader_turn_emits debug dd ld chu nload Hne Hrun) as (ld' & chu' & Hturn & Hnl & Hlast & _);
      [lia | lia | exact Hmfp |].
    exists ld', chu'. destruct (Hchunk chu ld' chu' Hturn) as (HN & HN' & Hpn & Hpn').
    split_and!; done.
Qed.

(** C8, amended. In every run of the threads from the start: the
    chunk without a sequence is taken from the unpacker's outbox at
    most once, and after it has been taken nothing is taken from the
    outbox again; the [Read] that takes it sets [at_eof] and empties
    the outbox, and when it leaves it puts the chunk on top of the
    recycling stack and returns [eslEOF] with no chunk; no return of
    the run carries a chunk without a sequence; once [at_eof] is set
    it stays set, the outbox stays empty, and every call of [Read]
    that starts returns [eslEOF] with no chunk at once, the state
    untouched. A chunk that is returned after [at_eof] was set is one
    that its thread had taken from the outbox before and still held:
    the return is outside the critical section. *)
Theorem read_eof_latch debug acts s es :
  run debug acts system_start = Some (s, es) ->
  (eof_takes es <= 1)%nat
  ∧ (∀ es1 e es2, es = es1 ++ e :: es2 -> takes_eof e = true ->
       Forall (fun e' => is_take e' = false) es2)
  ∧ (∀ t chu s1, Read_critical t s = Some (s1, Took t chu) -> is_eof_chunk chu = true ->
       at_eof s1 = true
       ∧ unpacker_outbox s1 = None
       ∧ readers s1 !! t = Some (Holding chu))
  ∧ (∀ t chu, readers s !! t = Some (Holding chu) -> is_eof_chunk chu = true ->
       at_eof s = true
       ∧ ∃ s2, Read_leave t s = Some (s2, Returned t eslEOF None)
             ∧ recycling s2 = chu :: recycling s
             ∧ readers s2 !! t = None
             ∧ at_eof s2 = true)
  ∧ Forall returns_data es
  ∧ (at_eof s = true ->
       (∀ t, readers s !! t = None -> Read_enter t s = Some (s, Returned t eslEOF None))
       ∧ (∀ acts' s' es', run debug acts' s = Some (s', es') ->
            at_eof s' = true
            ∧ unpacker_outbox s' = None
            ∧ Forall (fun e => is_take e = false) es'
            ∧ Forall (returns_held s) es'
            ∧ Forall returns_data es')).
Proof.
  intros Hrun.
  pose proof (eof_phase_run debug acts _ _ _ _ eof_phase_start Hrun) as Hph. simpl in Hph.
  pose proof (holding_eof_run debug acts _ _ _ holding_eof_start Hrun) as Hheld.
  split_and!.
  - destruct Hph as [(_ & -> & _)|[(_ & -> & _)|(_ & -> & _)]]; lia.
  - exact (quiet_after_eof_take debug acts _ _ _ _ eof_phase_start Hrun).
  - intros t chu s1 Hcrit Heof. unfold Read_critical in Hcrit.
    destruct (readers s !! t) as [[|]|]; try done.
    destruct (unpacker_outbox s) as [c|]; [|done].
    injection Hcrit as <- <-. simpl. rewrite Heof, lookup_insert_eq. done.
  - intros t chu Ht Heof. split; [exact (Hheld t chu Ht Heof)|].
    unfold Read_leave. rewrite Ht, Heof. eexists. split; [reflexivity|].
    simpl. rewrite lookup_delete_eq. split_and!; try done. exact (Hheld t chu Ht Heof).
  - exact (run_returns_data debug acts _ _ _ Hrun).
  - intros Hlatch. split.
    + intros t Ht. unfold Read_enter. by rewrite Ht, Hlatch.
    + intros acts' s' es' Hrun'.
      destruct (latched_run debug acts' _ _ _ _ Hph Hlatch Hrun') as [H1 H2].
      destruct (held_run debug acts' _ _ _ _ Hph Hlatch Hrun') as [H3 H4].
      split_and!; try done. exact (run_returns_data debug acts' _ _ _ Hrun').
Qed.

(** C9, amended. After [dsqdata_unpack_chunk] returns [eslOK] on a
    chunk that holds what it was made to hold (as in C4), for every
    sequence [i < N]: [dsq[i]] is the offset of the leading sentinel of
    the sequence (0 for the first), not the offset after it; the
    residues lie at [dsq[i]+1 .. dsq[i]+L[i]]; the next sentinel lies
    at [dsq[i]+L[i]+1], where the cursor was when the sequence ended;
    and [L[i]], that cursor minus [dsq[i]] minus 1, is the number of
    residues of the sequence. *)
Theorem unpacked_chunk_layout dd chu ps debug chu' :
  chunk_holds dd chu ps ->
  (length ps <= chunk_maxpacket dd)%nat ->
  N chu <= Z.of_nat (chunk_maxseq dd) ->
  Z.of_nat (eod_count ps) = N chu ->
  (pack5 dd = true -> Forall (fun v => Z.testbit v 30 = true) ps) ->
  dsqdata_unpack_chunk debug chu = Ok chu' ->
  ∀ i, Z.of_nat i < N chu ->
    ∃ x, sequences [] ps !! i = Some x
      ∧ dsq chu' !! i = Some (Z.of_nat (offset_of (sequences [] ps) i))
      ∧ smem chu' !! offset_of (sequences [] ps) i = Some eslDSQ_SENTINEL
      ∧ take (length x) (drop (S (offset_of (sequences [] ps) i)) (smem chu')) = x
      ∧ smem chu' !! (offset_of (sequences [] ps) i + length x + 1)%nat = Some eslDSQ_SENTINEL
      ∧ offset_of (sequences [] ps) (S i) = (offset_of (sequences [] ps) i + length x + 1)%nat
      ∧ L chu' !! i = Some (Z.of_nat (length x)).
Proof. apply chunk_layout. Qed.

End Decoder.

(** ** Where the round trip holds *)

(** The packets of a protein sequence that is not empty decode to the
    sequence. *)
Theorem pack5_unpack_roundtrip mem s :
  holds mem s -> s ≠ [] -> Forall (fun x => 0 <= x <= 30) s ->
  (4 * ((length s + 5) / 6) <= length mem)%nat ->
  ∃ mem' plen, dsqdata_pack5 mem (length s) = Ok (mem', plen)
               ∧ sequences [] (words mem' 0 plen) = [s].
Proof.
  intros Hh Hne HF Hroom.
  destruct (dsqdata_pack5_rule mem s Hh) as (mem' & Hrun & Hw); [|done|].
  { eapply Forall_impl; [exact HF|]. intros x; simpl; lia. }
  exists mem', ((length s + 5) / 6)%nat. split; [exact Hrun|].
  rewrite Hw. rewrite <- (app_nil_r (pack5_rule _ _)).
  by rewrite sequences_pack5_rule.
Qed.

(** The packets of a nucleotide sequence that is not empty decode to
    the sequence. *)
Theorem pack2_unpack_roundtrip mem s :
  holds mem s -> s ≠ [] -> Forall (fun x => 0 <= x <= 30) s ->
  (4 * ((length s + 5) / 6) <= length mem)%nat ->
  ∃ mem' plen, dsqdata_pack2 mem (length s) = Ok (mem', plen)
               ∧ sequences [] (words mem' 0 plen) = [s].
Proof.
  intros Hh Hne HF Hroom.
  destruct (dsqdata_pack2_rule mem s Hh) as (mem' & Hrun & Hw); [|done|].
  { eapply Forall_impl; [exact HF|]. intros x; simpl; lia. }
  exists mem', (length (pack2_rule (length s) s)). split; [exact Hrun|].
  rewrite Hw. rewrite <- (app_nil_r (pack2_rule _ _)).
  by rewrite sequences_pack2_rule.
Qed.

(** The packets of an empty sequence are none, whatever the alphabet:
    the stream has no mark of the sequence. *)
Theorem pack_empty_sequence mem :
  dsqdata_pack5 mem 0 = Ok (mem, 0%nat) ∧ dsqdata_pack2 mem 0 = Ok (mem, 0%nat).
Proof. split; reflexivity. Qed.

(** ** What the residue decoder can return *)

Lemma never_throws_bind {A B} (m : res A) (f : A -> res B) :
  never_throws m -> (∀ a, m = Ok a -> never_throws (f a)) -> never_throws (m ≫= f).
Proof.
  intros Hm Hf c. destruct m as [a|c'| | |]; cbn; try done.
  - by apply Hf.
  - intros _. by apply (Hm c').
Qed.

Lemma put_never_throws x s : never_throws (put x s).
Proof. intros c. unfold put. by destruct (decide _). Qed.

Lemma poke_never_throws a i x : never_throws (poke a i x).
Proof. intros c. unfold poke. by destruct (decide _). Qed.

Lemma put_all_never_throws mask bs v : ∀ s, never_throws (put_all mask bs v s).
Proof.
  induction bs as [|b bs IH]; intros s; cbn [put_all]; [done|].
  apply never_throws_bind; [apply put_never_throws | intros; apply IH].
Qed.

Lemma put_until31_never_throws bs v : ∀ s, never_throws (put_until31 bs v s).
Proof.
  induction bs as [|b bs IH]; intros s; cbn [put_until31]; [done|].
  destruct (decide _); [done|].
  apply never_throws_bind; [apply put_never_throws | intros; apply IH].
Qed.

Lemma finalize_never_throws n s : never_throws (finalize n s).
Proof.
  unfold finalize. apply never_throws_bind; [apply poke_never_throws|]. intros L' _.
  apply never_throws_bind.
  - destruct (decide _); [apply poke_never_throws | done].
  - intros; apply put_never_throws.
Qed.

Lemma unpack_packet_never_throws n v s : never_throws (unpack_packet n v s).
Proof.
  destruct (unpack_packet_cases n v s) as [[_ ->]|[[_ ->]|[[_ ->]|[[_ ->]|[_ ->]]]]].
  - apply put_all_never_throws.
  - apply put_all_never_throws.
  - apply never_throws_bind; [apply put_all_never_throws | intros; apply finalize_never_throws].
  - apply never_throws_bind; [apply put_until31_never_throws | intros; apply finalize_never_throws].
  - done.
Qed.

Lemma unpack_loop_never_throws psq0 n k : ∀ pos s, never_throws (unpack_loop k pos psq0 n s).
Proof.
  induction k as [|k IH]; intros pos s; cbn [unpack_loop]; [done|].
  apply never_throws_bind; [apply unpack_packet_never_throws | intros; apply IH].
Qed.

(** X6. Once the metadata walk is through, [dsqdata_unpack_chunk] throws
    no error code, whatever the packets are: the residue decoder has no
    [ESL_EXCEPTION]. *)
Theorem residue_decode_never_throws debug chu m :
  unpack_metadata (Z.to_nat (N chu)) (metadata chu) (mdalloc chu) 0
    {| m_name := name chu; m_acc := acc chu; m_desc := desc chu;
       m_taxid := taxid chu; m_ptr := 0 |} = Ok m ->
  never_throws (dsqdata_unpack_chunk debug chu).
Proof.
  intros Hm. unfold dsqdata_unpack_chunk. rewrite Hm, bind_Ok.
  apply never_throws_bind.
  { unfold decoder_start. apply never_throws_bind; [apply poke_never_throws|].
    intros; apply put_never_throws. }
  intros s0 _. apply never_throws_bind; [apply unpack_loop_never_throws|].
  intros s _. apply never_throws_bind; [|done].
  intros c. unfold ESL_DASSERT1. by destruct (_ && _).
Qed.

(** * The properties at particular inputs *)

(** C1, at an input where it fails. A protein database of two
    sequences, the first of length 0 and the second of the one residue
    4: [esl_dsqdata_Write] writes a single packet, for the second
    sequence; the chunk of the two sequences unpacks to [eslOK] with
    the residue of the second sequence as the first sequence
    ([L[0] = 1]) and [L[1]] never written; with the assertions of a
    debugging build the unpacker stops at [i == N]. *)
Theorem roundtrip_loses_empty_sequence :
  ∃ db chu chu',
    esl_dsqdata_Write eslAMINO [sq_of [69] 0 []; sq_of [70] 1 [4]] = Ok db
    ∧ sfp db = [3388997631]
    ∧ first_chunk false dd_amino db = Ok chu
    ∧ N chu = 2 ∧ pn chu = 1
    ∧ dsqdata_unpack_chunk false chu = Ok chu'
    ∧ L chu' = [1; 9]
    ∧ take 3 (smem chu') = [eslDSQ_SENTINEL; 4; eslDSQ_SENTINEL]
    ∧ dsqdata_unpack_chunk true chu = Abort.
Proof.
  eexists _, _, _. split; [vm_compute; reflexivity|]. split; [vm_compute; reflexivity|].
  split; [vm_compute; reflexivity|]. split_and!; vm_compute; reflexivity.
Qed.



(** The claim C3 at the five residues [0; 1; 2; 3; 15]. *)
Lemma pack2_follows_rule_witness :
  holds [255; 0; 1; 2; 3; 15; 255; 0; 0] [0; 1; 2; 3; 15]
  ∧ Forall (fun x => 0 <= x <= 31) [0; 1; 2; 3; 15]
  ∧ (4 * ((length [0; 1; 2; 3; 15]%Z + 5) / 6) <= length [255; 0; 1; 2; 3; 15; 255; 0; 0]%Z)%nat
  ∧ ∃ mem' plen, dsqdata_pack2 [255; 0; 1; 2; 3; 15; 255; 0; 0] 5 = Ok (mem', plen)
                 ∧ words mem' 0 plen = pack2_rule 5 [0; 1; 2; 3; 15].
Proof.
  assert (H1 : holds [255; 0; 1; 2; 3; 15; 255; 0; 0] [0; 1; 2; 3; 15])
    by (exists 255, [255; 0; 0]; reflexivity).
  assert (H2 : Forall (fun x => 0 <= x <= 31) [0; 1; 2; 3; 15]) by (repeat constructor; lia).
  assert (H3 : (4 * ((length [0; 1; 2; 3; 15]%Z + 5) / 6)
                <= length [255; 0; 1; 2; 3; 15; 255; 0; 0]%Z)%nat) by (simpl; lia).
  split_and!; try assumption. exact (pack2_follows_rule _ _ H1 H2 H3).
Defined.

(** C4 as it is stated fails: a protein chunk with [MAXPACKET = 1],
    [MAXSEQ = 1] and the one packet [0x80000000], a 2-bit end-of-data
    packet of 15 residues, meets what the claim asks of a chunk, and
    the decoder leaves the 8 bytes of its arena. *)
Lemma arena_overrun_counterexample :
  chunk_holds dd_amino_1 (chunk_with dd_amino_1 1 [2147483648]) [2147483648]
  ∧ (length [2147483648]%Z <= chunk_maxpacket dd_amino_1)%nat
  ∧ N (chunk_with dd_amino_1 1 [2147483648]) <= Z.of_nat (chunk_maxseq dd_amino_1)
  ∧ Z.of_nat (eod_count [2147483648]) = N (chunk_with dd_amino_1 1 [2147483648])
  ∧ ¬ unpacks_in_place (chunk_with dd_amino_1 1 [2147483648]) [2147483648]
        (smem_size dd_amino_1).
Proof.
  split_and!.
  - split; [vm_compute; reflexivity ..|repeat constructor; lia].
  - simpl. lia.
  - simpl. lia.
  - reflexivity.
  - intros (s0 & Hs0 & _ & s & Hrun & _).
    vm_compute in Hs0. injection Hs0 as <-. vm_compute in Hrun. discriminate.
Qed.

(** The claim C4 (amended) at the chunk of one protein sequence of four residues. *)
Lemma inplace_unpack_safe_witness :
  chunk_holds dd_amino (chunk_with dd_amino 1 [3222343679]) [3222343679]
  ∧ (0 < chunk_maxseq dd_amino)%nat
  ∧ (length [3222343679]%Z <= chunk_maxpacket dd_amino)%nat
  ∧ N (chunk_with dd_amino 1 [3222343679]) <= Z.of_nat (chunk_maxseq dd_amino)
  ∧ Z.of_nat (eod_count [3222343679]) = N (chunk_with dd_amino 1 [3222343679])
  ∧ (pack5 dd_amino = true -> Forall (fun v => Z.testbit v 30 = true) [3222343679])
  ∧ unpacks_in_place (chunk_with dd_amino 1 [3222343679]) [3222343679] (smem_size dd_amino).
Proof.
  assert (H1 : chunk_holds dd_amino (chunk_with dd_amino 1 [3222343679]) [3222343679])
    by (split; [vm_compute; reflexivity ..|repeat constructor; lia]).
  assert (H2 : (0 < chunk_maxseq dd_amino)%nat) by (simpl; lia).
  assert (H3 : (length [3222343679]%Z <= chunk_maxpacket dd_amino)%nat) by (simpl; lia).
  assert (H4 : N (chunk_with dd_amino 1 [3222343679]) <= Z.of_nat (chunk_maxseq dd_amino))
    by (simpl; lia).
  assert (H5 : Z.of_nat (eod_count [3222343679]) = N (chunk_with dd_amino 1 [3222343679]))
    by reflexivity.
  assert (H6 : pack5 dd_amino = true -> Forall (fun v => Z.testbit v 30 = true) [3222343679])
    by (intros _; repeat constructor).
  split_and!; try assumption. exact (inplace_unpack_safe _ _ _ H1 H2 H3 H4 H5 H6).
Defined.

(** The claim C5 at the second turn of the loader on five proteins:
    one record is carried over and two are fresh, of 2, 1 and 2
    packets; the first two make the [MAXPACKET = 3] packets of the
    chunk, found by the binary search. *)
Lemma loader_boundary_witness :
  ld_nload loader_midway = 2%nat
  ∧ ld_psq_last loader_midway = 2
  ∧ (psq_end <$> refilled dd_three loader_midway) = [3; 5; 6]
  ∧ (length (ld_idx loader_midway) <= chunk_maxseq dd_three)%nat
  ∧ (1 <= length (refilled dd_three loader_midway))%nat
  ∧ nondecreasing (refilled dd_three loader_midway)
  ∧ psq_end (refilled dd_three loader_midway !!! 0%nat) - ld_psq_last loader_midway
      <= Z.of_nat (chunk_maxpacket dd_three)
  ∧ loader_nload false (refilled dd_three loader_midway)
      (length (refilled dd_three loader_midway)) (ld_psq_last loader_midway)
      (chunk_maxpacket dd_three) = Ok 2%nat
  ∧ ∃ ld' chu',
      loader_turn false dd_three loader_midway (fresh_chunk dd_three) = Ok (ld', chu')
      ∧ N chu' = 2
      ∧ pn chu' = 3
      ∧ ld_nload ld' = 2%nat
      ∧ ld_psq_last ld' = 5.
Proof.
  assert (H1 : (length (ld_idx loader_midway) <= chunk_maxseq dd_three)%nat)
    by (vm_compute; lia).
  assert (H2 : (1 <= length (refilled dd_three loader_midway))%nat) by (vm_compute; lia).
  assert (H3 : nondecreasing (refilled dd_three loader_midway)).
  { intros [|[|[|i]]] [|[|[|j]]] Hij; vm_compute in Hij; try lia; vm_compute; discriminate. }
  assert (H4 : psq_end (refilled dd_three loader_midway !!! 0%nat) - ld_psq_last loader_midway
               <= Z.of_nat (chunk_maxpacket dd_three)) by (vm_compute; discriminate).
  destruct (loader_boundary false dd_three loader_midway H1 H2 H3 H4)
    as (nload & Hrun & _ & _ & _ & _ & Hemit).
  assert (Hn : nload = 2%nat) by (vm_compute in Hrun; injection Hrun as <-; reflexivity).
  subst nload.
  destruct (Hemit (fresh_chunk dd_three)) as (ld' & chu' & Hturn & HN & _ & Hpn & _ & Hnl & Hlast).
  { vm_compute. split; discriminate. }
  { vm_compute. split; discriminate. }
  split; [vm_compute; reflexivity|]. split; [vm_compute; reflexivity|].
  split; [vm_compute; reflexivity|].
  split; [exact H1|]. split; [exact H2|]. split; [exact H3|]. split; [exact H4|].
  split; [exact Hrun|].
  exists ld', chu'. split; [exact Hturn|]. split; [exact HN|].
  split; [rewrite Hpn; vm_compute; reflexivity|]. split; [exact Hnl|].
  rewrite Hlast. vm_compute. reflexivity.
Defined.

(** C6, at an input where it fails. The metadata of the one sequence
    of the chunk stops after the accession (4 bytes are loaded into an
    allocation of 40). In an allocation of zero bytes the walk returns
    [eslOK] with [desc[0] = 4], the first byte after the loaded region,
    and a taxonomy id read after it; in an allocation without a zero
    byte the scan for the terminator leaves the allocation. Neither is
    [eslEFORMAT]. *)
Theorem metadata_walk_leaves_loaded_region :
  (∃ chu chu',
      chunk_truncated 0 = Ok chu
      ∧ length (mfp db_truncated) = 4%nat
      ∧ mdalloc chu = 40%nat
      ∧ dsqdata_unpack_chunk false chu = Ok chu'
      ∧ name chu' !! 0%nat = Some 0
      ∧ acc chu' !! 0%nat = Some 2
      ∧ desc chu' !! 0%nat = Some 4
      ∧ taxid chu' !! 0%nat = Some 0)
  ∧ (∃ chu, chunk_truncated 9 = Ok chu ∧ dsqdata_unpack_chunk false chu = Undefined).
Proof.
  split.
  - eexists _, _. split; [vm_compute; reflexivity|]. split; [reflexivity|].
    split; [reflexivity|]. split; [vm_compute; reflexivity|]. split_and!; reflexivity.
  - eexists. split; [vm_compute; reflexivity|]. vm_compute. reflexivity.
Qed.

(** C7, at an input where it fails. A chunk of [N = 1] sequence whose
    one packet is a full 5-bit packet without the end-of-data bit:
    [dsqdata_unpack_chunk] returns [eslOK], [L] as it was; with the
    assertions of a debugging build it aborts. Neither is
    [eslEFORMAT]. *)
Theorem unpack_missing_eod_returns_ok :
  eod_count [1074859141] = 0%nat
  ∧ N (chunk_with dd_amino 1 [1074859141]) = 1
  ∧ (∃ chu', dsqdata_unpack_chunk false (chunk_with dd_amino 1 [1074859141]) = Ok chu'
             ∧ L chu' = L (chunk_with dd_amino 1 [1074859141]))
  ∧ dsqdata_unpack_chunk true (chunk_with dd_amino 1 [1074859141]) = Abort.
Proof.
  split; [reflexivity|]. split; [reflexivity|]. split.
  - eexists. split; [vm_compute; reflexivity | reflexivity].
  - vm_compute. reflexivity.
Qed.

(** C8 as it is stated fails with two consumers: thread 1 takes the
    chunk of one sequence and has not yet left [Read] when thread 0
    takes the chunk without a sequence and is returned [eslEOF];
    after that, with [at_eof] set, thread 1 is returned [eslOK] and
    its chunk. *)
Lemma chunk_returned_after_eof :
  ∃ s es chu,
    run false run_late_return system_start = Some (s, es)
    ∧ es = [Silent; Silent; Silent; Silent; Took 1 chu;
            Silent; Silent; Silent; Silent; Took 0 eof_chunk;
            Returned 0 eslEOF None; Returned 1 eslOK (Some chu)]
    ∧ N chu = 1
    ∧ is_eof_chunk chu = false
    ∧ at_eof s = true
    ∧ recycling s = [eof_chunk].
Proof.
  eexists _, _, _. split; [vm_compute; reflexivity|].
  split; [reflexivity|]. split; [reflexivity|]. split; [reflexivity|].
  split; reflexivity.
Qed.

(** The claim C8 (amended) at a run with one consumer, which holds the
    chunk without a sequence: when it leaves [Read] the chunk is on
    the recycling stack, and a call of another thread returns at
    once. *)
Lemma read_eof_latch_witness :
  ∃ s es,
    run false run_to_latch system_start = Some (s, es)
    ∧ readers s !! 0%nat = Some (Holding eof_chunk)
    ∧ at_eof s = true
    ∧ (eof_takes es <= 1)%nat
    ∧ (∃ s2, Read_leave 0 s = Some (s2, Returned 0 eslEOF None)
             ∧ recycling s2 = eof_chunk :: recycling s
             ∧ readers s2 !! 0%nat = None
             ∧ at_eof s2 = true)
    ∧ Read_enter 1 s = Some (s, Returned 1 eslEOF None).
Proof.
  destruct (run false run_to_latch system_start) as [[s es]|] eqn:Hrun;
    [|vm_compute in Hrun; discriminate].
  exists s, es.
  assert (Hheld : readers s !! 0%nat = Some (Holding eof_chunk))
    by (vm_compute in Hrun; injection Hrun as <- _; reflexivity).
  assert (Hfree : readers s !! 1%nat = None)
    by (vm_compute in Hrun; injection Hrun as <- _; reflexivity).
  destruct (read_eof_latch false run_to_latch s es Hrun) as (Hone & _ & _ & Hleave & _ & Hafter).
  destruct (Hleave 0%nat eof_chunk Hheld eq_refl) as [Hlatch Hs2].
  destruct (Hafter Hlatch) as [Henter _].
  split; [reflexivity|]. split; [exact Hheld|]. split; [exact Hlatch|].
  split; [exact Hone|]. split; [exact Hs2|]. exact (Henter 1%nat Hfree).
Defined.

(** C9 as it is stated fails: for the one sequence of four residues
    of a chunk, [dsq[0]] is 0, the offset of the leading sentinel, and
    not 1. *)
Lemma dsq_start_counterexample :
  ∃ chu', dsqdata_unpack_chunk false (chunk_with dd_amino 1 [3222343679]) = Ok chu'
        ∧ sequences [] [3222343679] = [[0; 1; 2; 3]]
        ∧ dsq chu' !! 0%nat = Some 0
        ∧ dsq chu' !! 0%nat ≠ Some 1
        ∧ take 6 (smem chu') = [eslDSQ_SENTINEL; 0; 1; 2; 3; eslDSQ_SENTINEL]
        ∧ L chu' !! 0%nat = Some 4.
Proof.
  eexists. split; [vm_compute; reflexivity|]. split; [vm_compute; reflexivity|].
  split; [reflexivity|]. split; [discriminate|]. split; reflexivity.
Qed.

(** The claim C9 (amended) at the chunk of one protein sequence of four residues. *)
Lemma unpacked_chunk_layout_witness :
  ∃ chu',
    chunk_holds dd_amino (chunk_with dd_amino 1 [3222343679]) [3222343679]
    ∧ (length [3222343679]%Z <= chunk_maxpacket dd_amino)%nat
    ∧ N (chunk_with dd_amino 1 [3222343679]) <= Z.of_nat (chunk_maxseq dd_amino)
    ∧ Z.of_nat (eod_count [3222343679]) = N (chunk_with dd_amino 1 [3222343679])
    ∧ (pack5 dd_amino = true -> Forall (fun v => Z.testbit v 30 = true) [3222343679])
    ∧ dsqdata_unpack_chunk false (chunk_with dd_amino 1 [3222343679]) = Ok chu'
    ∧ ∃ x, sequences [] [3222343679] !! 0%nat = Some x
           ∧ dsq chu' !! 0%nat = Some (Z.of_nat (offset_of (sequences [] [3222343679]) 0))
           ∧ L chu' !! 0%nat = Some (Z.of_nat (length x)).
Proof.
  destruct (dsqdata_unpack_chunk false (chunk_with dd_amino 1 [3222343679]))
    as [chu'| | | |] eqn:Hrun; try (vm_compute in Hrun; discriminate).
  exists chu'.
  assert (H1 : chunk_holds dd_amino (chunk_with dd_amino 1 [3222343679]) [3222343679])
    by (split; [vm_compute; reflexivity ..|repeat constructor; lia]).
  assert (H3 : (length [3222343679]%Z <= chunk_maxpacket dd_amino)%nat) by (simpl; lia).
  assert (H4 : N (chunk_with dd_amino 1 [3222343679]) <= Z.of_nat (chunk_maxseq dd_amino))
    by (simpl; lia).
  assert (H5 : Z.of_nat (eod_count [3222343679]) = N (chunk_with dd_amino 1 [3222343679]))
    by reflexivity.
  assert (H6 : pack5 dd_amino = true -> Forall (fun v => Z.testbit v 30 = true) [3222343679])
    by (intros _; repeat constructor).
  split_and!; try assumption; [reflexivity|].
  destruct (unpacked_chunk_layout _ _ _ _ _ H1 H3 H4 H5 H6 Hrun 0%nat ltac:(simpl; lia))
    as (x & Hx & Hd & _ & _ & _ & _ & HL).
  exists x. split_and!; assumption.
Defined.

(** C10, at an input where it fails. A chunk of [N = 1] sequence
    with two end-of-data packets: [dsqdata_unpack_chunk] writes [L[1]]
    (from the stale [dsq[1]], which the guard [i < N] keeps it from
    writing); with [MAXSEQ = 1] the write is outside the array. *)
Theorem unpack_writes_L_past_N :
  N (chunk_with dd_amino 1 [3223322623; 3321888767]) = 1
  ∧ eod_count [3223322623; 3321888767] = 2%nat
  ∧ L (chunk_with dd_amino 1 [3223322623; 3321888767]) !! 1%nat = Some 9
  ∧ (∃ chu', dsqdata_unpack_chunk false (chunk_with dd_amino 1 [3223322623; 3321888767])
             = Ok chu'
           ∧ L chu' !! 1%nat = Some (-5)
           ∧ dsq chu' !! 1%nat = dsq (chunk_with dd_amino 1 [3223322623; 3321888767]) !! 1%nat)
  ∧ length (L (chunk_with dd_one_seq 1 [3223322623; 3321888767])) = 1%nat
  ∧ dsqdata_unpack_chunk false (chunk_with dd_one_seq 1 [3223322623; 3321888767]) = Undefined.
Proof.
  split; [reflexivity|]. split; [reflexivity|]. split; [reflexivity|]. split.
  - eexists. split; [vm_compute; reflexivity|]. split; reflexivity.
  - split; [reflexivity | vm_compute; reflexivity].
Qed.

(** * More of the code *)

(** ** What [esl_dsqdata_Write] leaves in the three files *)

Lemma sq_packable_holds sq :
  sq_packable sq -> holds (sq_dsq sq) (sq_residues sq) ∧ length (sq_residues sq) = sq_n sq.
Proof.
  intros (Hn & _ & _). unfold sq_residues, holds.
  destruct (sq_dsq sq) as [|x0 mem]; [simpl in Hn; lia|]. simpl in Hn.
  rewrite skipn_cons, drop_0. split.
  - exists x0, (drop (sq_n sq) mem). by rewrite take_drop.
  - rewrite length_take. lia.
Qed.

Lemma packed_by_rule (do_pack5 : bool) sq :
  sq_packable sq ->
  ∃ mem' plen,
    (if do_pack5 then dsqdata_pack5 (sq_dsq sq) (sq_n sq)
     else dsqdata_pack2 (sq_dsq sq) (sq_n sq)) = Ok (mem', plen)
    ∧ words mem' 0 plen = sq_packets do_pack5 sq.
Proof.
  intros Hp. destruct (sq_packable_holds sq Hp) as [Hh Hlen].
  destruct Hp as (Hn & HF & Hroom). rewrite <- Hlen in *.
  assert (HF31 : Forall (fun x => 0 <= x <= 31) (sq_residues sq))
    by (eapply Forall_impl; [exact HF|]; intros x; simpl; lia).
  unfold sq_packets, packets_of. destruct do_pack5.
  - destruct (dsqdata_pack5_rule _ _ Hh HF31 Hroom) as (mem' & Hrun & Hw). eauto.
  - destruct (dsqdata_pack2_rule _ _ Hh HF31 Hroom) as (mem' & Hrun & Hw). eauto.
Qed.

Lemma write_one_spec do_pack5 db sq :
  sq_packable sq ->
  write_one do_pack5 db sq =
  Ok {| sfp := sfp db ++ sq_packets do_pack5 sq;
        mfp := mfp db ++ metadata_record sq;
        ifp := ifp db ++ [{| psq_end := spos db + Z.of_nat (length (sq_packets do_pack5 sq)) - 1;
                             metadata_end := mpos db + Z.of_nat (length (metadata_record sq)) - 1 |}];
        spos := spos db + Z.of_nat (length (sq_packets do_pack5 sq));
        mpos := mpos db + Z.of_nat (length (metadata_record sq)) |}.
Proof.
  intros Hp. destruct (packed_by_rule do_pack5 sq Hp) as (mem' & plen & Hrun & Hw).
  unfold write_one. rewrite Hrun, bind_Ok. cbv beta iota zeta.
  rewrite Hw. assert (plen = length (sq_packets do_pack5 sq)) as ->
    by (by rewrite <- Hw, length_words).
  reflexivity.
Qed.

Lemma end_of_cons {A} (p : list A) parts i :
  end_of (p :: parts) (S i) = Z.of_nat (length p) + end_of parts i.
Proof. unfold end_of. cbn [take concat]. rewrite length_app. lia. Qed.

Lemma end_of_0 {A} (p : list A) parts : end_of (p :: parts) 0 = Z.of_nat (length p) - 1.
Proof. unfold end_of. cbn [take concat]. rewrite take_0. simpl. rewrite app_nil_r. lia. Qed.

Lemma write_all_spec do_pack5 sqs :
  Forall sq_packable sqs ->
  ∀ db0, ∃ db new,
    write_all do_pack5 db0 sqs = Ok db
    ∧ sfp db = sfp db0 ++ concat (sq_packets do_pack5 <$> sqs)
    ∧ mfp db = mfp db0 ++ concat (metadata_record <$> sqs)
    ∧ ifp db = ifp db0 ++ new
    ∧ length new = length sqs
    ∧ (∀ i, (i < length sqs)%nat ->
         psq_end (new !!! i) = spos db0 + end_of (sq_packets do_pack5 <$> sqs) i
         ∧ metadata_end (new !!! i) = mpos db0 + end_of (metadata_record <$> sqs) i).
Proof.
  induction 1 as [|sq sqs Hp HF IH]; intros db0.
  - exists db0, []. simpl. rewrite !app_nil_r. split_and!; try done. intros i Hi. lia.
  - cbn [write_all]. rewrite (write_one_spec _ _ _ Hp), bind_Ok.
    destruct (IH {| sfp := sfp db0 ++ sq_packets do_pack5 sq;
                    mfp := mfp db0 ++ metadata_record sq;
                    ifp := ifp db0 ++ [{| psq_end := spos db0 + Z.of_nat (length (sq_packets do_pack5 sq)) - 1;
                                          metadata_end := mpos db0 + Z.of_nat (length (metadata_record sq)) - 1 |}];
                    spos := spos db0 + Z.of_nat (length (sq_packets do_pack5 sq));
                    mpos := mpos db0 + Z.of_nat (length (metadata_record sq)) |})
      as (db & new & Hrun & Hs & Hm & Hi & Hlen & Hnew).
    cbn [sfp mfp ifp spos mpos] in *.
    exists db, ({| psq_end := spos db0 + Z.of_nat (length (sq_packets do_pack5 sq)) - 1;
                  metadata_end := mpos db0 + Z.of_nat (length (metadata_record sq)) - 1 |} :: new).
    split; [exact Hrun|]. rewrite !fmap_cons. cbn [concat].
    split; [by rewrite Hs, <- app_assoc|]. split; [by rewrite Hm, <- app_assoc|].
    split; [by rewrite Hi, <- app_assoc|]. split; [simpl; lia|].
    intros [|i] Hlt.
    + rewrite !end_of_0. cbn. lia.
    + rewrite !end_of_cons. cbn [lookup_total list_lookup_total].
      destruct (Hnew i) as [H1 H2]; [simpl in Hlt; lia|].
      split; [etrans; [exact H1|lia] | etrans; [exact H2|lia]].
Qed.

(** X2. [esl_dsqdata_Write] on sequences that can be packed returns, and
    leaves: in the sequence file the packets of the sequences, one
    sequence after the other; in the metadata file their records; in
    the index file one record for each sequence, that holds the
    positions of its last packet and of its last byte of metadata. *)
Theorem write_files abc sqs :
  Forall sq_packable sqs ->
  ∃ db, esl_dsqdata_Write abc sqs = Ok db
    ∧ sfp db = concat (sq_packets (is_amino abc) <$> sqs)
    ∧ mfp db = concat (metadata_record <$> sqs)
    ∧ length (ifp db) = length sqs
    ∧ ∀ i, (i < length sqs)%nat ->
        psq_end (ifp db !!! i) = end_of (sq_packets (is_amino abc) <$> sqs) i
        ∧ metadata_end (ifp db !!! i) = end_of (metadata_record <$> sqs) i.
Proof.
  intros HF. unfold esl_dsqdata_Write.
  change (match abc with eslAMINO => true | _ => false end) with (is_amino abc).
  destruct (write_all_spec (is_amino abc) sqs HF empty_database)
    as (db & new & Hrun & Hs & Hm & Hi & Hlen & Hnew).
  exists db. simpl in *. rewrite Hi. split_and!; try done.
  all: intros i Hlt; destruct (Hnew i Hlt) as [H1 H2]; (etrans; [exact H1|lia]) || (etrans; [exact H2|lia]).
Qed.

(** ** The metadata walk on records as they were written *)

Lemma until0_string s r : Forall (fun b => b ≠ 0) s -> until0 (s ++ 0 :: r) = s.
Proof.
  induction 1 as [|b s Hb HF IH]; cbn [app until0].
  - by rewrite decide_True.
  - rewrite decide_False by done. by rewrite IH.
Qed.

Lemma drop_cons_inv {A} (buf : list A) p x r :
  drop p buf = x :: r -> buf !! p = Some x ∧ drop (S p) buf = r.
Proof.
  intros H. split.
  - rewrite <- (Nat.add_0_r p), <- lookup_drop, H. reflexivity.
  - replace (S p) with (p + 1)%nat by lia. rewrite <- drop_drop, H. reflexivity.
Qed.

Lemma drop_app_inv {A} (buf : list A) p s r :
  drop p buf = s ++ r ->
  drop (p + length s) buf = r ∧ (length buf - p = length s + length r)%nat.
Proof.
  intros H. split.
  - rewrite <- drop_drop, H. by rewrite drop_app_length.
  - apply (f_equal length) in H. by rewrite length_drop, length_app in H.
Qed.

Lemma strchr0_string buf p s r :
  drop p buf = s ++ 0 :: r -> Forall (fun b => b ≠ 0) s -> strchr0 buf p = Ok (p + length s)%nat.
Proof.
  intros H HF. unfold strchr0. rewrite H.
  assert (E : list_find (fun b => b = 0) (s ++ 0 :: r) = Some (length s, 0)).
  { apply list_find_Some. split; [by rewrite list_lookup_middle|]. split; [done|].
    intros j y Hj Hlt. rewrite lookup_app_l in Hj by done.
    by eapply Forall_lookup in HF. }
  by rewrite E.
Qed.

Lemma load_i32_bytes buf p t r :
  drop p buf = Z_to_little_endian 4 8 t ++ r -> - 2 ^ 31 <= t < 2 ^ 31 ->
  load_i32 buf p = Ok t.
Proof.
  intros H Ht. pose proof (le4_length t) as Hlen.
  pose proof (little_endian_to_Z_to_little_endian 4 8 t ltac:(lia) ltac:(lia)) as Hrt.
  destruct (drop_app_inv _ _ _ _ H) as [_ Hroom]. rewrite Hlen in Hroom.
  destruct (Z_to_little_endian 4 8 t) as [|b0 [|b1 [|b2 [|b3 [|]]]]]; try (simpl in Hlen; lia).
  cbn [app] in H.
  apply drop_cons_inv in H as [H0 H]. apply drop_cons_inv in H as [H1 H].
  apply drop_cons_inv in H as [H2 H]. apply drop_cons_inv in H as [H3 H].
  unfold load_i32. rewrite decide_True by lia.
  unfold load_u32.
  replace (p + 1)%nat with (S p) by lia. replace (p + 2)%nat with (S (S p)) by lia.
  replace (p + 3)%nat with (S (S (S p))) by lia.
  rewrite (list_lookup_total_correct _ _ _ H0), (list_lookup_total_correct _ _ _ H1),
    (list_lookup_total_correct _ _ _ H2), (list_lookup_total_correct _ _ _ H3).
  rewrite Hrt. change (2 ^ (4 * 8)) with (2 ^ 32).
  change (2 ^ 31) with 2147483648 in *. change (2 ^ 32) with 4294967296 in *.
  f_equal. destruct (decide _); Z.div_mod_to_equations; lia.
Qed.

Lemma length_metadata_record sq :
  length (metadata_record sq)
  = (length (sq_name sq) + length (sq_acc sq) + length (sq_desc sq) + 7)%nat.
Proof. unfold metadata_record. rewrite !length_app, le4_length. simpl. lia. Qed.

Lemma check_ptr_ok alloc ptr : (ptr < alloc)%nat -> check_ptr alloc ptr = Ok ().
Proof. intros H. unfold check_ptr. by rewrite decide_False by lia. Qed.

(** One record. *)
Lemma unpack_metadata_one_spec buf alloc i m sq rest :
  md_ok sq ->
  drop (m_ptr m) buf = metadata_record sq ++ rest ->
  (m_ptr m + length (metadata_record sq) <= alloc)%nat ->
  (i < length (m_name m))%nat -> (i < length (m_acc m))%nat ->
  (i < length (m_desc m))%nat -> (i < length (m_taxid m))%nat ->
  unpack_metadata_one buf alloc i m =
  Ok {| m_name := <[i := Z.of_nat (m_ptr m)]> (m_name m);
        m_acc := <[i := Z.of_nat (m_ptr m + length (sq_name sq) + 1)]> (m_acc m);
        m_desc := <[i := Z.of_nat (m_ptr m + length (sq_name sq) + length (sq_acc sq) + 2)]>
                    (m_desc m);
        m_taxid := <[i := tax_id sq]> (m_taxid m);
        m_ptr := (m_ptr m + length (metadata_record sq))%nat |}.
Proof.
  intros (Hn & Ha & Hd & Ht) Hbuf Hroom H1 H2 H3 H4.
  rewrite length_metadata_record in *.
  unfold metadata_record in Hbuf. rewrite <- !app_assoc in Hbuf. cbn [app] in Hbuf.
  unfold unpack_metadata_one. cbv zeta.
  rewrite check_ptr_ok by lia. rewrite bind_Ok.
  rewrite poke_ok by done. rewrite bind_Ok.
  rewrite (strchr0_string _ _ _ _ Hbuf Hn), bind_Ok.
  rewrite check_ptr_ok by lia. rewrite bind_Ok.
  rewrite poke_ok by done. rewrite bind_Ok.
  apply drop_app_inv in Hbuf as [Hbuf _]. apply drop_cons_inv in Hbuf as [_ Hbuf].
  rewrite (strchr0_string _ _ _ _ Hbuf Ha), bind_Ok.
  rewrite check_ptr_ok by lia. rewrite bind_Ok.
  rewrite poke_ok by done. rewrite bind_Ok.
  apply drop_app_inv in Hbuf as [Hbuf _]. apply drop_cons_inv in Hbuf as [_ Hbuf].
  rewrite (strchr0_string _ _ _ _ Hbuf Hd), bind_Ok.
  rewrite check_ptr_ok by lia. rewrite bind_Ok.
  apply drop_app_inv in Hbuf as [Hbuf _]. apply drop_cons_inv in Hbuf as [_ Hbuf].
  rewrite (load_i32_bytes _ _ _ _ Hbuf Ht), bind_Ok.
  rewrite poke_ok by done. rewrite bind_Ok.
  f_equal. f_equal; [f_equal; lia | f_equal; lia | lia].
Qed.

Lemma start_of_cons {A} (p : list A) parts j :
  start_of (p :: parts) (S j) = (length p + start_of parts j)%nat.
Proof. unfold start_of. cbn [take concat]. by rewrite length_app. Qed.

Lemma drop_start_of {A} (parts : list (list A)) j x rest :
  parts !! j = Some x ->
  drop (start_of parts j) (concat parts ++ rest) = x ++ concat (drop (S j) parts) ++ rest.
Proof.
  intros Hj. rewrite <- (take_drop_middle parts j x Hj) at 2.
  rewrite concat_app, <- app_assoc. unfold start_of. rewrite drop_app_length.
  cbn [concat]. by rewrite <- app_assoc.
Qed.

(** All the records of a chunk. *)
Lemma unpack_metadata_spec buf alloc sqs :
  Forall md_ok sqs ->
  ∀ i m rest,
    drop (m_ptr m) buf = concat (metadata_record <$> sqs) ++ rest ->
    (m_ptr m + length (concat (metadata_record <$> sqs)) <= alloc)%nat ->
    (i + length sqs <= length (m_name m))%nat -> (i + length sqs <= length (m_acc m))%nat ->
    (i + length sqs <= length (m_desc m))%nat -> (i + length sqs <= length (m_taxid m))%nat ->
    ∃ m', unpack_metadata (length sqs) buf alloc i m = Ok m'
      ∧ m_ptr m' = (m_ptr m + length (concat (metadata_record <$> sqs)))%nat
      ∧ (length (m_name m') = length (m_name m) ∧ length (m_acc m') = length (m_acc m)
         ∧ length (m_desc m') = length (m_desc m) ∧ length (m_taxid m') = length (m_taxid m))
      ∧ (∀ k, (k < i)%nat ->
           m_name m' !! k = m_name m !! k ∧ m_acc m' !! k = m_acc m !! k
           ∧ m_desc m' !! k = m_desc m !! k ∧ m_taxid m' !! k = m_taxid m !! k)
      ∧ (∀ j sq, sqs !! j = Some sq ->
           m_name m' !! (i + j)%nat
           = Some (Z.of_nat (m_ptr m + start_of (metadata_record <$> sqs) j))
           ∧ m_acc m' !! (i + j)%nat
             = Some (Z.of_nat (m_ptr m + start_of (metadata_record <$> sqs) j
                               + length (sq_name sq) + 1))
           ∧ m_desc m' !! (i + j)%nat
             = Some (Z.of_nat (m_ptr m + start_of (metadata_record <$> sqs) j
                               + length (sq_name sq) + length (sq_acc sq) + 2))
           ∧ m_taxid m' !! (i + j)%nat = Some (tax_id sq)).
Proof.
  induction 1 as [|sq sqs Hsq HF IH]; intros i m rest Hbuf Hroom H1 H2 H3 H4.
  - exists m. cbn [length unpack_metadata fmap list_fmap concat]. split_and!; try done.
  - rewrite fmap_cons in *. cbn [concat length] in *. rewrite length_app in Hroom.
    rewrite <- app_assoc in Hbuf.
    cbn [unpack_metadata].
    rewrite (unpack_metadata_one_spec buf alloc i m sq _ Hsq Hbuf) by lia. rewrite bind_Ok.
    set (m1 := {| m_name := _ |}).
    apply drop_app_inv in Hbuf as [Hbuf _].
    destruct (IH (S i) m1 rest) as (m' & Hrun & Hptr & (L1 & L2 & L3 & L4) & Hlow & Hnew);
      subst m1; cbn [m_ptr m_name m_acc m_desc m_taxid]; rewrite ?length_insert;
      try (done || lia).
    cbn [m_ptr m_name m_acc m_desc m_taxid] in *. rewrite ?length_insert in *.
    exists m'. split; [exact Hrun|]. split; [rewrite length_app; lia|].
    split; [done|]. split.
    + intros k Hk. destruct (Hlow k ltac:(lia)) as (E1 & E2 & E3 & E4).
      rewrite E1, E2, E3, E4. rewrite !list_lookup_insert_ne by lia. done.
    + intros [|j] sq' Hj.
      * injection Hj as <-. rewrite Nat.add_0_r.
        destruct (Hlow i ltac:(lia)) as (E1 & E2 & E3 & E4).
        rewrite E1, E2, E3, E4. rewrite !list_lookup_insert_eq by lia.
        unfold start_of. cbn [take concat length]. rewrite !Nat.add_0_r. done.
      * cbn [lookup list_lookup] in Hj. change (list_lookup j sqs) with (sqs !! j) in Hj.
        destruct (Hnew j sq' Hj) as (E1 & E2 & E3 & E4).
        replace (i + S j)%nat with (S i + j)%nat by lia.
        rewrite E1, E2, E3, E4. rewrite start_of_cons.
        split_and!; try done; do 2 f_equal; lia.
Qed.

(** X4. The metadata loop of [dsqdata_unpack_chunk] on a buffer that holds
    the records of [N] sequences from its start, inside the
    allocation, and arrays of at least [N] cells: the loop returns, and
    for each sequence the three pointers are those of its name, its
    accession and its description as C strings, and the taxonomy id is
    the one that was written. *)
Theorem metadata_walk_roundtrip buf alloc sqs rest (m : walker) :
  Forall md_ok sqs ->
  buf = concat (metadata_record <$> sqs) ++ rest ->
  (length (concat (metadata_record <$> sqs)) <= alloc)%nat ->
  m_ptr m = 0%nat ->
  (length sqs <= length (m_name m))%nat -> (length sqs <= length (m_acc m))%nat ->
  (length sqs <= length (m_desc m))%nat -> (length sqs <= length (m_taxid m))%nat ->
  ∃ m', unpack_metadata (length sqs) buf alloc 0 m = Ok m'
    ∧ ∀ j sq, sqs !! j = Some sq ->
        ∃ p a d, m_name m' !! j = Some p ∧ m_acc m' !! j = Some a ∧ m_desc m' !! j = Some d
          ∧ string_at buf p = sq_name sq
          ∧ string_at buf a = sq_acc sq
          ∧ string_at buf d = sq_desc sq
          ∧ m_taxid m' !! j = Some (tax_id sq).
Proof.
  intros HF -> Hroom Hp H1 H2 H3 H4.
  destruct (unpack_metadata_spec (concat (metadata_record <$> sqs) ++ rest) alloc sqs HF
              0%nat m rest) as (m' & Hrun & _ & _ & _ & Hnew);
    rewrite ?Hp; try (done || lia).
  exists m'. split; [exact Hrun|]. intros j sq Hj.
  destruct (Hnew j sq Hj) as (E1 & E2 & E3 & E4). rewrite Hp in *. cbn [Nat.add] in *.
  eexists _, _, _. split; [exact E1|]. split; [exact E2|]. split; [exact E3|].
  assert (Hrec : (metadata_record <$> sqs) !! j = Some (metadata_record sq))
    by (by rewrite list_lookup_fmap, Hj).
  pose proof (drop_start_of _ _ _ rest Hrec) as Hd.
  eapply Forall_lookup in HF; [|exact Hj]. destruct HF as (Hn & Ha & Hds & _).
  unfold metadata_record in Hd at 3. rewrite <- !app_assoc in Hd. cbn [app] in Hd.
  unfold string_at. rewrite !Nat2Z.id. split_and!; try done.
  - rewrite Hd. by apply until0_string.
  - apply drop_app_inv in Hd as [Hd _]. apply drop_cons_inv in Hd as [_ Hd].
    replace (_ + _ + 1)%nat with (S (start_of (metadata_record <$> sqs) j + length (sq_name sq)))
      by lia.
    rewrite Hd. by apply until0_string.
  - apply drop_app_inv in Hd as [Hd _]. apply drop_cons_inv in Hd as [_ Hd].
    apply drop_app_inv in Hd as [Hd _]. apply drop_cons_inv in Hd as [_ Hd].
    replace (_ + _ + _ + 2)%nat
      with (S (S (start_of (metadata_record <$> sqs) j + length (sq_name sq))
               + length (sq_acc sq))) by lia.
    rewrite Hd. by apply until0_string.
Qed.

(** ** When the unpacker returns [eslOK] *)

(** The run of the decoder over the arena when the packets end no
    more sequences than the arrays have cells, whatever [N] is. *)
Lemma arena_run_any dd chu ps :
  chunk_holds dd chu ps ->
  (0 < chunk_maxseq dd)%nat ->
  (length ps <= chunk_maxpacket dd)%nat ->
  N chu <= Z.of_nat (chunk_maxseq dd) ->
  (eod_count ps <= chunk_maxseq dd)%nat ->
  (pack5 dd = true -> Forall (fun v => Z.testbit v 30 = true) ps) ->
  ∃ s0 s, decoder_start chu = Ok s0
    ∧ unpack_loop (length ps) 0 (psq chu) (N chu) s0 = Ok s
    ∧ unpack_packets (N chu) ps s0 = Ok s
    ∧ (d_r s <= smem_size dd)%nat
    ∧ d_i s = eod_count ps
    ∧ length (d_smem s) = length (smem chu)
    ∧ length (d_L s) = length (L chu) ∧ length (d_dsq s) = length (dsq chu).
Proof.
  intros [Hsm Hpsq Hdsq HL Hpn Hw Hu32] HM HP HN Heod H5.
  pose proof (smem_size_eq dd) as HU.
  pose proof (rpp_bound dd ps H5) as Hrpp.
  assert (Hr : (6 <= residues_per_packet dd)%nat)
    by (unfold residues_per_packet; destruct (pack5 dd); lia).
  set (R := residues_per_packet dd) in *. set (P := chunk_maxpacket dd) in *.
  set (M := chunk_maxseq dd) in *.
  assert (HRP : (R * length ps <= R * P)%nat) by (apply Nat.mul_le_mono_l; lia).
  assert (H4P : (4 * P <= R * P)%nat) by (apply Nat.mul_le_mono_r; lia).
  destruct (decoder_start_ok chu) as (s0 & Hs0 & Hr0 & Hi0 & Hsm0 & Hd0 & HL0); [lia..|].
  assert (Hends : ends ps = eod_count ps) by (by apply ends_eod_count).
  pose proof (stream_bytes_length R ps Hrpp) as Hb.
  destruct (unpack_packets_ok (N chu) ps s0) as (s & Hrun & Hwr & Hi & HL' & Hd').
  { rewrite Hr0, Hsm0, length_insert. lia. }
  { rewrite Hi0, HL0. lia. }
  { rewrite Hd0, length_insert. lia. }
  exists s0, s. split; [exact Hs0|]. split; [|split; [exact Hrun|]].
  - rewrite (unpack_loop_pure (psq chu) (N chu) ps 0%nat s0); [exact Hrun| |].
    + intros i Hi'. rewrite Hsm0, load_insert_other by lia.
      pose proof (lookup_words (smem chu) (psq chu) (length ps) i Hi') as Hlw.
      rewrite Hw in Hlw. simpl. by rewrite (list_lookup_total_correct _ _ _ Hlw).
    + intros i Hi'. rewrite Hr0.
      pose proof (stream_bytes_length R (take i ps) ltac:(by apply Forall_take)) as Hb'.
      rewrite length_take in Hb'. pose proof (ends_take i ps).
      assert ((R - 4) * i <= (R - 4) * P)%nat by (apply Nat.mul_le_mono_l; lia).
      replace (i `min` length ps)%nat with i in Hb' by lia. nia.
  - split; [rewrite (wrote_r _ _ _ Hwr); lia|]. split; [rewrite Hi, Hi0; lia|].
    rewrite (wrote_length _ _ _ Hwr), HL', Hd', Hsm0, Hd0, HL0, !length_insert. done.
Qed.

(** X7. A chunk that holds [pn <= MAXPACKET] packets at the end of its
    arena, of which at most [MAXSEQ] end a sequence (5-bit packets only
    in a protein chunk), and whose metadata walk is through: a normal
    build returns [eslOK], whatever [N <= MAXSEQ] the chunk gives, and
    no array or arena is left. *)
Theorem unpack_chunk_in_bounds dd chu ps m :
  chunk_holds dd chu ps ->
  (0 < chunk_maxseq dd)%nat ->
  (length ps <= chunk_maxpacket dd)%nat ->
  N chu <= Z.of_nat (chunk_maxseq dd) ->
  (eod_count ps <= chunk_maxseq dd)%nat ->
  (pack5 dd = true -> Forall (fun v => Z.testbit v 30 = true) ps) ->
  unpack_metadata (Z.to_nat (N chu)) (metadata chu) (mdalloc chu) 0
    {| m_name := name chu; m_acc := acc chu; m_desc := desc chu;
       m_taxid := taxid chu; m_ptr := 0 |} = Ok m ->
  ∃ chu', dsqdata_unpack_chunk false chu = Ok chu'
          ∧ length (smem chu') = length (smem chu)
          ∧ length (L chu') = length (L chu) ∧ length (dsq chu') = length (dsq chu).
Proof.
  intros Hh HM HP HN Heod H5 Hm.
  destruct (arena_run_any dd chu ps Hh HM HP HN Heod H5)
    as (s0 & s & Hs0 & Hloop & _ & _ & _ & Hlens).
  destruct Hh as [Hsm Hpsq Hdsq HL Hpn Hw Hu32].
  unfold dsqdata_unpack_chunk. rewrite Hm, bind_Ok, Hs0, bind_Ok.
  rewrite Hpn, Nat2Z.id, Hloop, bind_Ok.
  change (ESL_DASSERT1 false _) with (Ok (A := unit) ()). rewrite bind_Ok.
  eexists. split; [reflexivity|]. exact Hlens.
Qed.

Lemma unpack_chunk_ok dd chu ps m :
  chunk_holds dd chu ps ->
  (0 < chunk_maxseq dd)%nat ->
  (length ps <= chunk_maxpacket dd)%nat ->
  N chu <= Z.of_nat (chunk_maxseq dd) ->
  Z.of_nat (eod_count ps) = N chu ->
  (pack5 dd = true -> Forall (fun v => Z.testbit v 30 = true) ps) ->
  unpack_metadata (Z.to_nat (N chu)) (metadata chu) (mdalloc chu) 0
    {| m_name := name chu; m_acc := acc chu; m_desc := desc chu;
       m_taxid := taxid chu; m_ptr := 0 |} = Ok m ->
  ∃ chu', ∀ debug, dsqdata_unpack_chunk debug chu = Ok chu'.
Proof.
  intros Hh HM HP HN Heod H5 Hm.
  destruct (arena_run_any dd chu ps Hh HM HP HN ltac:(lia) H5)
    as (s0 & s & Hs0 & Hloop & _ & _ & Hi & _).
  destruct Hh as [Hsm Hpsq Hdsq HL Hpn Hw Hu32].
  eexists. intros debug.
  unfold dsqdata_unpack_chunk. rewrite Hm, !bind_Ok, Hs0, !bind_Ok.
  rewrite Hpn, Nat2Z.id, Hloop, !bind_Ok.
  unfold ESL_DASSERT1. rewrite bool_decide_eq_true_2 by lia.
  rewrite andb_false_r, !bind_Ok. reflexivity.
Qed.

(** X8. With exactly [N] packets that end a sequence, a debugging build
    returns what a normal build returns: the assertion [i == N] at the
    end of the decoder holds. *)
Theorem unpack_chunk_assertion_holds dd chu ps m :
  chunk_holds dd chu ps ->
  (0 < chunk_maxseq dd)%nat ->
  (length ps <= chunk_maxpacket dd)%nat ->
  N chu <= Z.of_nat (chunk_maxseq dd) ->
  Z.of_nat (eod_count ps) = N chu ->
  (pack5 dd = true -> Forall (fun v => Z.testbit v 30 = true) ps) ->
  unpack_metadata (Z.to_nat (N chu)) (metadata chu) (mdalloc chu) 0
    {| m_name := name chu; m_acc := acc chu; m_desc := desc chu;
       m_taxid := taxid chu; m_ptr := 0 |} = Ok m ->
  ∃ chu', dsqdata_unpack_chunk true chu = Ok chu'
          ∧ dsqdata_unpack_chunk false chu = Ok chu'.
Proof.
  intros Hh HM HP HN Heod H5 Hm.
  destruct (unpack_chunk_ok dd chu ps m Hh HM HP HN Heod H5 Hm) as [chu' H]. eauto.
Qed.

(** ** From the sequences to the unpacked chunk *)

Lemma chunk_Create_well_sized dd junk : well_sized dd (dsqdata_chunk_Create dd junk).
Proof. split; cbn; rewrite ?length_fmap, ?length_seq; reflexivity. Qed.

Lemma pack5_rule_u32 fuel s :
  (length s <= fuel)%nat -> Forall (fun x => 0 <= x <= 31) s ->
  Forall (fun v => 0 <= v < 2 ^ 32 ∧ Z.testbit v 30 = true) (pack5_rule fuel s).
Proof.
  intros Hf HF. apply Forall_lookup. intros k v Hk.
  apply pack5_rule_lookup in Hk; [|done]. subst v.
  assert (HF' : Forall (fun x => 0 <= x <= 31) (take 6 (drop (6 * k) s)))
    by (by apply Forall_take, Forall_drop).
  split; [by apply packet5_of_bounds|].
  unfold packet5_of. rewrite packet_bit30; [done|]. by apply payload5_bound.
Qed.

Lemma pack2_rule_u32 fuel :
  ∀ s, (length s <= fuel)%nat -> Forall (fun x => 0 <= x <= 31) s ->
       Forall (fun v => 0 <= v < 2 ^ 32) (pack2_rule fuel s).
Proof.
  induction fuel as [|fuel IH]; intros s Hf HF.
  - destruct s; [|simpl in Hf; lia]. by rewrite pack2_rule_nil.
  - destruct (decide (s = [])) as [->|Hne]; [by rewrite pack2_rule_nil|].
    rewrite pack2_rule_cons by done.
    assert (Hlen : (0 < length s)%nat) by (destruct s; [done|simpl; lia]).
    destruct (bool_decide _) eqn:Ecase.
    + apply bool_decide_eq_true_1 in Ecase as [H15 HF3]. constructor.
      * apply packet2_of_bounds; [rewrite length_take; lia|].
        apply Forall_range_and; [by apply Forall_take | done].
      * apply IH; [rewrite length_drop; lia | by apply Forall_drop].
    + constructor.
      * apply packet5_of_bounds. by apply Forall_take.
      * apply IH; [rewrite length_drop; lia | by apply Forall_drop].
Qed.

Lemma packets_of_u32 do_pack5 s :
  Forall (fun x => 0 <= x <= 30) s -> Forall (fun v => 0 <= v < 2 ^ 32) (packets_of do_pack5 s).
Proof.
  intros HF. assert (HF31 : Forall (fun x => 0 <= x <= 31) s)
    by (eapply Forall_impl; [exact HF|]; intros x; simpl; lia).
  unfold packets_of. destruct do_pack5.
  - eapply Forall_impl; [apply (pack5_rule_u32 (length s) s); done|]. by intros v [? _].
  - by apply pack2_rule_u32.
Qed.

Lemma packets_of_bit30 s :
  Forall (fun x => 0 <= x <= 30) s -> Forall (fun v => Z.testbit v 30 = true) (packets_of true s).
Proof.
  intros HF. assert (HF31 : Forall (fun x => 0 <= x <= 31) s)
    by (eapply Forall_impl; [exact HF|]; intros x; simpl; lia).
  eapply Forall_impl; [apply (pack5_rule_u32 (length s) s); done|]. by intros v [_ ?].
Qed.

Lemma sequences_packets_of do_pack5 s cur rest :
  s ≠ [] -> Forall (fun x => 0 <= x <= 30) s ->
  sequences cur (packets_of do_pack5 s ++ rest) = (cur ++ s) :: sequences [] rest.
Proof.
  intros Hne HF. unfold packets_of. destruct do_pack5.
  - by apply sequences_pack5_rule.
  - by apply sequences_pack2_rule.
Qed.

(** The packets of several sequences, one after the other, decode to
    the sequences. *)
Lemma sequences_concat do_pack5 ss :
  Forall (fun s => s ≠ [] ∧ Forall (fun x => 0 <= x <= 30) s) ss ->
  sequences [] (concat (packets_of do_pack5 <$> ss)) = ss.
Proof.
  induction 1 as [|s ss [Hne HF] _ IH]; [reflexivity|].
  rewrite fmap_cons. cbn [concat]. rewrite sequences_packets_of by done.
  by rewrite IH.
Qed.

Lemma concat_Forall {A} (P : A -> Prop) (xss : list (list A)) :
  Forall (Forall P) xss -> Forall P (concat xss).
Proof. induction 1; cbn [concat]; [done|]. by apply Forall_app. Qed.

Lemma sq_ok_residues sq :
  sq_ok sq -> sq_residues sq ≠ [] ∧ Forall (fun x => 0 <= x <= 30) (sq_residues sq)
              ∧ length (sq_residues sq) = sq_n sq.
Proof.
  intros (Hp & Hn & _). destruct (sq_packable_holds sq Hp) as [_ Hlen].
  destruct Hp as (_ & HF & _). split_and!; try done.
  intros E. rewrite E in Hlen. simpl in Hlen. lia.
Qed.

(** A chunk loaded with the packets and the records of the sequences
    [part] unpacks to them, in a normal and in a debugging build. *)
Lemma unpack_loaded_chunk dd part chu rest :
  Forall sq_ok part ->
  (0 < chunk_maxseq dd)%nat ->
  (length part <= chunk_maxseq dd)%nat ->
  (length (concat (sq_packets (pack5 dd) <$> part)) <= chunk_maxpacket dd)%nat ->
  chunk_holds dd chu (concat (sq_packets (pack5 dd) <$> part)) ->
  N chu = Z.of_nat (length part) ->
  (chunk_maxseq dd <= length (name chu))%nat -> (chunk_maxseq dd <= length (acc chu))%nat ->
  (chunk_maxseq dd <= length (desc chu))%nat -> (chunk_maxseq dd <= length (taxid chu))%nat ->
  metadata chu = concat (metadata_record <$> part) ++ rest ->
  (length (concat (metadata_record <$> part)) <= mdalloc chu)%nat ->
  ∃ chu', (∀ debug, dsqdata_unpack_chunk debug chu = Ok chu')
    ∧ N chu' = N chu ∧ i0 chu' = i0 chu
    ∧ ∀ i sq, part !! i = Some sq -> delivers chu' i sq.
Proof.
  intros HF HM Hn HP Hh HN Ln La Ld Lt Hmd Hroom.
  set (ps := concat (sq_packets (pack5 dd) <$> part)) in *.
  set (ss := sq_residues <$> part).
  assert (Hps : ps = concat (packets_of (pack5 dd) <$> ss)).
  { unfold ps, ss. rewrite <- list_fmap_compose. reflexivity. }
  assert (Hss : Forall (fun s => s ≠ [] ∧ Forall (fun x => 0 <= x <= 30) s) ss).
  { unfold ss. apply Forall_fmap. eapply Forall_impl; [exact HF|]. intros sq Hsq.
    destruct (sq_ok_residues sq Hsq) as (? & ? & _). done. }
  assert (Hseq : sequences [] ps = ss) by (rewrite Hps; by apply sequences_concat).
  assert (Heod : Z.of_nat (eod_count ps) = N chu).
  { rewrite <- (ends_eod_count ps (holds_u32 _ _ _ Hh)), <- (length_sequences []), Hseq.
    unfold ss. rewrite length_fmap. lia. }
  assert (H5 : pack5 dd = true -> Forall (fun v => Z.testbit v 30 = true) ps).
  { intros E. rewrite Hps, E. apply concat_Forall, Forall_fmap.
    eapply Forall_impl; [exact Hss|]. intros s [_ Hs]. by apply packets_of_bit30. }
  assert (Hmdok : Forall md_ok part)
    by (eapply Forall_impl; [exact HF|]; by intros sq (_ & _ & ?)).
  destruct (unpack_metadata_spec (metadata chu) (mdalloc chu) part Hmdok 0%nat
              {| m_name := name chu; m_acc := acc chu; m_desc := desc chu;
                 m_taxid := taxid chu; m_ptr := 0 |} rest)
    as (m & Hm & _ & _ & _ & Hnew); cbn [m_ptr m_name m_acc m_desc m_taxid];
    try (done || lia).
  cbn [m_ptr Nat.add] in Hnew.
  rewrite <- (Nat2Z.id (length part)), <- HN in Hm.
  destruct (unpack_chunk_ok dd chu ps m Hh HM HP ltac:(lia) Heod H5 Hm) as [chu' Hrun].
  exists chu'. split; [exact Hrun|].
  pose proof (Hrun false) as Hrun0.
  destruct (dsqdata_unpack_chunk_inv _ _ _ Hrun0) as (m' & s0 & s & Hm' & _ & _ & _ & Hchu).
  rewrite Hm in Hm'. injection Hm' as <-.
  split; [by rewrite Hchu|]. split; [by rewrite Hchu|].
  intros i sq Hi.
  destruct (chunk_layout dd chu ps false chu' Hh HP ltac:(lia) Heod H5 Hrun0 i)
    as (x & Hx & Hdsq & Hs1 & Hres & Hs2 & _ & HL).
  { apply lookup_lt_Some in Hi. lia. }
  rewrite Hseq in Hx, Hdsq, Hs1, Hres, Hs2. unfold ss in Hx.
  rewrite list_lookup_fmap, Hi in Hx. injection Hx as <-.
  eapply Forall_lookup in HF; [|exact Hi].
  destruct (sq_ok_residues sq HF) as (_ & _ & Hlen). rewrite Hlen in *.
  destruct (Hnew i sq Hi) as (E1 & E2 & E3 & E4).
  assert (Hrec : (metadata_record <$> part) !! i = Some (metadata_record sq))
    by (by rewrite list_lookup_fmap, Hi).
  pose proof (drop_start_of _ _ _ rest Hrec) as Hd. rewrite <- Hmd in Hd.
  destruct HF as (_ & _ & Hn0 & Ha0 & Hd0 & _).
  unfold metadata_record in Hd at 2. rewrite <- !app_assoc in Hd. cbn [app] in Hd.
  exists (offset_of (sq_residues <$> part) i). eexists _, _, _.
  rewrite Hchu. cbn [dsq smem L name acc desc taxid metadata]. rewrite Hchu in *.
  cbn [dsq smem L name acc desc taxid metadata] in *.
  split; [exact Hdsq|]. split; [exact Hs1|]. split; [exact Hres|]. split; [exact Hs2|].
  split; [exact HL|]. unfold string_at. rewrite !Nat2Z.id.
  split; [exact E1|]. split; [rewrite Hd; by apply until0_string|].
  apply drop_app_inv in Hd as [Hd _]. apply drop_cons_inv in Hd as [_ Hd].
  split; [exact E2|]. split.
  { replace (_ + _ + 1)%nat
      with (S (start_of (metadata_record <$> part) i + length (sq_name sq))) by lia.
    rewrite Hd. by apply until0_string. }
  apply drop_app_inv in Hd as [Hd _]. apply drop_cons_inv in Hd as [_ Hd].
  split; [exact E3|]. split; [|exact E4].
  replace (_ + _ + _ + 2)%nat
    with (S (S (start_of (metadata_record <$> part) i + length (sq_name sq))
             + length (sq_acc sq))) by lia.
  rewrite Hd. by apply until0_string.
Qed.

(** ** The loader on the files of a database *)

Lemma start_of_0 {A} (P : list (list A)) : start_of P 0 = 0%nat.
Proof. reflexivity. Qed.

Lemma start_of_add {A} (P : list (list A)) c k :
  start_of P (c + k) = (start_of P c + length (concat (slice c k P)))%nat.
Proof.
  unfold start_of, slice. rewrite <- (take_take_drop P c k), concat_app, length_app. done.
Qed.

Lemma start_of_all {A} (P : list (list A)) c :
  (length P <= c)%nat -> start_of P c = length (concat P).
Proof. intros H. unfold start_of. by rewrite take_ge. Qed.

Lemma start_of_mono {A} (P : list (list A)) c c' :
  (c <= c')%nat -> (start_of P c <= start_of P c')%nat.
Proof. intros H. replace c' with (c + (c' - c))%nat by lia. rewrite start_of_add. lia. Qed.

Lemma end_of_start {A} (P : list (list A)) i : end_of P i = Z.of_nat (start_of P (S i)) - 1.
Proof. reflexivity. Qed.

Lemma drop_start_concat {A} (P : list (list A)) c :
  drop (start_of P c) (concat P) = concat (drop c P).
Proof.
  unfold start_of. rewrite <- (take_drop c P) at 2. rewrite concat_app.
  by rewrite drop_app_length.
Qed.

Lemma concat_slice_drop {A} (P : list (list A)) c k :
  concat (drop c P) = concat (slice c k P) ++ concat (drop (c + k) P).
Proof.
  unfold slice. rewrite <- (take_drop k (drop c P)) at 1. rewrite concat_app, drop_drop. done.
Qed.

Lemma length_index_of P R : length (index_of P R) = length P.
Proof. unfold index_of. by rewrite length_fmap, length_seq. Qed.

Lemma lookup_index_of P R i :
  (i < length P)%nat ->
  index_of P R !! i = Some {| psq_end := end_of P i; metadata_end := end_of R i |}.
Proof.
  intros Hi. unfold index_of. rewrite list_lookup_fmap, lookup_seq_lt by done. reflexivity.
Qed.

(** The loader as [dsqdata_loader_thread] starts it, on the files that
    hold [P] and [R]. *)
Lemma loader_at_start dd P R db :
  sfp db = concat P -> mfp db = concat R -> ifp db = index_of P R ->
  loader_at dd P R (loader_start db) 0.
Proof.
  intros Hs Hm Hi. split; cbn; rewrite ?drop_0; try (done || lia).
Qed.

Lemma refilled_at dd P R ld c :
  loader_at dd P R ld c -> refilled dd ld = slice c (chunk_maxseq dd) (index_of P R).
Proof.
  intros H. unfold refilled, slice. rewrite <- (at_idx _ _ _ _ _ H).
  pose proof (at_nload _ _ _ _ _ H). pose proof (at_staged _ _ _ _ _ H).
  rewrite take_app, (take_ge (drop _ _)) by (rewrite length_drop; lia).
  rewrite length_drop. reflexivity.
Qed.

Lemma lookup_slice_index P R c k j :
  (j < k)%nat -> (c + j < length P)%nat ->
  slice c k (index_of P R) !!! j
  = {| psq_end := end_of P (c + j); metadata_end := end_of R (c + j) |}.
Proof.
  intros Hj Hc. apply list_lookup_total_correct. unfold slice.
  rewrite lookup_take_lt, lookup_drop by done. by apply lookup_index_of.
Qed.

Lemma length_slice {A} c k (l : list A) : length (slice c k l) = (k `min` (length l - c))%nat.
Proof. unfold slice. by rewrite length_take, length_drop. Qed.

(** What [fits] says on the staged records of a loader at [c]. *)
Lemma fits_at P R c k psq_last maxpacket i :
  psq_last = Z.of_nat (start_of P c) - 1 ->
  (1 <= i <= k)%nat -> (c + i <= length P)%nat ->
  fits (slice c k (index_of P R)) psq_last maxpacket i
  = bool_decide (length (concat (slice c i P)) <= maxpacket)%nat.
Proof.
  intros -> Hi Hc. unfold fits. rewrite lookup_slice_index by lia. cbn [psq_end].
  rewrite end_of_start. replace (S (c + (i - 1))) with (c + i)%nat by lia.
  rewrite start_of_add. apply bool_decide_ext. lia.
Qed.

Lemma slice_S {A} c k (l : list A) x :
  l !! (c + k)%nat = Some x -> slice c (S k) l = slice c k l ++ [x].
Proof.
  intros H. unfold slice. erewrite take_S_r; [done|]. by rewrite lookup_drop.
Qed.

Lemma concat_slice_mono {A} (P : list (list A)) c i j :
  (i <= j)%nat -> (length (concat (slice c i P)) <= length (concat (slice c j P)))%nat.
Proof.
  intros H. pose proof (start_of_add P c i). pose proof (start_of_add P c j).
  pose proof (start_of_mono P (c + i) (c + j) ltac:(lia)). lia.
Qed.

Lemma nondecreasing_at P R c k : nondecreasing (slice c k (index_of P R)).
Proof.
  intros i j Hij. rewrite length_slice, length_index_of in Hij.
  rewrite !lookup_slice_index by lia. cbn [psq_end]. rewrite !end_of_start.
  pose proof (start_of_mono P (S (c + i)) (S (c + j)) ltac:(lia)). lia.
Qed.

Lemma four_maxpacket dd : (4 * chunk_maxpacket dd <= smem_size dd)%nat.
Proof. unfold smem_size. destruct (pack5 dd); lia. Qed.

Lemma fread_exact_ok {A} (want room : nat) (file : list A) :
  (want <= room)%nat -> (want <= length file)%nat ->
  fread_exact (Z.of_nat want) room file = Ok (take want file, drop want file).
Proof.
  intros H1 H2. unfold fread_exact. rewrite decide_False by lia.
  rewrite decide_False by lia. by rewrite Nat2Z.id.
Qed.

(** A turn of the loader that has sequences left. *)
Lemma loader_turn_at debug dd P R ld c chu :
  loader_at dd P R ld c -> (c < length P)%nat -> length R = length P ->
  (0 < chunk_maxseq dd)%nat ->
  Forall (fun p => (length p <= chunk_maxpacket dd)%nat) P ->
  Forall (Forall (fun v => 0 <= v < 2 ^ 32)) P ->
  well_sized dd chu ->
  ∃ nload ld' chu' rest,
    loader_turn debug dd ld chu = Ok (ld', chu')
    ∧ (1 <= nload <= chunk_maxseq dd)%nat ∧ (c + nload <= length P)%nat
    ∧ loader_at dd P R ld' (c + nload)
    ∧ i0 chu' = Z.of_nat c ∧ N chu' = Z.of_nat nload
    ∧ chunk_holds dd chu' (concat (slice c nload P))
    ∧ (length (concat (slice c nload P)) <= chunk_maxpacket dd)%nat
    ∧ metadata chu' = concat (slice c nload R) ++ rest
    ∧ (length (concat (slice c nload R)) <= mdalloc chu')%nat
    ∧ well_sized dd chu'
    ∧ (nload = chunk_maxseq dd ∨ (c + nload)%nat = length P
       ∨ (chunk_maxpacket dd < length (concat (slice c (S nload) P)))%nat).
Proof.
  intros Hat Hc HR HM Hfit Hu32 Hsz.
  pose proof (refilled_at dd P R ld c Hat) as Hidx.
  set (idx := slice c (chunk_maxseq dd) (index_of P R)) in *.
  assert (Hnidx : length idx = (chunk_maxseq dd `min` (length P - c))%nat)
    by (unfold idx; by rewrite length_slice, length_index_of).
  destruct (lookup_lt_is_Some_2 P c Hc) as [p0 Hp0].
  assert (Hfit1 : fits idx (ld_psq_last ld) (chunk_maxpacket dd) 1 = true).
  { unfold idx. rewrite (fits_at P R c _ _ _ 1 (at_psq_last _ _ _ _ _ Hat)) by lia.
    apply bool_decide_eq_true_2.
    rewrite (slice_S c 0 P p0) by (by rewrite Nat.add_0_r). unfold slice at 1.
    rewrite take_0. cbn [app concat]. rewrite app_nil_r.
    eapply Forall_lookup in Hfit; [|exact Hp0]. exact Hfit. }
  destruct (loader_nload_spec debug idx (ld_psq_last ld) (chunk_maxpacket dd))
    as (nload & Hnl & Hrange & Hfitn & Hmax); [lia|apply nondecreasing_at|done|].
  unfold idx in Hfitn.
  rewrite (fits_at P R c _ _ _ nload (at_psq_last _ _ _ _ _ Hat)) in Hfitn by lia.
  apply bool_decide_eq_true_1 in Hfitn.
  set (packets := concat (slice c nload P)) in *.
  set (bytes := concat (slice c nload R)) in *.
  assert (Hlast : idx !!! (nload - 1)%nat
                  = {| psq_end := end_of P (c + (nload - 1));
                       metadata_end := end_of R (c + (nload - 1)) |})
    by (unfold idx; apply lookup_slice_index; lia).
  assert (Hpn : psq_end (idx !!! (nload - 1)%nat) - ld_psq_last ld = Z.of_nat (length packets)).
  { rewrite Hlast, (at_psq_last _ _ _ _ _ Hat). cbn [psq_end]. rewrite end_of_start.
    replace (S (c + (nload - 1))) with (c + nload)%nat by lia.
    rewrite start_of_add. fold packets. lia. }
  assert (Hnm : metadata_end (idx !!! (nload - 1)%nat) - ld_meta_last ld
                = Z.of_nat (length bytes)).
  { rewrite Hlast, (at_meta_last _ _ _ _ _ Hat). cbn [metadata_end]. rewrite end_of_start.
    replace (S (c + (nload - 1))) with (c + nload)%nat by lia.
    rewrite start_of_add. fold bytes. lia. }
  assert (Hsfp : ld_sfp ld = packets ++ concat (drop (c + nload) P)).
  { rewrite (at_sfp _ _ _ _ _ Hat), drop_start_concat. apply concat_slice_drop. }
  assert (Hmfp : ld_mfp ld = bytes ++ concat (drop (c + nload) R)).
  { rewrite (at_mfp _ _ _ _ _ Hat), drop_start_concat. apply concat_slice_drop. }
  unfold loader_turn. cbv zeta. fold (refilled dd ld). rewrite Hidx.
  rewrite decide_False by lia. rewrite Hnl, bind_Ok. rewrite Hpn, Hnm.
  rewrite (fread_exact_ok (length packets)) by (rewrite ?Hsfp, ?length_app; lia).
  rewrite bind_Ok.
  set (mdalloc' := if decide (Z.of_nat (mdalloc chu) < Z.of_nat (length bytes))
                   then Z.to_nat (Z.of_nat (length bytes)) else mdalloc chu).
  assert (Hmda : (length bytes <= mdalloc')%nat)
    by (unfold mdalloc'; destruct (decide _); lia).
  fold mdalloc'.
  rewrite (fread_exact_ok (length bytes)) by (rewrite ?Hmfp, ?length_app; lia).
  rewrite bind_Ok.
  rewrite Hsfp, Hmfp, !take_app_length, !drop_app_length.
  destruct Hsz as [Z1 Z2 Z3 Z4 Z5 Z6 Z7 Z8 Z9].
  pose proof (four_maxpacket dd) as H4.
  set (metadata' := if decide (Z.of_nat (mdalloc chu) < Z.of_nat (length bytes)) then bytes
                    else list_inserts 0 bytes (metadata chu)).
  assert (Hmd' : ∃ rest, metadata' = bytes ++ rest ∧ length metadata' = mdalloc').
  { unfold metadata', mdalloc'. destruct (decide _) as [Hg|Hg].
    - exists []. rewrite app_nil_r. split; [done|lia].
    - exists (drop (length bytes) (metadata chu)).
      rewrite <- (take_drop (length bytes) (metadata chu)) at 1.
      rewrite list_inserts_0_r by (rewrite length_take; lia).
      split; [done|]. by rewrite length_inserts. }
  destruct Hmd' as (rest & Hmd' & Hlmd').
  exists nload. eexists _, _, rest. split; [reflexivity|].
  assert (HuP : Forall (fun v => 0 <= v < 2 ^ 32) packets).
  { apply concat_Forall. unfold slice. by apply Forall_take, Forall_drop. }
  split; [lia|]. split; [lia|]. split; [|split; [|split; [|split; [|split; [|split; [|split; [|split]]]]]]].
  - split; cbn [ld_idx ld_nload ld_i0 ld_psq_last ld_meta_last ld_done ld_ifp ld_sfp ld_mfp].
    + lia.
    + unfold idx, slice.
      pose proof (at_idx _ _ _ _ _ Hat) as Hi. pose proof (at_nload _ _ _ _ _ Hat).
      pose proof (at_staged _ _ _ _ _ Hat).
      assert (E : take (chunk_maxseq dd) (drop c (index_of P R))
                  ++ drop (chunk_maxseq dd - (length (ld_idx ld) - ld_nload ld)) (ld_ifp ld)
                  = drop c (index_of P R)).
      { rewrite <- Hi at 1. rewrite take_app, (take_ge (drop (ld_nload ld) _))
          by (rewrite length_drop; lia).
        rewrite length_drop, <- app_assoc, take_drop. exact Hi. }
      rewrite <- (drop_drop (index_of P R)). apply (f_equal (drop nload)) in E.
      rewrite <- E. symmetry. apply drop_app_le.
      fold (slice c (chunk_maxseq dd) (index_of P R)). fold idx. lia.
    + lia.
    + lia.
    + rewrite Hlast. cbn [psq_end]. rewrite end_of_start.
      by replace (S (c + (nload - 1))) with (c + nload)%nat by lia.
    + rewrite Hlast. cbn [metadata_end]. rewrite end_of_start.
      by replace (S (c + (nload - 1))) with (c + nload)%nat by lia.
    + by rewrite drop_start_concat.
    + by rewrite drop_start_concat.
    + pose proof (at_i0 _ _ _ _ _ Hat). lia.
    + done.
  - cbn [i0]. exact (at_i0 _ _ _ _ _ Hat).
  - done.
  - split; cbn [smem psq dsq L pn]; rewrite ?length_store_words; try done.
    fold packets. rewrite Z2. apply words_store_words; [lia | done].
  - done.
  - exact Hmd'.
  - exact Hmda.
  - split; cbn [smem psq dsq L name acc desc taxid metadata mdalloc];
      rewrite ?length_store_words; done.
  - destruct (decide (nload = chunk_maxseq dd)) as [|Hn1]; [by left|].
    destruct (decide ((c + nload)%nat = length P)) as [|Hn2]; [by right; left|].
    right; right. apply Nat.nle_gt. intros Hle.
    specialize (Hmax (S nload) ltac:(lia)).
    unfold idx in Hmax.
    rewrite (fits_at P R c _ _ _ (S nload) (at_psq_last _ _ _ _ _ Hat)) in Hmax by lia.
    specialize (Hmax (bool_decide_eq_true_2 _ Hle)). lia.
Qed.

(** ** All the turns of the loader *)

(** The turn of the loader that finds no record left. *)
Lemma loader_turn_eof debug dd P R ld chu :
  loader_at dd P R ld (length P) ->
  ∃ ld' chu', loader_turn debug dd ld chu = Ok (ld', chu')
    ∧ ld_done ld' = true ∧ N chu' = 0 ∧ pn chu' = 0 ∧ i0 chu' = Z.of_nat (length P).
Proof.
  intros Hat. pose proof (refilled_at dd P R ld _ Hat) as Hidx.
  assert (E : slice (length P) (chunk_maxseq dd) (index_of P R) = []).
  { unfold slice. rewrite drop_ge by (rewrite length_index_of; lia). by rewrite take_nil. }
  rewrite E in Hidx. unfold loader_turn. cbv zeta. fold (refilled dd ld). rewrite Hidx.
  rewrite decide_True by done. eexists _, _. split; [reflexivity|].
  cbn. split_and!; try done. exact (at_i0 _ _ _ _ _ Hat).
Qed.

(** The main loop of the loader from a state with [c] sequences
    loaded. *)
Lemma loader_loop_at debug dd P R supply :
  length R = length P -> (0 < chunk_maxseq dd)%nat ->
  Forall (fun p => (length p <= chunk_maxpacket dd)%nat) P ->
  Forall (Forall (fun v => 0 <= v < 2 ^ 32)) P ->
  (∀ k, well_sized dd (supply k)) ->
  ∀ fuel ld c k,
    loader_at dd P R ld c -> (length P - c < fuel)%nat ->
    ∃ chunks, loader_loop fuel debug dd ld supply k = Ok chunks ∧ emitted dd P R c chunks.
Proof.
  intros HR HM Hfit Hu32 Hsup.
  induction fuel as [|fuel IH]; intros ld c k Hat Hf; [lia|].
  cbn [loader_loop]. rewrite (at_done _ _ _ _ _ Hat).
  destruct (decide (c = length P)) as [->|Hc].
  - destruct (loader_turn_eof debug dd P R ld (supply k) Hat)
      as (ld' & chu' & Hturn & Hdone & HN & Hpn & Hi0).
    rewrite Hturn, bind_Ok. destruct fuel; cbn [loader_loop]; rewrite Hdone, bind_Ok.
    all: eexists; split; [reflexivity|]; by constructor.
  - pose proof (at_c _ _ _ _ _ Hat).
    destruct (loader_turn_at debug dd P R ld c (supply k) Hat ltac:(lia) HR HM Hfit Hu32 (Hsup k))
      as (nload & ld' & chu' & rest & Hturn & Hn & Hcn & Hat' & Hi0 & HN & Hh & Hp & Hmd & Hmr
          & Hsz & Hmax).
    rewrite Hturn, bind_Ok.
    destruct (IH ld' (c + nload)%nat (S k) Hat' ltac:(lia)) as (chunks & Hrun & Hem).
    rewrite Hrun, bind_Ok. eexists. split; [reflexivity|].
    by eapply emitted_chunk.
Qed.

Lemma emitted_parts dd P R c chunks :
  emitted dd P R c chunks ->
  ∃ body last, chunks = body ++ [last]
    ∧ N last = 0 ∧ i0 last = Z.of_nat (length P)
    ∧ Forall (fun chu => 1 <= N chu <= Z.of_nat (chunk_maxseq dd)
                         ∧ 0 <= pn chu <= Z.of_nat (chunk_maxpacket dd)) body
    ∧ Z.of_nat c + loaded body = Z.of_nat (length P)
    ∧ ∀ k chu, body !! k = Some chu -> i0 chu = Z.of_nat c + loaded (take k body).
Proof.
  induction 1 as [chu HN Hpn Hi0|c nload chu rest chunks Hn Hcn Hi0 HN Hh Hp Hmd Hmr Hsz Hmax Hem IH].
  - exists [], chu. split_and!; try done. simpl. lia.
  - destruct IH as (body & last & -> & HNl & Hil & HF & Hsum & Hi).
    exists (chu :: body), last. split; [done|]. split; [done|]. split; [done|]. split.
    { constructor; [|done]. rewrite (holds_pn _ _ _ Hh). lia. }
    split; [cbn [loaded foldr]; fold (loaded body); lia|].
    intros [|k] chu' Hk.
    + injection Hk as <-. rewrite take_0. simpl. lia.
    + cbn [take loaded foldr]. fold (loaded (take k body)).
      rewrite (Hi k chu' Hk). lia.
Qed.

Lemma slice_fmap {A B} (f : A -> B) c k (l : list A) : slice c k (f <$> l) = f <$> slice c k l.
Proof. unfold slice. by rewrite <- fmap_drop, <- fmap_take. Qed.

Lemma lookup_slice {A} c k (l : list A) i :
  (i < k)%nat -> slice c k l !! i = l !! (c + i)%nat.
Proof. intros H. unfold slice. by rewrite lookup_take_lt, lookup_drop. Qed.

(** Every sequence from [c] on is in one of the chunks emitted from
    [c] on, and that chunk unpacks to it. *)
Lemma emitted_delivers dd sqs c chunks :
  Forall sq_ok sqs -> (0 < chunk_maxseq dd)%nat ->
  emitted dd (sq_packets (pack5 dd) <$> sqs) (metadata_record <$> sqs) c chunks ->
  ∀ g sq, (c <= g)%nat -> sqs !! g = Some sq ->
    ∃ k chu chu' i,
      chunks !! k = Some chu
      ∧ (∀ debug, dsqdata_unpack_chunk debug chu = Ok chu')
      ∧ i0 chu' + Z.of_nat i = Z.of_nat g ∧ Z.of_nat i < N chu'
      ∧ delivers chu' i sq.
Proof.
  intros HF HM Hem.
  remember (sq_packets (pack5 dd) <$> sqs) as P eqn:EP.
  remember (metadata_record <$> sqs) as R eqn:ER.
  induction Hem as [chu HN Hpn Hi0|c nload chu rest chunks Hn Hcn Hi0 HN Hh Hp Hmd Hmr Hsz Hmax Hem IH];
    intros g sq Hg Hsq.
  - apply lookup_lt_Some in Hsq. subst P. rewrite length_fmap in Hg. lia.
  - destruct (decide (g < c + nload)%nat) as [Hin|Hout].
    + subst P R. rewrite slice_fmap in Hh, Hp, Hmd, Hmr.
      destruct Hsz as [Z1 Z2 Z3 Z4 Z5 Z6 Z7 Z8 Z9].
      assert (Hlen : length (slice c nload sqs) = nload).
      { rewrite length_slice. rewrite length_fmap in Hcn. lia. }
      destruct (unpack_loaded_chunk dd (slice c nload sqs) chu rest)
        as (chu' & Hrun & HN' & Hi0' & Hdel); try (done || lia).
      { unfold slice. by apply Forall_take, Forall_drop. }
      exists 0%nat, chu, chu', (g - c)%nat. split; [done|]. split; [exact Hrun|].
      split; [lia|]. split; [lia|]. apply Hdel.
      rewrite lookup_slice by lia. by replace (c + (g - c))%nat with g by lia.
    + destruct (IH g sq ltac:(lia) Hsq) as (k & chu0 & chu' & i & Hk & Hrest).
      exists (S k), chu0, chu', i. split; [exact Hk | exact Hrest].
Qed.

Lemma write_index abc sqs :
  Forall sq_packable sqs ->
  ∃ db, esl_dsqdata_Write abc sqs = Ok db
    ∧ sfp db = concat (sq_packets (is_amino abc) <$> sqs)
    ∧ mfp db = concat (metadata_record <$> sqs)
    ∧ ifp db = index_of (sq_packets (is_amino abc) <$> sqs) (metadata_record <$> sqs).
Proof.
  intros HF. unfold esl_dsqdata_Write.
  change (match abc with eslAMINO => true | _ => false end) with (is_amino abc).
  destruct (write_all_spec (is_amino abc) sqs HF empty_database)
    as (db & new & Hrun & Hs & Hm & Hi & Hlen & Hnew).
  exists db. simpl in Hs, Hm, Hi. split; [exact Hrun|]. split; [exact Hs|]. split; [exact Hm|].
  rewrite Hi. apply list_eq_same_length with (length sqs);
    [by rewrite length_index_of, length_fmap | done |].
  intros i x y Hlt Hx Hy. rewrite lookup_index_of in Hy by (by rewrite length_fmap).
  injection Hy as <-. destruct (Hnew i Hlt) as [H1 H2].
  rewrite (list_lookup_total_correct _ _ _ Hx) in H1, H2. destruct x as [a b].
  cbn [psq_end metadata_end spos mpos empty_database] in *. f_equal; lia.
Qed.

(** X3. The main loop of the loader on the three files of a database in
    which no sequence has more packets than a chunk takes: the loop
    ends within one turn more than there are sequences; it emits
    chunks of at least one and at most [MAXSEQ] sequences and at most
    [MAXPACKET] packets, then one chunk without a sequence, and no
    other; [i0] of each chunk is the number of sequences in the chunks
    before it, and the chunks together have all the sequences. *)
Theorem loader_chunks_partition debug dd P R db supply :
  sfp db = concat P -> mfp db = concat R -> ifp db = index_of P R ->
  length R = length P -> (0 < chunk_maxseq dd)%nat ->
  Forall (fun p => (length p <= chunk_maxpacket dd)%nat) P ->
  Forall (Forall (fun v => 0 <= v < 2 ^ 32)) P ->
  (∀ k, well_sized dd (supply k)) ->
  ∃ body last,
    loader_loop (S (length P)) debug dd (loader_start db) supply 0 = Ok (body ++ [last])
    ∧ N last = 0 ∧ i0 last = Z.of_nat (length P)
    ∧ Forall (fun chu => 1 <= N chu <= Z.of_nat (chunk_maxseq dd)
                         ∧ 0 <= pn chu <= Z.of_nat (chunk_maxpacket dd)) body
    ∧ loaded body = Z.of_nat (length P)
    ∧ ∀ k chu, body !! k = Some chu -> i0 chu = loaded (take k body).
Proof.
  intros Hs Hm Hi HR HM Hfit Hu32 Hsup.
  destruct (loader_loop_at debug dd P R supply HR HM Hfit Hu32 Hsup (S (length P))
              (loader_start db) 0%nat 0%nat (loader_at_start dd P R db Hs Hm Hi) ltac:(lia))
    as (chunks & Hrun & Hem).
  destruct (emitted_parts dd P R 0 chunks Hem) as (body & last & -> & HN & Hi0 & HF & Hsum & Hk).
  exists body, last. split; [exact Hrun|]. split; [done|]. split; [done|]. split; [done|].
  split; [lia|]. intros k chu Hc. rewrite (Hk k chu Hc). lia.
Qed.

(** X1. The round trip. A database written by [esl_dsqdata_Write] from
    sequences that are not empty, each with no more packets than a
    chunk takes, is read back whole: the loader emits its chunks, and
    every sequence [g] of the input is sequence [g - i0] of one of the
    chunks, which [dsqdata_unpack_chunk] unpacks, in a normal and in a
    debugging build, to the residues, the length, the name, the
    accession, the description and the taxonomy id that were
    written. *)
Theorem write_read_roundtrip abc dd sqs supply debug :
  pack5 dd = is_amino abc ->
  Forall sq_ok sqs ->
  (0 < chunk_maxseq dd)%nat ->
  Forall (fun sq => (length (sq_packets (pack5 dd) sq) <= chunk_maxpacket dd)%nat) sqs ->
  (∀ k, well_sized dd (supply k)) ->
  ∃ db chunks,
    esl_dsqdata_Write abc sqs = Ok db
    ∧ loader_loop (S (length sqs)) debug dd (loader_start db) supply 0 = Ok chunks
    ∧ ∀ g sq, sqs !! g = Some sq ->
        ∃ k chu chu' i,
          chunks !! k = Some chu
          ∧ dsqdata_unpack_chunk debug chu = Ok chu'
          ∧ i0 chu' + Z.of_nat i = Z.of_nat g ∧ Z.of_nat i < N chu'
          ∧ delivers chu' i sq.
Proof.
  intros H5 HF HM Hfit Hsup.
  assert (Hpk : Forall sq_packable sqs) by (eapply Forall_impl; [exact HF|]; by intros sq [? _]).
  destruct (write_index abc sqs Hpk) as (db & Hw & Hs & Hm & Hi). rewrite <- H5 in Hs, Hi.
  set (P := sq_packets (pack5 dd) <$> sqs) in *. set (R := metadata_record <$> sqs) in *.
  assert (HfitP : Forall (fun p => (length p <= chunk_maxpacket dd)%nat) P)
    by (unfold P; by apply Forall_fmap).
  assert (Hu32 : Forall (Forall (fun v => 0 <= v < 2 ^ 32)) P).
  { unfold P. apply Forall_fmap. eapply Forall_impl; [exact HF|]. intros sq Hsq.
    destruct (sq_ok_residues sq Hsq) as (_ & Hr & _). by apply packets_of_u32. }
  destruct (loader_loop_at debug dd P R supply ltac:(by unfold P, R; rewrite !length_fmap)
              HM HfitP Hu32 Hsup (S (length P))
              (loader_start db) 0%nat 0%nat (loader_at_start dd P R db Hs Hm Hi) ltac:(lia))
    as (chunks & Hrun & Hem).
  exists db, chunks. split; [exact Hw|]. split.
  { unfold P in Hrun. by rewrite length_fmap in Hrun. }
  intros g sq Hsq.
  destruct (emitted_delivers dd sqs 0 chunks HF HM Hem g sq ltac:(lia) Hsq)
    as (k & chu & chu' & i & Hk & Hun & Hrest).
  exists k, chu, chu', i. split; [exact Hk|]. split; [apply Hun | exact Hrest].
Qed.

(** ** How many packets, and which bytes the packers write *)

Lemma pack2_rule_count fuel :
  ∀ s, (length s <= fuel)%nat ->
       ((length s + 14) / 15 <= length (pack2_rule fuel s))%nat.
Proof.
  induction fuel as [|fuel IH]; intros s Hf.
  - destruct s; [|simpl in Hf; lia]. rewrite pack2_rule_nil. simpl. dlia.
  - destruct (decide (s = [])) as [->|Hne]; [rewrite pack2_rule_nil; simpl; dlia|].
    rewrite pack2_rule_cons by done.
    assert (Hlen : (0 < length s)%nat) by (destruct s; [done|simpl; lia]).
    destruct (bool_decide _) eqn:Ecase; cbn [length].
    + apply bool_decide_eq_true_1 in Ecase as [H15 _].
      specialize (IH (drop 15 s) ltac:(rewrite length_drop; lia)).
      rewrite length_drop in IH. dlia.
    + specialize (IH (drop 6 s) ltac:(rewrite length_drop; lia)).
      rewrite length_drop in IH. dlia.
Qed.

(** A sequence of fewer than 15 residues is packed as a protein
    sequence is. *)
Lemma pack2_rule_short fuel :
  ∀ s, (length s <= fuel)%nat -> (length s < 15)%nat -> pack2_rule fuel s = pack5_rule fuel s.
Proof.
  induction fuel as [|fuel IH]; intros s Hf Hs.
  - destruct s; [|simpl in Hf; lia]. by rewrite pack2_rule_nil, pack5_rule_nil.
  - destruct (decide (s = [])) as [->|Hne]; [by rewrite pack2_rule_nil, pack5_rule_nil|].
    rewrite pack2_rule_cons, pack5_rule_cons by done.
    assert (Hlen : (0 < length s)%nat) by (destruct s; [done|simpl; lia]).
    rewrite bool_decide_eq_false_2 by (intros [? _]; lia).
    f_equal. apply IH; rewrite length_drop; lia.
Qed.

Lemma pack2_rule_canonical fuel :
  ∀ s, (length s <= fuel)%nat -> Forall (fun x => x <= 3) s ->
       length (pack2_rule fuel s) = (length s / 15 + (length s `mod` 15 + 5) / 6)%nat.
Proof.
  induction fuel as [|fuel IH]; intros s Hf HF.
  - destruct s; [|simpl in Hf; lia]. rewrite pack2_rule_nil. reflexivity.
  - destruct (decide (length s < 15)%nat) as [Hshort|Hlong].
    + rewrite pack2_rule_short, pack5_rule_length by done.
      rewrite (Nat.div_small (length s) 15), (Nat.mod_small (length s) 15) by lia. reflexivity.
    + assert (Hne : s ≠ []) by (intros ->; simpl in Hlong; lia).
      rewrite pack2_rule_cons by done.
      rewrite bool_decide_eq_true_2 by (split; [lia | by apply Forall_take]).
      cbn [length]. rewrite IH; [|rewrite length_drop; lia | by apply Forall_drop].
      rewrite length_drop. dlia.
Qed.

(** X10. [dsqdata_pack2] makes at least one packet for 15 residues and at
    most one for 6, and for a sequence without a code above 3 one
    2-bit packet for each 15 residues and 5-bit packets for the fewer
    than 15 that are left. *)
Theorem pack2_packet_count (mem s : list Z) :
  holds mem s -> Forall (fun x => 0 <= x <= 31) s ->
  (4 * ((length s + 5) / 6) <= length mem)%nat ->
  ∃ mem' plen, dsqdata_pack2 mem (length s) = Ok (mem', plen)
    ∧ ((length s + 14) / 15 <= plen <= (length s + 5) / 6)%nat
    ∧ (Forall (fun x => x <= 3) s ->
       plen = (length s / 15 + (length s `mod` 15 + 5) / 6)%nat).
Proof.
  intros Hh HF Hroom. destruct (dsqdata_pack2_rule mem s Hh HF Hroom) as (mem' & Hrun & _).
  eexists _, _. split; [exact Hrun|]. split.
  - split; [by apply pack2_rule_count | apply pack2_rule_length_le].
  - intros H3. by apply pack2_rule_canonical.
Qed.

(** X11. A nucleotide sequence of fewer than 15 residues gets the packets
    a protein sequence of the same codes gets. *)
Theorem pack2_short_is_pack5 (mem s : list Z) :
  holds mem s -> Forall (fun x => 0 <= x <= 31) s -> (length s < 15)%nat ->
  (4 * ((length s + 5) / 6) <= length mem)%nat ->
  ∃ mem2 mem5 plen,
    dsqdata_pack2 mem (length s) = Ok (mem2, plen)
    ∧ dsqdata_pack5 mem (length s) = Ok (mem5, plen)
    ∧ words mem2 0 plen = words mem5 0 plen.
Proof.
  intros Hh HF Hs Hroom.
  destruct (dsqdata_pack2_rule mem s Hh HF Hroom) as (mem2 & Hrun2 & Hw2).
  destruct (dsqdata_pack5_rule mem s Hh HF Hroom) as (mem5 & Hrun5 & Hw5).
  rewrite pack2_rule_short in Hrun2, Hw2 by done.
  rewrite pack5_rule_length in Hrun2, Hw2 by done.
  eexists _, _, _. split; [exact Hrun2|]. split; [exact Hrun5|]. by rewrite Hw2, Hw5.
Qed.

Lemma pack5_loop_frame n :
  ∀ fuel mem r pos mem' plen,
    pack5_loop fuel mem n r pos = Ok (mem', plen) ->
    length mem' = length mem ∧ (pos <= plen)%nat ∧ drop (4 * plen) mem' = drop (4 * plen) mem.
Proof.
  induction fuel as [|fuel IH]; intros mem r pos mem' plen; cbn [pack5_loop].
  - destruct (n <? r)%nat; [|done]. intros [= <- <-]. done.
  - destruct (n <? r)%nat; [intros [= <- <-]; done|].
    destruct (fill5 shifts5 mem n r bit30) as [v r'].
    intros Hrun. apply IH in Hrun as (Hl & Hp & Hd).
    rewrite length_store_u32 in Hl. split; [done|]. split; [lia|].
    rewrite Hd. apply drop_store_u32. lia.
Qed.

Lemma pack2_loop_frame n :
  ∀ fuel mem d r pos mem' plen,
    pack2_loop fuel mem n d r pos = Ok (mem', plen) ->
    length mem' = length mem ∧ (pos <= plen)%nat ∧ drop (4 * plen) mem' = drop (4 * plen) mem.
Proof.
  induction fuel as [|fuel IH]; intros mem d r pos mem' plen; cbn [pack2_loop].
  - destruct (n <? r)%nat; [|done]. intros [= <- <-]. done.
  - destruct (n <? r)%nat; [intros [= <- <-]; done|]. cbv zeta.
    destruct (if _ && _ then _ else _) as [v r'].
    intros Hrun. apply IH in Hrun as (Hl & Hp & Hd).
    rewrite length_store_u32 in Hl. split; [done|]. split; [lia|].
    rewrite Hd. apply drop_store_u32. lia.
Qed.

(** X12. Packing in place stays in place. For a sequence of two
    residues or more, held with its two sentinels in a buffer of at
    least [n + 2] bytes, a packer returns [plen] packets with
    [4 * plen <= n + 2]; the buffer keeps its length, and its bytes
    from [4 * plen] on are as they were. *)
Theorem pack_in_place (do_pack5 : bool) (mem s : list Z) :
  holds mem s -> Forall (fun x => 0 <= x <= 31) s ->
  (2 <= length s)%nat -> (length s + 2 <= length mem)%nat ->
  ∃ mem' plen,
    (if do_pack5 then dsqdata_pack5 mem (length s) else dsqdata_pack2 mem (length s))
    = Ok (mem', plen)
    ∧ (4 * plen <= length s + 2)%nat
    ∧ length mem' = length mem
    ∧ drop (4 * plen) mem' = drop (4 * plen) mem.
Proof.
  intros Hh HF Hn Hlen.
  assert (Hroom : (4 * ((length s + 5) / 6) <= length mem)%nat) by dlia.
  destruct do_pack5.
  - destruct (dsqdata_pack5_rule mem s Hh HF Hroom) as (mem' & Hrun & _).
    eexists _, _. split; [exact Hrun|]. split; [dlia|].
    apply pack5_loop_frame in Hrun as (? & _ & ?). done.
  - destruct (dsqdata_pack2_rule mem s Hh HF Hroom) as (mem' & Hrun & _).
    pose proof (pack2_rule_length_le (length s) s) as Hle.
    eexists _, _. split; [exact Hrun|]. split; [dlia|].
    apply pack2_loop_frame in Hrun as (? & _ & ?). done.
Qed.

(** ** What the decoder writes, whatever the packets are *)

Lemma land_mask_range a k : 0 <= k -> 0 <= Z.land a (Z.ones k) <= Z.ones k.
Proof.
  intros Hk. rewrite Z.land_ones by done. rewrite Z.ones_equiv.
  pose proof (Z.mod_pos_bound a (2 ^ k) ltac:(by apply Z.pow_pos_nonneg)). lia.
Qed.

Lemma fields_are_codes v k bs :
  0 <= k <= 5 -> Forall code_or_sentinel ((fun b => Z.land (v ≫ b) (Z.ones k)) <$> bs).
Proof.
  intros Hk. apply Forall_fmap, Forall_forall. intros b _. left.
  pose proof (land_mask_range (v ≫ b) k ltac:(lia)) as H.
  assert (Z.ones k <= 31).
  { rewrite Z.ones_equiv. assert (2 ^ k <= 2 ^ 5) by (apply Z.pow_le_mono_r; lia).
    change (2 ^ 5) with 32 in *. lia. }
  simpl. lia.
Qed.

Lemma until31_Forall (P : Z -> Prop) xs : Forall P xs -> Forall P (until31 xs).
Proof.
  induction 1 as [|x xs Hx HF IH]; cbn [until31]; [done|].
  destruct (decide (x = 31)); [done | by constructor].
Qed.

Lemma packet_bytes_codes v : Forall code_or_sentinel (packet_bytes v).
Proof.
  unfold packet_bytes. apply Forall_app. split.
  - destruct (decode_packet_cases v) as [[_ ->]|[[_ ->]|[[_ ->]|[[_ ->]|[_ ->]]]]]; cbn [fst].
    + apply (fields_are_codes v 2). lia.
    + apply (fields_are_codes v 5). lia.
    + apply (fields_are_codes v 2). lia.
    + apply until31_Forall. apply (fields_are_codes v 5). lia.
    + done.
  - destruct (decode_packet v).2; [|done]. constructor; [by right | done].
Qed.

Lemma unpack_loop_wrote psq0 n :
  ∀ k pos s s',
    unpack_loop k pos psq0 n s = Ok s' ->
    ∃ xs, wrote s xs s' ∧ Forall code_or_sentinel xs ∧ (length xs <= 16 * k)%nat.
Proof.
  induction k as [|k IH]; intros pos s s'; cbn [unpack_loop].
  - intros [= <-]. exists []. split; [apply wrote_nil|]. split; [done | simpl; lia].
  - cbv zeta. set (v := load_u32 _ _).
    destruct (unpack_packet n v s) as [s1| | | |] eqn:E1; try done. rewrite bind_Ok.
    intros Hrun. apply IH in Hrun as (xs & Hw & HF & Hlen).
    apply unpack_packet_wrote in E1.
    exists (packet_bytes v ++ xs). split; [by eapply wrote_app|].
    split; [apply Forall_app; split; [apply packet_bytes_codes | done]|].
    rewrite length_app, length_packet_bytes. pose proof (decode_packet_length v).
    destruct (decode_packet v).2; lia.
Qed.

(** X9. Whatever packets a chunk holds, when [dsqdata_unpack_chunk]
    returns [eslOK] the part of the arena it has written, from the
    start to its last cursor, holds residue codes in [0..31] and
    sentinels and nothing else; the rest of the arena is as it was; and
    the cursor has moved by at most 16 bytes for each packet. *)
Theorem unpacked_bytes_are_codes debug chu chu' :
  dsqdata_unpack_chunk debug chu = Ok chu' ->
  ∃ r, (1 <= r <= length (smem chu))%nat
    ∧ (r <= 1 + 16 * Z.to_nat (pn chu))%nat
    ∧ length (smem chu') = length (smem chu)
    ∧ Forall code_or_sentinel (take r (smem chu'))
    ∧ drop r (smem chu') = drop r (smem chu).
Proof.
  intros Hrun.
  apply dsqdata_unpack_chunk_inv in Hrun as (m & s0 & s & _ & Hs0 & Hloop & _ & ->).
  cbn [smem]. unfold decoder_start in Hs0.
  destruct (poke (dsq chu) 0 0) as [dsq0| | | |]; try done. rewrite bind_Ok in Hs0.
  apply put_inv in Hs0 as (Hr0 & Hw0 & _). cbn [d_r d_smem] in Hr0.
  apply unpack_loop_wrote in Hloop as (xs & Hw & HF & Hlen).
  pose proof (wrote_app _ _ _ _ _ Hw0 Hw) as [W1 W2 W3 W4]. cbn [d_r d_smem] in *.
  exists (d_r s). rewrite W4. split; [cbn [length app] in W1|].
  - pose proof (f_equal length W2) as E. rewrite length_take, W4 in E.
    rewrite take_0 in E. cbn [app length] in E. lia.
  - split; [cbn [length app] in W1; lia|]. split; [done|]. split; [|done].
    rewrite W2, take_0. cbn [app]. constructor; [by right | done].
Qed.

(** ** The order of the chunks through the two outboxes *)

Lemma in_order_step debug a s s' e puts takes :
  in_order debug s puts takes -> step debug a s = Some (s', e) ->
  in_order debug s' (puts ++ puts_of [a]) (takes ++ takes_of [e]).
Proof.
  intros (raw & Hp & Hraw) Hstep. unfold in_order, with_unpacker in *.
  destruct a as [t|t|t|chu|chu| | |]; cbn [step] in Hstep; cbn [puts_of flat_map app].
  - unfold Read_enter in Hstep. destruct (readers s !! t); [done|].
    destruct (at_eof s); injection Hstep as <- <-; cbn; rewrite !app_nil_r; eauto.
  - unfold Read_critical in Hstep. destruct (readers s !! t) as [[|]|]; try done.
    destruct (unpacker_outbox s) as [chu|] eqn:Eb; [|done].
    injection Hstep as <- <-. cbn. rewrite !app_nil_r. exists raw. split; [done|].
    cbn in Hraw. by rewrite <- app_assoc.
  - unfold Read_leave in Hstep. destruct (readers s !! t) as [[|chu]|]; try done.
    destruct (is_eof_chunk chu); injection Hstep as <- <-; cbn; rewrite !app_nil_r; eauto.
  - injection Hstep as <- <-. cbn. rewrite !app_nil_r. eauto.
  - unfold loader_put in Hstep. destruct (loader_outbox s) eqn:Ea; [done|].
    injection Hstep as <- <-. cbn. rewrite !app_nil_r. exists puts. split; [done|].
    cbn in Hp. rewrite app_nil_r in Hp. by subst raw.
  - unfold loader_pop in Hstep. destruct (recycling s); [done|].
    injection Hstep as <- <-. cbn. rewrite !app_nil_r. eauto.
  - unfold unpacker_take in Hstep. destruct (unpacker s) eqn:Eu; try done.
    destruct (loader_outbox s) as [chu|] eqn:Ea; [|done].
    destruct (if is_eof_chunk chu then _ else _) as [chu'| | | |] eqn:Eun; try done.
    injection Hstep as <- <-. cbn. rewrite !app_nil_r. exists (raw ++ [chu]).
    split; [rewrite Hp; cbn; by rewrite app_nil_r|]. rewrite !app_assoc. apply Forall2_app.
    + by rewrite app_nil_r in Hraw.
    + constructor; [|done]. unfold unpacked.
      destruct (is_eof_chunk chu); [by injection Eun as <- | done].
  - unfold unpacker_put in Hstep.
    destruct (unpacker s) as [|chu fin|] eqn:Eu, (unpacker_outbox s) eqn:Eb; try discriminate.
    injection Hstep as <- <-. cbn. rewrite !app_nil_r. exists raw. split; [done|].
    cbn in Hraw. by destruct fin.
Qed.

Lemma in_order_run debug acts :
  ∀ s s' es puts takes,
    in_order debug s puts takes -> run debug acts s = Some (s', es) ->
    in_order debug s' (puts ++ puts_of acts) (takes ++ takes_of es).
Proof.
  induction acts as [|a acts IH]; intros s s' es puts takes Hin Hrun.
  - injection Hrun as <- <-. cbn. by rewrite !app_nil_r.
  - apply run_cons in Hrun as (s1 & e & es' & Hstep & Hrun & ->).
    pose proof (in_order_step _ _ _ _ _ _ _ Hin Hstep) as H1.
    specialize (IH _ _ _ _ _ H1 Hrun).
    cbn [puts_of takes_of flat_map] in *. rewrite !app_nil_r in IH.
    by rewrite <- !app_assoc in IH.
Qed.

(** X13. In every run of the threads, the chunks the consumers take from
    the unpacker's outbox are the chunks the loader has put into its
    outbox, in the same order, each one unpacked (the chunk without a
    sequence as it is): none is lost, none comes twice, none overtakes
    another; and at most three chunks are on their way. *)
Theorem chunks_arrive_in_order debug acts s es :
  run debug acts system_start = Some (s, es) ->
  Forall2 (unpacked debug) (take (length (takes_of es)) (puts_of acts)) (takes_of es)
  ∧ (length (puts_of acts) <= length (takes_of es) + 3)%nat.
Proof.
  intros Hrun.
  assert (H0 : in_order debug system_start [] []) by (exists []; split; [done | constructor]).
  destruct (in_order_run debug acts _ _ _ _ _ H0 Hrun) as (raw & Hp & Hraw).
  cbn [app] in *. pose proof (Forall2_length _ _ _ Hraw) as Hlen.
  rewrite length_app in Hlen. split.
  - rewrite Hp, take_app_le by lia.
    apply (Forall2_take _ _ _ (length (takes_of es))) in Hraw.
    by rewrite take_app_length in Hraw.
  - rewrite Hp, length_app. unfold with_unpacker in Hlen. rewrite length_app in Hlen.
    destruct (loader_outbox s), (unpacker_outbox s), (unpacker s); cbn in *; lia.
Qed.

(** ** When the metadata walk fails *)

Lemma unpack_metadata_app a b buf alloc :
  ∀ i m, unpack_metadata (a + b) buf alloc i m
         = (m' ← unpack_metadata a buf alloc i m; unpack_metadata b buf alloc (i + a) m').
Proof.
  induction a as [|a IH]; intros i m; cbn [Nat.add unpack_metadata].
  - rewrite bind_Ok. by rewrite Nat.add_0_r.
  - destruct (unpack_metadata_one buf alloc i m) as [m1| | | |]; try done.
    rewrite !bind_Ok, IH. by replace (S i + a)%nat with (i + S a)%nat by lia.
Qed.

(** A record of which only whole strings are left, up to the end of
    the allocation. *)
Lemma unpack_metadata_one_eformat buf i m strings :
  Forall (Forall (fun b => b ≠ 0)) strings -> (length strings <= 3)%nat ->
  drop (m_ptr m) buf = terminated strings ->
  (m_ptr m <= length buf)%nat ->
  (i < length (m_name m))%nat -> (i < length (m_acc m))%nat ->
  (i < length (m_desc m))%nat ->
  unpack_metadata_one buf (length buf) i m = Throw eslEFORMAT.
Proof.
  intros HF Hlen Hbuf Hptr H1 H2 H3.
  pose proof (f_equal length Hbuf) as Hl. rewrite length_drop in Hl.
  unfold unpack_metadata_one. cbv zeta. unfold terminated in *.
  destruct strings as [|nm strings]; cbn [fmap list_fmap concat length] in *.
  { unfold check_ptr. rewrite decide_True by lia. reflexivity. }
  apply Forall_cons in HF as [Hn HF]. rewrite !length_app in Hl. cbn [length] in Hl.
  rewrite <- app_assoc in Hbuf. cbn [app] in Hbuf.
  rewrite check_ptr_ok by lia. rewrite bind_Ok, poke_ok by done. rewrite bind_Ok.
  rewrite (strchr0_string _ _ _ _ Hbuf Hn), bind_Ok.
  apply drop_app_inv in Hbuf as [Hbuf _]. apply drop_cons_inv in Hbuf as [_ Hbuf].
  destruct strings as [|ac strings]; cbn [fmap list_fmap concat length] in *.
  { unfold check_ptr. rewrite decide_True by lia. reflexivity. }
  apply Forall_cons in HF as [Ha HF]. rewrite !length_app in Hl. cbn [length] in Hl.
  rewrite <- app_assoc in Hbuf. cbn [app] in Hbuf.
  rewrite check_ptr_ok by lia. rewrite bind_Ok, poke_ok by done. rewrite bind_Ok.
  rewrite (strchr0_string _ _ _ _ Hbuf Ha), bind_Ok.
  apply drop_app_inv in Hbuf as [Hbuf _]. apply drop_cons_inv in Hbuf as [_ Hbuf].
  destruct strings as [|de strings]; cbn [fmap list_fmap concat length] in *.
  { unfold check_ptr. rewrite decide_True by lia. reflexivity. }
  apply Forall_cons in HF as [Hd HF]. rewrite !length_app in Hl. cbn [length] in Hl.
  rewrite <- app_assoc in Hbuf. cbn [app] in Hbuf.
  rewrite check_ptr_ok by lia. rewrite bind_Ok, poke_ok by done. rewrite bind_Ok.
  rewrite (strchr0_string _ _ _ _ Hbuf Hd), bind_Ok.
  destruct strings as [|? ?]; [|simpl in Hlen; lia]. cbn [fmap list_fmap concat length] in Hl.
  unfold check_ptr. rewrite decide_True by lia. reflexivity.
Qed.

(** X5. The one error the unpacker reports. When the metadata allocation
    of a chunk holds the records of fewer sequences than [N] and then
    ends, after no more than whole strings of the record that
    follows, [dsqdata_unpack_chunk] throws [eslEFORMAT]. *)
Theorem metadata_walk_eformat debug chu sqs strings :
  Forall md_ok sqs ->
  Forall (Forall (fun b => b ≠ 0)) strings -> (length strings <= 3)%nat ->
  metadata chu = concat (metadata_record <$> sqs) ++ terminated strings ->
  mdalloc chu = length (metadata chu) ->
  Z.of_nat (length sqs) < N chu ->
  N chu <= Z.of_nat (length (name chu)) -> N chu <= Z.of_nat (length (acc chu)) ->
  N chu <= Z.of_nat (length (desc chu)) -> N chu <= Z.of_nat (length (taxid chu)) ->
  dsqdata_unpack_chunk debug chu = Throw eslEFORMAT.
Proof.
  intros HF Hs H3 Hmd Hal HN L1 L2 L3 L4.
  unfold dsqdata_unpack_chunk.
  replace (Z.to_nat (N chu)) with (length sqs + S (Z.to_nat (N chu) - S (length sqs)))%nat by lia.
  rewrite unpack_metadata_app.
  destruct (unpack_metadata_spec (metadata chu) (mdalloc chu) sqs HF 0%nat
              {| m_name := name chu; m_acc := acc chu; m_desc := desc chu;
                 m_taxid := taxid chu; m_ptr := 0 |} (terminated strings))
    as (m & Hm & Hptr & (E1 & E2 & E3 & E4) & _ & _);
    cbn [m_ptr m_name m_acc m_desc m_taxid] in *; try (done || lia).
  { rewrite Hal, Hmd, length_app. lia. }
  rewrite Hm, bind_Ok. cbn [unpack_metadata]. rewrite Hal.
  rewrite (unpack_metadata_one_eformat (metadata chu) _ m strings); try (done || lia).
  - rewrite Hptr. cbn [Nat.add]. rewrite Hmd. by rewrite drop_app_length.
  - rewrite Hptr, Hmd, length_app. lia.
Qed.

(** ** A call of [Read] that is under way when the end is reached *)

Lemma waiting_step debug a s k s' e t :
  eof_phase s k -> at_eof s = true -> readers s !! t = Some Waiting ->
  step debug a s = Some (s', e) ->
  readers s' !! t = Some Waiting ∧ not_return_of t e.
Proof.
  intros Hph Hlatch Ht Hstep.
  assert (Hout : unpacker_outbox s = None ∧ unpacker s = UExited).
  { destruct Hph as [(E & _)|[(E & _)|(_ & _ & ? & ?)]]; [congruence..|done]. }
  destruct Hout as [Hout Hun].
  destruct a as [t'|t'|t'|chu|chu| | |]; cbn [step] in Hstep.
  - unfold Read_enter in Hstep. destruct (readers s !! t') eqn:Et'; [done|].
    rewrite Hlatch in Hstep. injection Hstep as <- <-. split; [done|]. cbn. congruence.
  - unfold Read_critical in Hstep. rewrite Hout in Hstep.
    by destruct (readers s !! t') as [[|]|].
  - unfold Read_leave in Hstep. destruct (readers s !! t') as [[|chu]|] eqn:Et'; try done.
    assert (t' ≠ t) by congruence.
    destruct (is_eof_chunk chu); injection Hstep as <- <-; cbn;
      (split; [by rewrite lookup_delete_ne | done]).
  - injection Hstep as <- <-. done.
  - unfold loader_put in Hstep. destruct (loader_outbox s); [done|].
    injection Hstep as <- <-. done.
  - unfold loader_pop in Hstep. destruct (recycling s); [done|].
    injection Hstep as <- <-. done.
  - unfold unpacker_take in Hstep. by rewrite Hun in Hstep.
  - unfold unpacker_put in Hstep. by rewrite Hun in Hstep.
Qed.

Lemma waiting_run debug acts t :
  ∀ s k s' es,
    eof_phase s k -> at_eof s = true -> readers s !! t = Some Waiting ->
    run debug acts s = Some (s', es) ->
    readers s' !! t = Some Waiting ∧ Forall (not_return_of t) es.
Proof.
  induction acts as [|a acts IH]; intros s k s' es Hph Hlatch Ht Hrun.
  - injection Hrun as <- <-. done.
  - apply run_cons in Hrun as (s1 & e & es' & Hstep & Hrun & ->).
    destruct (eof_phase_step _ _ _ _ _ _ Hph Hstep) as (Hph1 & Hl & _).
    destruct (Hl Hlatch) as [Hlatch1 _].
    destruct (waiting_step _ _ _ _ _ _ _ Hph Hlatch Ht Hstep) as [Ht1 He].
    destruct (IH _ _ _ _ Hph1 Hlatch1 Ht1 Hrun) as [Hfin HF]. split; [done|]. by constructor.
Qed.

(** X14. A consumer thread that has entered [esl_dsqdata_Read] and waits
    for the unpacker's outbox when another thread takes the chunk
    without a sequence never leaves the call: in every continuation of
    the run it is still waiting, and no event is a return of its
    call. *)
Theorem read_under_way_at_eof_never_returns debug acts s es t acts' s' es' :
  run debug acts system_start = Some (s, es) ->
  at_eof s = true -> readers s !! t = Some Waiting ->
  run debug acts' s = Some (s', es') ->
  readers s' !! t = Some Waiting ∧ Forall (not_return_of t) es'.
Proof.
  intros Hrun Hlatch Ht Hrun'.
  pose proof (eof_phase_run debug acts _ _ _ _ eof_phase_start Hrun) as Hph.
  exact (waiting_run debug acts' t _ _ _ _ Hph Hlatch Ht Hrun').
Qed.

(** ** A sequence that is too long for a chunk *)




(** ** The properties above at particular inputs *)

Lemma two_proteins_ok : Forall sq_ok two_proteins.
Proof.
  repeat constructor; try (simpl; lia); try (intros [=]); try (vm_compute; intros [=]).
Qed.

(** [write_files] at the two protein sequences. *)
Lemma write_files_witness :
  ∃ db, esl_dsqdata_Write eslAMINO two_proteins = Ok db
    ∧ sfp db = concat (sq_packets (is_amino eslAMINO) <$> two_proteins)
    ∧ mfp db = concat (metadata_record <$> two_proteins)
    ∧ length (ifp db) = length two_proteins
    ∧ ∀ i, (i < length two_proteins)%nat ->
        psq_end (ifp db !!! i) = end_of (sq_packets (is_amino eslAMINO) <$> two_proteins) i
        ∧ metadata_end (ifp db !!! i) = end_of (metadata_record <$> two_proteins) i.
Proof.
  assert (H : Forall sq_packable two_proteins)
    by (repeat constructor; simpl; lia).
  exact (write_files eslAMINO two_proteins H).
Defined.

(** [metadata_walk_roundtrip] at the records of the two sequences,
    followed by two bytes that belong to no record. *)
Lemma metadata_walk_roundtrip_witness :
  ∃ m', unpack_metadata (length two_proteins)
          (concat (metadata_record <$> two_proteins) ++ [9; 9]) 16 0 walker_two = Ok m'
    ∧ ∀ j sq, two_proteins !! j = Some sq ->
        ∃ p a d, m_name m' !! j = Some p ∧ m_acc m' !! j = Some a ∧ m_desc m' !! j = Some d
          ∧ string_at (concat (metadata_record <$> two_proteins) ++ [9; 9]) p = sq_name sq
          ∧ string_at (concat (metadata_record <$> two_proteins) ++ [9; 9]) a = sq_acc sq
          ∧ string_at (concat (metadata_record <$> two_proteins) ++ [9; 9]) d = sq_desc sq
          ∧ m_taxid m' !! j = Some (tax_id sq).
Proof.
  assert (H : Forall md_ok two_proteins).
  { eapply Forall_impl; [exact two_proteins_ok|]. by intros sq (_ & _ & ?). }
  apply (metadata_walk_roundtrip _ 16 two_proteins [9; 9] walker_two H);
    try reflexivity; simpl; lia.
Defined.

(** [unpack_chunk_in_bounds] at a chunk of one sequence of four
    residues. *)
Lemma unpack_chunk_in_bounds_witness :
  ∃ chu', dsqdata_unpack_chunk false (chunk_with dd_amino 1 [3222343679]) = Ok chu'
          ∧ length (smem chu') = length (smem (chunk_with dd_amino 1 [3222343679]))
          ∧ length (L chu') = length (L (chunk_with dd_amino 1 [3222343679]))
          ∧ length (dsq chu') = length (dsq (chunk_with dd_amino 1 [3222343679])).
Proof.
  assert (H1 : chunk_holds dd_amino (chunk_with dd_amino 1 [3222343679]) [3222343679])
    by (split; [vm_compute; reflexivity ..|repeat constructor; lia]).
  eapply (unpack_chunk_in_bounds dd_amino _ [3222343679] _ H1);
    [simpl; lia | simpl; lia | simpl; lia | vm_compute; lia | intros _; repeat constructor
    | vm_compute; reflexivity].
Defined.

(** [unpack_chunk_assertion_holds] at the same chunk. *)
Lemma unpack_chunk_assertion_holds_witness :
  ∃ chu', dsqdata_unpack_chunk true (chunk_with dd_amino 1 [3222343679]) = Ok chu'
          ∧ dsqdata_unpack_chunk false (chunk_with dd_amino 1 [3222343679]) = Ok chu'.
Proof.
  assert (H1 : chunk_holds dd_amino (chunk_with dd_amino 1 [3222343679]) [3222343679])
    by (split; [vm_compute; reflexivity ..|repeat constructor; lia]).
  eapply (unpack_chunk_assertion_holds dd_amino _ [3222343679] _ H1);
    [simpl; lia | simpl; lia | simpl; lia | reflexivity | intros _; repeat constructor
    | vm_compute; reflexivity].
Defined.

(** [residue_decode_never_throws] at a chunk whose one packet ends no
    sequence. *)
Lemma residue_decode_never_throws_witness :
  never_throws (dsqdata_unpack_chunk true (chunk_with dd_amino 1 [1074859141])).
Proof.
  eapply (residue_decode_never_throws true (chunk_with dd_amino 1 [1074859141])).
  vm_compute. reflexivity.
Defined.

(** [loader_chunks_partition] and [write_read_roundtrip] at the two
    protein sequences, with chunks of at most two sequences and two
    packets. *)
Lemma loader_chunks_partition_witness :
  ∃ body last,
    loader_loop 3 false dd_amino
      (loader_start {| sfp := [1; 2]; mfp := [65; 0; 66; 0];
                       ifp := index_of [[1]; [2]] [[65; 0]; [66; 0]];
                       spos := 2; mpos := 4 |})
      (fresh_supply dd_amino) 0 = Ok (body ++ [last])
    ∧ N last = 0 ∧ i0 last = 2
    ∧ Forall (fun chu => 1 <= N chu <= 2 ∧ 0 <= pn chu <= 2) body
    ∧ loaded body = 2
    ∧ ∀ k chu, body !! k = Some chu -> i0 chu = loaded (take k body).
Proof.
  apply (loader_chunks_partition false dd_amino [[1]; [2]] [[65; 0]; [66; 0]]
           {| sfp := [1; 2]; mfp := [65; 0; 66; 0];
              ifp := index_of [[1]; [2]] [[65; 0]; [66; 0]]; spos := 2; mpos := 4 |}
           (fresh_supply dd_amino));
    try reflexivity; try (simpl; lia); try (repeat constructor; simpl; lia).
Defined.

Lemma write_read_roundtrip_witness :
  ∃ db chunks,
    esl_dsqdata_Write eslAMINO two_proteins = Ok db
    ∧ loader_loop (S (length two_proteins)) true dd_amino (loader_start db)
        (fresh_supply dd_amino) 0 = Ok chunks
    ∧ ∀ g sq, two_proteins !! g = Some sq ->
        ∃ k chu chu' i,
          chunks !! k = Some chu
          ∧ dsqdata_unpack_chunk true chu = Ok chu'
          ∧ i0 chu' + Z.of_nat i = Z.of_nat g ∧ Z.of_nat i < N chu'
          ∧ delivers chu' i sq.
Proof.
  apply (write_read_roundtrip eslAMINO dd_amino two_proteins (fresh_supply dd_amino) true).
  - reflexivity.
  - exact two_proteins_ok.
  - simpl. lia.
  - repeat constructor; vm_compute; lia.
  - intros k. split; reflexivity.
Defined.

(** [pack2_packet_count] at a sequence of 16 residues without a code
    above 3: one 2-bit packet and one 5-bit packet. *)
Lemma pack2_packet_count_witness :
  ∃ mem' plen,
    dsqdata_pack2 (255 :: replicate 16 2 ++ [255]) (length (replicate 16 2)) = Ok (mem', plen)
    ∧ ((length (replicate 16 2) + 14) / 15 <= plen <= (length (replicate 16 2) + 5) / 6)%nat
    ∧ (Forall (fun x => x <= 3) (replicate 16 2) ->
       plen = (length (replicate 16 2) / 15 + (length (replicate 16 2) `mod` 15 + 5) / 6)%nat).
Proof.
  apply (pack2_packet_count (255 :: replicate 16 2 ++ [255]) (replicate 16 2)).
  - by exists 255, [255].
  - repeat constructor; lia.
  - vm_compute. lia.
Defined.

(** [pack2_short_is_pack5] at the five residues [0; 1; 2; 3; 15]. *)
Lemma pack2_short_is_pack5_witness :
  ∃ mem2 mem5 plen,
    dsqdata_pack2 [255; 0; 1; 2; 3; 15; 255; 0; 0] (length [0; 1; 2; 3; 15]%Z) = Ok (mem2, plen)
    ∧ dsqdata_pack5 [255; 0; 1; 2; 3; 15; 255; 0; 0] (length [0; 1; 2; 3; 15]%Z) = Ok (mem5, plen)
    ∧ words mem2 0 plen = words mem5 0 plen.
Proof.
  apply (pack2_short_is_pack5 [255; 0; 1; 2; 3; 15; 255; 0; 0] [0; 1; 2; 3; 15]).
  - by exists 255, [255; 0; 0].
  - repeat constructor; lia.
  - simpl. lia.
  - vm_compute. lia.
Defined.

(** [pack_in_place] at a sequence of seven residues in a buffer of
    nine bytes. *)
Lemma pack_in_place_witness :
  ∃ mem' plen,
    dsqdata_pack5 [255; 1; 2; 3; 4; 5; 6; 7; 255] (length [1; 2; 3; 4; 5; 6; 7]%Z) = Ok (mem', plen)
    ∧ (4 * plen <= length [1; 2; 3; 4; 5; 6; 7]%Z + 2)%nat
    ∧ length mem' = length [255; 1; 2; 3; 4; 5; 6; 7; 255]%Z
    ∧ drop (4 * plen) mem' = drop (4 * plen) [255; 1; 2; 3; 4; 5; 6; 7; 255].
Proof.
  apply (pack_in_place true [255; 1; 2; 3; 4; 5; 6; 7; 255] [1; 2; 3; 4; 5; 6; 7]).
  - by exists 255, [255].
  - repeat constructor; lia.
  - simpl. lia.
  - simpl. lia.
Defined.

(** [unpacked_bytes_are_codes] at a chunk of one sequence of four
    residues. *)
Lemma unpacked_bytes_are_codes_witness :
  ∃ chu' r,
    dsqdata_unpack_chunk false (chunk_with dd_amino 1 [3222343679]) = Ok chu'
    ∧ (1 <= r <= length (smem (chunk_with dd_amino 1 [3222343679]%Z)))%nat
    ∧ Forall code_or_sentinel (take r (smem chu'))
    ∧ drop r (smem chu') = drop r (smem (chunk_with dd_amino 1 [3222343679])).
Proof.
  destruct (dsqdata_unpack_chunk false (chunk_with dd_amino 1 [3222343679]))
    as [chu'| | | |] eqn:Hrun; try (vm_compute in Hrun; discriminate).
  destruct (unpacked_bytes_are_codes false _ chu' Hrun) as (r & Hr & _ & _ & HF & Hd).
  exists chu', r. split; [reflexivity|]. split; [exact Hr|]. split; [exact HF | exact Hd].
Defined.

(** [chunks_arrive_in_order] at a run to the end of the data. *)
Lemma chunks_arrive_in_order_witness :
  ∃ s es,
    run false run_to_eof system_start = Some (s, es)
    ∧ Forall2 (unpacked false) (take (length (takes_of es)) (puts_of run_to_eof)) (takes_of es)
    ∧ (length (puts_of run_to_eof) <= length (takes_of es) + 3)%nat.
Proof.
  destruct (run false run_to_eof system_start) as [[s es]|] eqn:Hrun;
    [|vm_compute in Hrun; discriminate].
  exists s, es. split; [reflexivity|]. exact (chunks_arrive_in_order false run_to_eof s es Hrun).
Defined.

(** [metadata_walk_eformat] at a chunk of one sequence whose metadata
    allocation ends after the accession. *)
Lemma metadata_walk_eformat_witness :
  dsqdata_unpack_chunk false chunk_two_strings = Throw eslEFORMAT.
Proof.
  apply (metadata_walk_eformat false chunk_two_strings [] [[65]; [66]]);
    try reflexivity; try (simpl; lia); repeat constructor; try done.
Defined.

(** [read_under_way_at_eof_never_returns] at the two consumers:
    consumer 1 waits on, whatever consumer 0 and a third one do. *)
Lemma read_under_way_at_eof_never_returns_witness :
  ∃ s es s' es',
    run false run_two_readers system_start = Some (s, es)
    ∧ at_eof s = true ∧ readers s !! 1%nat = Some Waiting
    ∧ run false [Read_return 0; Read_call 2] s = Some (s', es')
    ∧ readers s' !! 1%nat = Some Waiting ∧ Forall (not_return_of 1) es'.
Proof.
  destruct (run false run_two_readers system_start) as [[s es]|] eqn:Hrun;
    [|vm_compute in Hrun; discriminate].
  assert (Hlatch : at_eof s = true) by (vm_compute in Hrun; injection Hrun as <- _; reflexivity).
  assert (Hwait : readers s !! 1%nat = Some Waiting)
    by (vm_compute in Hrun; injection Hrun as <- _; reflexivity).
  destruct (run false [Read_return 0; Read_call 2] s) as [[s' es']|] eqn:Hrun';
    [|vm_compute in Hrun; injection Hrun as <- _; vm_compute in Hrun'; discriminate].
  exists s, es, s', es'. split; [reflexivity|]. split; [exact Hlatch|]. split; [exact Hwait|].
  split; [exact Hrun'|].
  exact (read_under_way_at_eof_never_returns false run_two_readers s es 1 _ s' es'
           Hrun Hlatch Hwait Hrun').
Defined.

